(** * Backfill orchestration of [airflow/cli/commands/dag_command.py]

    A shallow embedding of [dag_backfill] and [_run_dag_backfill]: the
    command-line entry point of a backfill and the loop that drives it,
    workflow by workflow, either as a dry run or through [DAG.run].

    The two functions are translated statement by statement.  Their effects
    (printing, warnings, the calls they make on the DAG model and the
    persisted run state those calls change) are threaded through a small
    monad: a computation takes the persisted store and returns a result or a
    raised exception, the new store and the list of events it produced. *)

From stdpp Require Import base list strings gmap sorting pretty.
From Stdlib Require Import ZArith.

(** ** Data model *)

(** An operator of a DAG: its identifier and the identifiers of its direct
    upstream tasks. *)
Record Task := mkTask {
  task_id : string;
  upstream_task_ids : list string;
}.

(** A DAG.  [tasks] lists the values of [dag.task_dict] in insertion order;
    the dictionary is empty exactly when the list is. *)
Record DAG := mkDAG {
  dag_id : string;
  tasks : list Task;
}.

Definition task_ids (dag : DAG) : list string := task_id <$> tasks dag.

(** [DagRunInfo]: one logical run interval.  Timestamps are integers. *)
Record DagRunInfo := mkDagRunInfo {
  logical_date : Z;
  data_interval : Z * Z;
}.

Inductive DagRunState := QUEUED | RUNNING | SUCCESS | FAILED.

(** The parsed [conf] payload: an opaque key-value structure. *)
Definition json := list (string * string).

(** The [argparse] namespace handed to [dag_backfill].  [delay_on_limit]
    is a number of seconds that is only passed on. *)
Record Args := mkArgs {
  subdir : option string;
  arg_dag_id : string;
  treat_dag_id_as_regex : bool;
  treat_dag_as_regex : bool;
  start_date : option Z;
  end_date : option Z;
  conf : option string;
  task_regex : option string;
  ignore_dependencies : bool;
  dry_run : bool;
  reset_dagruns : bool;
  yes : bool;
  mark_success : bool;
  local : bool;
  donot_pickle : bool;
  ignore_first_depends_on_past : bool;
  pool : option string;
  delay_on_limit : Z;
  verbose : bool;
  rerun_failed_tasks : bool;
  run_backwards : bool;
  continue_on_failures : bool;
  disable_retry : bool;
}.

(** The keyword arguments of [dag.run]. *)
Record RunKwargs := mkRunKwargs {
  kw_start_date : option Z;
  kw_end_date : option Z;
  kw_mark_success : bool;
  kw_local : bool;
  kw_donot_pickle : bool;
  kw_ignore_first_depends_on_past : bool;
  kw_ignore_task_deps : bool;
  kw_pool : option string;
  kw_delay_on_limit_secs : Z;
  kw_verbose : bool;
  kw_conf : option json;
  kw_rerun_failed_tasks : bool;
  kw_run_backwards : bool;
  kw_continue_on_failures : bool;
  kw_disable_retry : bool;
}.

(** The [dag] argument of [dag_backfill]: absent, one DAG or a list. *)
Inductive DagArg :=
| NoDag
| OneDag (d : DAG)
| DagList (ds : list DAG).

(** Exceptions the two functions raise or let through. *)
Inductive exn :=
| AirflowException (msg : string)
| JSONDecodeError (doc : string)
| ValueError (msg : string)
| BackfillUnfinished
| SystemExit (code : Z).

(** What the functions do to the outside, in program order. *)
Inductive event :=
| Warn (msg : string)
| LogInfo (msg : string)
| Print (line : string)
| PartialSubset (dag : string) (task_ids_or_regex : string) (include_upstream : bool)
| NewDagRun (dag : string) (execution_date : Z) (interval : Z * Z)
| TaskDryRun (task : string) (dag : string) (execution_date : Z)
| ClearDags (dags : list string) (start_d end_d : option Z)
    (confirm_prompt include_subdags : bool) (dag_run_state : DagRunState)
| DagRunCall (dag : string) (selected : list string) (kw : RunKwargs)
| RunInterval (dag : string) (execution_date : Z) (selected : list string).

(** How the run of one interval ends inside [DAG.run]: every task of the
    run succeeded, the run failed, or a [ValueError] came up. *)
Inductive RunOutcome :=
| RunSucceeded
| RunFailed
| RunValueError (msg : string).

Inductive res (A : Type) :=
| Ok (a : A)
| Raise (e : exn).
Arguments Ok {A} a.
Arguments Raise {A} e.

(** Python truthiness of an optional string: [None] and [""] are false. *)
Definition truthy (o : option string) : bool :=
  match o with
  | Some (String _ _) => true
  | _ => false
  end.

(** [a or b] on optional timestamps (a [datetime] is always true). *)
Definition or_else (a b : option Z) : option Z :=
  match a with
  | Some _ => a
  | None => b
  end.

(** ** Collaborators

    Everything the two functions call and that lives outside them. *)
Class World := {
  (** the persisted run and task records *)
  Store : Type;
  (** [json.loads]; [None] stands for a [JSONDecodeError] *)
  json_loads : string -> option json;
  (** the task pattern (first argument) matches a task identifier *)
  re_match : string -> string -> bool;
  (** [str] of an optional [datetime], as an f-string renders it *)
  str_date : option Z -> string;
  (** [dag.iter_dagrun_infos_between(earliest, latest)] *)
  iter_dagrun_infos_between : DAG -> option Z -> option Z -> list DagRunInfo;
  (** [get_dags(subdir, dag_id, use_regex)] *)
  get_dags : option string -> string -> bool -> list DAG;
  (** [conf.getboolean("core", "donot_pickle")] *)
  core_donot_pickle : bool;
  (** the effect of [DAG.clear_dags] on the persisted records *)
  clear_dags_effect :
    list DAG -> option Z -> option Z -> bool -> Store -> Store;
  (** [dag.run] rejecting its arguments with a [ValueError], before it runs
      anything *)
  run_rejects : DAG -> RunKwargs -> option string;
  (** executing the run of one interval, with the depends-on-past
      precondition of its tasks enforced or not: the new store and how the
      run ended *)
  execute_run :
    DAG -> DagRunInfo -> RunKwargs -> bool -> Store -> Store * RunOutcome;
}.

Section Backfill.
Context {W : World}.

(** ** The effect monad *)

Definition M (A : Type) : Type := Store -> res A * Store * list event.

Definition ret {A} (a : A) : M A := fun s => (Ok a, s, []).

Definition bind {A B} (m : M A) (f : A -> M B) : M B := fun s =>
  match m s with
  | (Ok a, s1, t1) =>
      match f a s1 with
      | (r, s2, t2) => (r, s2, t1 ++ t2)
      end
  | (Raise e, s1, t1) => (Raise e, s1, t1)
  end.

Definition raise {A} (e : exn) : M A := fun s => (Raise e, s, []).

Definition emit (e : event) : M unit := fun s => (Ok tt, s, [e]).

Definition modify (f : Store -> Store) : M unit := fun s => (Ok tt, f s, []).

Definition when (b : bool) (m : M unit) : M unit :=
  if b then m else ret tt.

Fixpoint for_each {A} (l : list A) (body : A -> M unit) : M unit :=
  match l with
  | [] => ret tt
  | x :: l' => bind (body x) (fun _ => for_each l' body)
  end.

(** [try: m except ValueError as vr: handler(str(vr))].  A
    [JSONDecodeError] is a [ValueError] too. *)
Definition try_except_ValueError {A} (m : M A) (handler : string -> M A) : M A :=
  fun s =>
  match m s with
  | (Raise (ValueError msg), s1, t1)
  | (Raise (JSONDecodeError msg), s1, t1) =>
      match handler msg s1 with
      | (r, s2, t2) => (r, s2, t1 ++ t2)
      end
  | other => other
  end.

Definition result_of {A} (x : res A * Store * list event) : res A := x.1.1.
Definition store_of {A} (x : res A * Store * list event) : Store := x.1.2.
Definition trace_of {A} (x : res A * Store * list event) : list event := x.2.

End Backfill.

Notation "'do' x <- m ; k" := (bind m (fun x => k))
  (at level 10, x name, m at level 100, k at level 200, only parsing).
Notation "'run' m ; k" := (bind m (fun _ => k))
  (at level 10, m at level 100, k at level 200, only parsing).

(** ** The collaborators on the DAG model *)

Section Program.
Context {W : World}.

(** The identifiers of the tasks of [dag], as a set. *)
Definition id_set (dag : DAG) : gset string := list_to_set (task_ids dag).

(** The identifiers [regex] matches directly. *)
Definition matched (dag : DAG) (regex : string) : gset string :=
  list_to_set (task_id <$> filter (λ t, re_match regex (task_id t)) (tasks dag)).

(** One step up the dependency edges: [sel] and the direct upstream tasks
    of its members. *)
Definition upstream_step (dag : DAG) (sel : gset string) : gset string :=
  sel ∪ ⋃ ((λ t, if decide (task_id t ∈ sel)
                 then list_to_set (upstream_task_ids t) ∩ id_set dag
                 else ∅) <$> tasks dag).

Fixpoint upstream_closure (fuel : nat) (dag : DAG) (sel : gset string) : gset string :=
  match fuel with
  | O => sel
  | S n => upstream_closure n dag (upstream_step dag sel)
  end.

(** Modelled from the spec: [DAG.partial_subset], the TaskSubsetSelector of
    section 4.2, which is not among the sources.  The pattern is matched
    against the task identifiers; with [include_upstream] the result is
    extended with the transitive closure of the upstream dependencies of
    every direct match.  The selected tasks keep the order of the DAG. *)
Definition partial_subset (dag : DAG) (task_ids_or_regex : string)
    (include_upstream : bool) : DAG :=
  let direct := matched dag task_ids_or_regex in
  let sel := if include_upstream
             then upstream_closure (length (tasks dag)) dag direct
             else direct in
  {| dag_id := dag_id dag;
     tasks := filter (λ t, task_id t ∈ sel) (tasks dag) |}.

(** Modelled from the spec: the IntervalEnumerator of section 4.1 with its
    direction, which [DAG.run] uses and which is not among the sources.
    Backwards is the exact reverse of the ascending sequence. *)
Definition enumerate (dag : DAG) (start_d end_d : option Z) (backwards : bool)
    : list DagRunInfo :=
  let ascending := iter_dagrun_infos_between dag start_d end_d in
  if backwards then reverse ascending else ascending.

Definition execute {A} (f : Store -> Store * A) : M A := fun s =>
  match f s with
  | (s', a) => (Ok a, s', [])
  end.

(** Modelled from the spec: the depends-on-past precondition of section 4.5
    and the glossary, which the executor, not among the sources, applies.
    A task with the precondition waits for its prior interval; with
    [ignore_first_depends_on_past] the first interval of the sequence is
    exempt.  [first] tells whether the interval is the first one. *)
Definition depends_on_past_enforced (kw : RunKwargs) (first : bool) : bool :=
  negb (first && kw_ignore_first_depends_on_past kw).

(** The intervals of a sequence, each with whether the precondition is
    enforced for it. *)
Definition run_steps (kw : RunKwargs) (infos : list DagRunInfo)
    : list (DagRunInfo * bool) :=
  match infos with
  | [] => []
  | info :: rest =>
      (info, depends_on_past_enforced kw true)
      :: ((λ i, (i, depends_on_past_enforced kw false)) <$> rest)
  end.

(** Modelled from the spec: the interval loop of the BackfillExecutor of
    section 4.5, which is not among the sources.  Intervals are run in the
    order delivered; a failed run stops the loop unless
    [continue_on_failures]; the result tells whether every run succeeded.
    A [ValueError] of a run ends the loop where it comes up. *)
Fixpoint run_each (dag : DAG) (kw : RunKwargs)
    (steps : list (DagRunInfo * bool)) : M bool :=
  match steps with
  | [] => ret true
  | step :: rest =>
      run emit (RunInterval (dag_id dag) (logical_date step.1) (task_ids dag));
      do outcome <- execute (execute_run dag step.1 kw step.2);
      match outcome with
      | RunSucceeded => run_each dag kw rest
      | RunFailed =>
          if kw_continue_on_failures kw
          then (run run_each dag kw rest; ret false)
          else ret false
      | RunValueError msg => raise (ValueError msg)
      end
  end.

Definition run_intervals (dag : DAG) (kw : RunKwargs) (infos : list DagRunInfo)
    : M bool :=
  run_each dag kw (run_steps kw infos).

(** Modelled from the spec: [DAG.run], the BackfillExecutor of section 4.5,
    which is not among the sources.  An overall failure is reported as an
    error.  The source expects a [ValueError] from the call: it can come up
    before anything runs, when the arguments are rejected, or at any
    interval. *)
Definition DAG_run (dag : DAG) (kw : RunKwargs) : M unit :=
  match run_rejects dag kw with
  | Some msg => raise (ValueError msg)
  | None =>
      do ok <- run_intervals dag kw
                 (enumerate dag (kw_start_date kw) (kw_end_date kw)
                    (kw_run_backwards kw));
      if ok then ret tt else raise BackfillUnfinished
  end.

(** The three calls as the source makes them: the call is recorded, then
    the collaborator does its work. *)
Definition call_partial_subset (dag : DAG) (task_ids_or_regex : string)
    (include_upstream : bool) : M DAG :=
  run emit (PartialSubset (dag_id dag) task_ids_or_regex include_upstream);
  ret (partial_subset dag task_ids_or_regex include_upstream).

Definition call_clear_dags (dags : list DAG) (start_d end_d : option Z)
    (confirm_prompt include_subdags : bool) (dag_run_state : DagRunState)
    : M unit :=
  run emit (ClearDags (dag_id <$> dags) start_d end_d confirm_prompt
              include_subdags dag_run_state);
  modify (clear_dags_effect dags start_d end_d confirm_prompt).

Definition call_dag_run (dag : DAG) (kw : RunKwargs) : M unit :=
  run emit (DagRunCall (dag_id dag) (task_ids dag) kw);
  DAG_run dag kw.

(** [DagRun(dag_id, execution_date=..., data_interval=...)]: the object is
    built and the source never adds it to a session. *)
Definition new_DagRun (dag : string) (execution_date : Z) (interval : Z * Z)
    : M unit :=
  emit (NewDagRun dag execution_date interval).

(** Modelled from the spec: [TaskInstance.dry_run], the no-side-effect
    "dry" check of a task of section 4.4, which is not among the sources.
    The task instance is the one of [task] with [ti.dag_run] set to the run
    built for the interval. *)
Definition ti_dry_run (task dag : string) (execution_date : Z) : M unit :=
  emit (TaskDryRun task dag execution_date).

(** ** [_run_dag_backfill] *)

(** [args.end_date = args.end_date or args.start_date] followed by
    [args.start_date = args.start_date or args.end_date]. *)
Definition default_dates (a : Args) : Args :=
  let e := or_else (end_date a) (start_date a) in
  let s := or_else (start_date a) e in
  {| subdir := subdir a; arg_dag_id := arg_dag_id a;
     treat_dag_id_as_regex := treat_dag_id_as_regex a;
     treat_dag_as_regex := treat_dag_as_regex a;
     start_date := s; end_date := e;
     conf := conf a; task_regex := task_regex a;
     ignore_dependencies := ignore_dependencies a; dry_run := dry_run a;
     reset_dagruns := reset_dagruns a; yes := yes a;
     mark_success := mark_success a; local := local a;
     donot_pickle := donot_pickle a;
     ignore_first_depends_on_past := ignore_first_depends_on_past a;
     pool := pool a; delay_on_limit := delay_on_limit a;
     verbose := verbose a; rerun_failed_tasks := rerun_failed_tasks a;
     run_backwards := run_backwards a;
     continue_on_failures := continue_on_failures a;
     disable_retry := disable_retry a |}.

Definition no_tasks_message (regex : string) : string :=
  "There are no tasks that match '" +:+ regex
  +:+ "' regex. Nothing to run, exiting...".

Definition dry_run_header (args : Args) (dag : DAG) : string :=
  "Dry run of DAG " +:+ dag_id dag +:+ " on " +:+ str_date (start_date args).

Definition located_line (dag : DAG) (task : Task) : string :=
  "Task " +:+ task_id task +:+ " located in DAG " +:+ dag_id dag.

Definition run_kwargs (args : Args) (run_conf : option json) : RunKwargs :=
  {| kw_start_date := start_date args;
     kw_end_date := end_date args;
     kw_mark_success := mark_success args;
     kw_local := local args;
     kw_donot_pickle := donot_pickle args || core_donot_pickle;
     kw_ignore_first_depends_on_past := ignore_first_depends_on_past args;
     kw_ignore_task_deps := ignore_dependencies args;
     kw_pool := pool args;
     kw_delay_on_limit_secs := delay_on_limit args;
     kw_verbose := verbose args;
     kw_conf := run_conf;
     kw_rerun_failed_tasks := rerun_failed_tasks args;
     kw_run_backwards := run_backwards args;
     kw_continue_on_failures := continue_on_failures args;
     kw_disable_retry := disable_retry args |}.

(** The [if args.task_regex:] block at the head of the loop body. *)
Definition select_tasks (args : Args) (dag : DAG) : M DAG :=
  if truthy (task_regex args) then
    let regex := default "" (task_regex args) in
    do dag <- call_partial_subset dag regex (negb (ignore_dependencies args));
    if bool_decide (tasks dag = [])
    then raise (AirflowException (no_tasks_message regex))
    else ret dag
  else ret dag.

(** The body of [for dag in dags:]. *)
Definition backfill_dag (args : Args) (run_conf : option json) (dag : DAG)
    : M unit :=
  do dag <- select_tasks args dag;
  if dry_run args then
    run emit (Print (dry_run_header args dag));
    for_each (iter_dagrun_infos_between dag (start_date args) (end_date args))
      (fun dagrun_info =>
         run new_DagRun (dag_id dag) (logical_date dagrun_info)
               (data_interval dagrun_info);
         for_each (tasks dag) (fun task =>
           run emit (Print (located_line dag task));
           ti_dry_run (task_id task) (dag_id dag) (logical_date dagrun_info)))
  else
    run when (reset_dagruns args)
          (call_clear_dags [dag] (start_date args) (end_date args)
             (negb (yes args)) true QUEUED);
    try_except_ValueError
      (call_dag_run dag (run_kwargs args run_conf))
      (fun msg => run emit (Print msg); raise (SystemExit 1)).

Definition parse_conf (args : Args) : M (option json) :=
  if truthy (conf args) then
    let doc := default "" (conf args) in
    match json_loads doc with
    | Some v => ret (Some v)
    | None => raise (JSONDecodeError doc)
    end
  else ret None.

Definition _run_dag_backfill (dags : list DAG) (args : Args) : M unit :=
  let args := default_dates args in
  do run_conf <- parse_conf args;
  for_each dags (backfill_dag args run_conf).

End Program.

(** ** [dag_backfill] *)

Section EntryPoint.
Context {W : World}.

Definition set_ignore_first_depends_on_past (a : Args) (b : bool) : Args :=
  {| subdir := subdir a; arg_dag_id := arg_dag_id a;
     treat_dag_id_as_regex := treat_dag_id_as_regex a;
     treat_dag_as_regex := treat_dag_as_regex a;
     start_date := start_date a; end_date := end_date a;
     conf := conf a; task_regex := task_regex a;
     ignore_dependencies := ignore_dependencies a; dry_run := dry_run a;
     reset_dagruns := reset_dagruns a; yes := yes a;
     mark_success := mark_success a; local := local a;
     donot_pickle := donot_pickle a;
     ignore_first_depends_on_past := b;
     pool := pool a; delay_on_limit := delay_on_limit a;
     verbose := verbose a; rerun_failed_tasks := rerun_failed_tasks a;
     run_backwards := run_backwards a;
     continue_on_failures := continue_on_failures a;
     disable_retry := disable_retry a |}.

Definition set_treat_dag_id_as_regex (a : Args) (b : bool) : Args :=
  {| subdir := subdir a; arg_dag_id := arg_dag_id a;
     treat_dag_id_as_regex := b;
     treat_dag_as_regex := treat_dag_as_regex a;
     start_date := start_date a; end_date := end_date a;
     conf := conf a; task_regex := task_regex a;
     ignore_dependencies := ignore_dependencies a; dry_run := dry_run a;
     reset_dagruns := reset_dagruns a; yes := yes a;
     mark_success := mark_success a; local := local a;
     donot_pickle := donot_pickle a;
     ignore_first_depends_on_past := ignore_first_depends_on_past a;
     pool := pool a; delay_on_limit := delay_on_limit a;
     verbose := verbose a; rerun_failed_tasks := rerun_failed_tasks a;
     run_backwards := run_backwards a;
     continue_on_failures := continue_on_failures a;
     disable_retry := disable_retry a |}.

(** [dags.sort(key=lambda d: d.dag_id)]: a stable sort on the identifier,
    strings compared character by character. *)
Fixpoint insert_by_dag_id (d : DAG) (l : list DAG) : list DAG :=
  match l with
  | [] => [d]
  | x :: l' =>
      if String.leb (dag_id d) (dag_id x)
      then d :: l
      else x :: insert_by_dag_id d l'
  end.

Definition sort_by_dag_id (l : list DAG) : list DAG :=
  foldr insert_by_dag_id [] l.

(** [not dag]: no DAG given, or an empty list. *)
Definition not_dag (dag : DagArg) : bool :=
  match dag with
  | NoDag | DagList [] => true
  | _ => false
  end.

Definition ignore_first_warning : string :=
  "--ignore-first-depends-on-past is deprecated as the value is always set to True".

Definition treat_dag_warning : string :=
  "--treat-dag-as-regex is deprecated, use --treat-dag-id-as-regex instead".

Definition no_dates_message : string := "Provide a start_date and/or end_date".

Definition all_done_message : string := "All of the backfills are done.".

(** The logging and signal set-up of the first two statements concerns
    the process, not the backfill, and is left out. *)
Definition dag_backfill (args : Args) (dag : DagArg) : M unit :=
  run when (ignore_first_depends_on_past args) (emit (Warn ignore_first_warning));
  let args := set_ignore_first_depends_on_past args true in
  do args <- (if negb (treat_dag_id_as_regex args) && treat_dag_as_regex args
              then run emit (Warn treat_dag_warning);
                   ret (set_treat_dag_id_as_regex args (treat_dag_as_regex args))
              else ret args);
  if bool_decide (start_date args = None) && bool_decide (end_date args = None)
  then raise (AirflowException no_dates_message)
  else
    let dags :=
      if not_dag dag
      then get_dags (subdir args) (arg_dag_id args) (treat_dag_id_as_regex args)
      else match dag with
           | DagList ds => ds
           | OneDag d => [d]
           | NoDag => []
           end in
    let dags := sort_by_dag_id dags in
    run _run_dag_backfill dags args;
    when (1 <? length dags)%nat (emit (LogInfo all_done_message)).

(** The status the process ends with: an uncaught exception ends it with
    status 1, [sys.exit(n)] with [n]. *)
Definition exit_status {A} (r : res A) : Z :=
  match r with
  | Ok _ => 0
  | Raise (SystemExit code) => code
  | Raise _ => 1
  end.

End EntryPoint.

(** ** Reading a trace *)

(** The intervals touched, in order: each dry-run [DagRun] built and each
    interval [DAG.run] runs. *)
Definition interval_of (e : event) : option (string * Z) :=
  match e with
  | NewDagRun d ld _ => Some (d, ld)
  | RunInterval d ld _ => Some (d, ld)
  | _ => None
  end.

Definition processed_intervals (tr : list event) : list (string * Z) :=
  omap interval_of tr.

(** The lines written to standard output. *)
Definition printed_line (e : event) : option string :=
  match e with
  | Print l => Some l
  | _ => None
  end.

Definition printed (tr : list event) : list string := omap printed_line tr.

(** The workflow an event is about. *)
Definition dag_of_event (e : event) : option string :=
  match e with
  | PartialSubset d _ _ | NewDagRun d _ _ | TaskDryRun _ d _
  | DagRunCall d _ _ | RunInterval d _ _ => Some d
  | ClearDags ds _ _ _ _ _ => head ds
  | Warn _ | LogInfo _ | Print _ => None
  end.

Definition workflow_order (tr : list event) : list string :=
  omap dag_of_event tr.

(** Events that create or change persisted run or task records. *)
Definition is_mutation (e : event) : bool :=
  match e with
  | ClearDags _ _ _ _ _ _ | DagRunCall _ _ _ | RunInterval _ _ _ => true
  | _ => false
  end.

Definition is_warning (e : event) : bool :=
  match e with
  | Warn _ => true
  | _ => false
  end.

(** The tasks handled for one interval.  A dry run starts an interval with
    [NewDagRun] and handles one task per [TaskDryRun] until the next
    interval or call; a real run names its tasks in [RunInterval]. *)
Fixpoint leading_tasks (tr : list event) : list string :=
  match tr with
  | TaskDryRun t _ _ :: tr' => t :: leading_tasks tr'
  | Print _ :: tr' => leading_tasks tr'
  | _ => []
  end.

Fixpoint interval_blocks (tr : list event) : list (string * Z * list string) :=
  match tr with
  | [] => []
  | NewDagRun d ld _ :: tr' => (d, ld, leading_tasks tr') :: interval_blocks tr'
  | RunInterval d ld ts :: tr' => (d, ld, ts) :: interval_blocks tr'
  | _ :: tr' => interval_blocks tr'
  end.

(** ** What an invocation is expected to do, as functions of its inputs *)

Section Expected.
Context {W : World}.

(** The DAG the loop body goes on with after its [if args.task_regex:]
    block, or [None] when the block raises. *)
Definition selection (args : Args) (dag : DAG) : option DAG :=
  if truthy (task_regex args) then
    let sub := partial_subset dag (default "" (task_regex args))
                 (negb (ignore_dependencies args)) in
    if bool_decide (tasks sub = []) then None else Some sub
  else Some dag.

Definition selection_events (args : Args) (dag : DAG) : list event :=
  if truthy (task_regex args)
  then [PartialSubset (dag_id dag) (default "" (task_regex args))
          (negb (ignore_dependencies args))]
  else [].

(** The workflows whose task selection succeeds, up to the first one whose
    selection is empty. *)
Fixpoint reached (args : Args) (dags : list DAG) : list DAG :=
  match dags with
  | [] => []
  | d :: ds =>
      match selection args d with
      | Some sub => sub :: reached args ds
      | None => []
      end
  end.

(** The arguments after the flag handling at the head of [dag_backfill]. *)
Definition cli_args (args : Args) : Args :=
  let a := set_ignore_first_depends_on_past args true in
  if negb (treat_dag_id_as_regex a) && treat_dag_as_regex a
  then set_treat_dag_id_as_regex a (treat_dag_as_regex a)
  else a.

(** The arguments the loop of [_run_dag_backfill] works with. *)
Definition loop_args (args : Args) : Args := default_dates (cli_args args).

Definition deprecation_warnings (args : Args) : list event :=
  (if ignore_first_depends_on_past args then [Warn ignore_first_warning] else [])
  ++ (if negb (treat_dag_id_as_regex args) && treat_dag_as_regex args
      then [Warn treat_dag_warning] else []).

(** The workflows an invocation targets, in the order it takes them. *)
Definition target_dags (args : Args) (dag : DagArg) : list DAG :=
  sort_by_dag_id
    (if not_dag dag
     then get_dags (subdir (cli_args args)) (arg_dag_id (cli_args args))
            (treat_dag_id_as_regex (cli_args args))
     else match dag with
          | DagList ds => ds
          | OneDag d => [d]
          | NoDag => []
          end).

(** Both bounds of the time window are absent. *)
Definition no_bounds (args : Args) : bool :=
  bool_decide (start_date args = None) && bool_decide (end_date args = None).

(** A [conf] payload was given and does not parse. *)
Definition conf_malformed (args : Args) : bool :=
  truthy (conf args)
  && match json_loads (default "" (conf args)) with
     | Some _ => false
     | None => true
     end.

(** The ConfigError of the specification: the error for a window without
    bounds, or a [conf] payload that does not parse. *)
Definition is_ConfigError {A} (r : res A) : Prop :=
  r = Raise (AirflowException no_dates_message)
  ∨ ∃ doc, r = Raise (JSONDecodeError doc).

(** The intervals of the targeted workflows in the order the enumerator
    delivers them for a direction, workflow after workflow. *)
Definition delivered_order (backwards : bool) (args : Args) (dags : list DAG)
    : list (string * Z) :=
  flat_map
    (λ sub, (λ i, (dag_id sub, logical_date i))
            <$> enumerate sub (start_date args) (end_date args) backwards)
    (reached args dags).

(** The lines a dry run of one workflow prints. *)
Definition dry_run_lines (args : Args) (sub : DAG) : list string :=
  dry_run_header args sub
  :: flat_map (λ _ : DagRunInfo, located_line sub <$> tasks sub)
       (iter_dagrun_infos_between sub (start_date args) (end_date args)).

(** The events of a dry run of one workflow. *)
Definition dry_run_events (args : Args) (sub : DAG) : list event :=
  Print (dry_run_header args sub)
  :: flat_map
       (λ i, NewDagRun (dag_id sub) (logical_date i) (data_interval i)
             :: flat_map (λ t, [Print (located_line sub t);
                                TaskDryRun (task_id t) (dag_id sub) (logical_date i)])
                  (tasks sub))
       (iter_dagrun_infos_between sub (start_date args) (end_date args)).

(** [R pre e] holds of every event [e] of the trace and the events [pre]
    before it. *)
Definition at_each_event (R : list event → event → Prop) (tr : list event)
    : Prop :=
  ∀ pre e post, tr = pre ++ e :: post → R pre e.

(** Every event [e] satisfying [Q] comes directly after an event related
    to it by [Rel]. *)
Definition directly_after (Rel : event → event → Prop) (Q : event → Prop)
    : list event → Prop :=
  at_each_event (λ pre e, Q e → ∃ pre' e', pre = pre' ++ [e'] ∧ Rel e' e).

(** [sub] is closed under the upstream relation of [dag]: no task of [sub]
    has a direct upstream task of [dag] outside [sub]. *)
Definition upstream_closed (dag sub : DAG) : Prop :=
  ∀ t u, t ∈ tasks sub → u ∈ upstream_task_ids t → u ∈ task_ids dag →
    u ∈ task_ids sub.

(** [u] is reachable from [t] along upstream edges of [dag]. *)
Inductive upstream_path (dag : DAG) : string → string → Prop :=
| upstream_here t : t ∈ task_ids dag → upstream_path dag t t
| upstream_next t task u :
    upstream_path dag t (task_id task) →
    task ∈ tasks dag → u ∈ upstream_task_ids task → u ∈ task_ids dag →
    upstream_path dag t u.

End Expected.

Section Shapes.
Context {W : World}.

(** The intervals [DAG.run] is to run for [sub], tagged with the workflow. *)
Definition run_plan (args : Args) (sub : DAG) : list (string * Z) :=
  (λ i, (dag_id sub, logical_date i))
  <$> enumerate sub (start_date args) (end_date args) (run_backwards args).

(** The events of the reset of one workflow. *)
Definition clear_events (args : Args) (sub : DAG) : list event :=
  if reset_dagruns args
  then [ClearDags [dag_id sub] (start_date args) (end_date args)
          (negb (yes args)) true QUEUED]
  else [].

(** What follows the call of [DAG.run] in the trace, and how the loop body
    ends: interval runs of [sub] in plan order, possibly cut short, and the
    message of a rejected call. *)
Definition run_tail (args : Args) (sub : DAG) (r : res ()) (rt : list event)
    : Prop :=
  Forall (λ e, (∃ ld, e = RunInterval (dag_id sub) ld (task_ids sub))
               ∨ ∃ m, e = Print m) rt
  ∧ processed_intervals rt `prefix_of` run_plan args sub
  ∧ (r = Ok () → processed_intervals rt = run_plan args sub)
  ∧ (r = Ok () ∨ r = Raise (SystemExit 1) ∨ r = Raise BackfillUnfinished).

End Shapes.

Section Events.
Context {W : World}.

(** The parsed payload handed to [DAG.run]. *)
Definition parsed_conf (args : Args) : option json :=
  if truthy (conf args) then json_loads (default "" (conf args)) else None.

(** The events the loop of [_run_dag_backfill] can produce when it works
    with arguments [a] and the parsed payload [rc], each with the
    conditions under which the code produces it. *)
Inductive emitted (a : Args) (rc : option json) : event → Prop :=
| emitted_warn m : emitted a rc (Warn m)
| emitted_log m : emitted a rc (LogInfo m)
| emitted_print m : emitted a rc (Print m)
| emitted_subset d :
    truthy (task_regex a) = true →
    emitted a rc (PartialSubset d (default "" (task_regex a))
                    (negb (ignore_dependencies a)))
| emitted_new_dag_run d ld iv :
    dry_run a = true → emitted a rc (NewDagRun d ld iv)
| emitted_task_dry_run t d ld :
    dry_run a = true → emitted a rc (TaskDryRun t d ld)
| emitted_clear d :
    dry_run a = false → reset_dagruns a = true →
    emitted a rc (ClearDags [d] (start_date a) (end_date a)
                    (negb (yes a)) true QUEUED)
| emitted_call d ts :
    dry_run a = false → emitted a rc (DagRunCall d ts (run_kwargs a rc))
| emitted_run_interval d ld ts :
    dry_run a = false → emitted a rc (RunInterval d ld ts).

End Events.

(** The keyword arguments of the calls of [DAG.run] in a trace, and the
    arguments of the calls of [partial_subset]. *)
Definition run_call_of (e : event) : option RunKwargs :=
  match e with
  | DagRunCall _ _ kw => Some kw
  | _ => None
  end.

Definition run_calls (tr : list event) : list RunKwargs := omap run_call_of tr.

Definition subset_call_of (e : event) : option (string * string * bool) :=
  match e with
  | PartialSubset d regex include_upstream => Some (d, regex, include_upstream)
  | _ => None
  end.

Definition subset_calls (tr : list event) : list (string * string * bool) :=
  omap subset_call_of tr.

(** The calls of [DAG.run] in a trace, each with the workflow and the tasks
    of the DAG it is made on. *)
Definition run_target_of (e : event)
    : option (string * list string * RunKwargs) :=
  match e with
  | DagRunCall d ts kw => Some (d, ts, kw)
  | _ => None
  end.

Definition run_targets (tr : list event)
    : list (string * list string * RunKwargs) :=
  omap run_target_of tr.

Section Requested.
Context {W : World}.

(** The list [dags] of [dag_backfill] as it is before [dags.sort]. *)
Definition requested_dags (args : Args) (dag : DagArg) : list DAG :=
  if not_dag dag
  then get_dags (subdir (cli_args args)) (arg_dag_id (cli_args args))
         (treat_dag_id_as_regex (cli_args args))
  else match dag with
       | DagList ds => ds
       | OneDag d => [d]
       | NoDag => []
       end.

(** The intervals a dry run of one workflow walks, each with the tasks it
    walks for it. *)
Definition dry_run_blocks (args : Args) (sub : DAG)
    : list (string * Z * list string) :=
  (λ i, (dag_id sub, logical_date i, task_ids sub))
  <$> iter_dagrun_infos_between sub (start_date args) (end_date args).

(** The call of [DAG.run] for the selection [sub]. *)
Definition run_target (args : Args) (run_conf : option json) (sub : DAG)
    : string * list string * RunKwargs :=
  (dag_id sub, task_ids sub, run_kwargs args run_conf).

End Requested.

(** ** Resets *)

Definition is_run_call (e : event) : Prop :=
  match e with
  | DagRunCall _ _ _ => True
  | _ => False
  end.

Definition is_reset (e : event) : Prop :=
  match e with
  | ClearDags _ _ _ _ _ _ => True
  | _ => False
  end.

(** [e'] is the reset of the workflow that the call [e] of [DAG.run] is
    for, over the window of [a] and asking for confirmation unless [yes]. *)
Definition reset_of (a : Args) (e' e : event) : Prop :=
  match e with
  | DagRunCall d _ _ =>
      e' = ClearDags [d] (start_date a) (end_date a) (negb (yes a)) true QUEUED
  | _ => False
  end.

(** [e'] is the task selection of the workflow that the reset [e] is for. *)
Definition selection_of (e' e : event) : Prop :=
  match e with
  | ClearDags [d] _ _ _ _ _ => ∃ regex up, e' = PartialSubset d regex up
  | _ => False
  end.

(** Before every interval touched, its workflow has been reset. *)
Definition reset_precedes_intervals : list event → Prop :=
  at_each_event (λ pre e,
    ∀ d ld, interval_of e = Some (d, ld) →
      ∃ sd ed cp, ClearDags [d] sd ed cp true QUEUED ∈ pre).

(** The order of [dags.sort(key=lambda d: d.dag_id)]. *)
Definition by_dag_id (x y : DAG) : Prop := String.le (dag_id x) (dag_id y).

(** ** Four sentences of the specification, as they are worded *)

Section AsWorded.
Context {W : World}.

(** The order as the specification words it: the intervals are processed
    in the order of the enumerator, descending whenever [run_backwards] is
    set, whatever the mode. *)
Definition processed_in_requested_direction (args : Args) (dag : DagArg)
    (s : Store) : Prop :=
  processed_intervals (trace_of (dag_backfill args dag s))
  `prefix_of` delivered_order (run_backwards args) (loop_args args)
                (target_dags args dag).

(** The reset as the specification words it: whenever it is requested it
    is performed before the intervals are processed, whatever the mode. *)
Definition reset_whenever_requested (args : Args) (dag : DagArg) (s : Store)
    : Prop :=
  reset_dagruns args = true →
  reset_precedes_intervals (trace_of (dag_backfill args dag s)).

(** The empty selection as the specification words it: when the pattern
    selects no task of some targeted workflow, the invocation ends with the
    error and no interval of any workflow has been touched. *)
Definition aborts_before_any_interval (args : Args) (dag : DagArg) (s : Store)
    : Prop :=
  (∃ d, d ∈ target_dags args dag ∧ selection (loop_args args) d = None) →
  result_of (dag_backfill args dag s)
  = Raise (AirflowException (no_tasks_message (default "" (task_regex args))))
  ∧ processed_intervals (trace_of (dag_backfill args dag s)) = []
  ∧ store_of (dag_backfill args dag s) = s.

(** The output of a dry run as the specification words it: after the
    header of a workflow, one line per interval and task, and the line tells
    in which interval's run the task is located, so that lines for
    different intervals differ. *)
Definition lines_name_their_run (args : Args) (dag : DagArg) (s : Store)
    : Prop :=
  ∃ (header : DAG → string) (line_of : DAG → DagRunInfo → Task → string),
    (∀ sub i i' t t',
       line_of sub i t = line_of sub i' t' → logical_date i = logical_date i')
    ∧ printed (trace_of (dag_backfill args dag s))
      = flat_map
          (λ sub, header sub
                  :: flat_map (λ i, line_of sub i <$> tasks sub)
                       (iter_dagrun_infos_between sub
                          (start_date (loop_args args))
                          (end_date (loop_args args))))
          (reached (loop_args args) (target_dags args dag)).

End AsWorded.

(** ** A small world to run the functions in

    One run per day, patterns that match the identifier equal to them, a
    payload parser that knows the empty object, runs that always succeed and
    are recorded in a list. *)

Module Demo.

Definition store := list (string * Z * DagRunState).

Definition daily (dag : DAG) (earliest latest : option Z) : list DagRunInfo :=
  match earliest, latest with
  | Some a, Some b => (λ d, mkDagRunInfo d (d, d + 1)%Z) <$> seqZ a (b - a + 1)
  | _, _ => []
  end.

Definition requeue (dags : list DAG) (r : string * Z * DagRunState)
    : string * Z * DagRunState :=
  if bool_decide (r.1.1 ∈ dag_id <$> dags) then (r.1.1, r.1.2, QUEUED) else r.

Definition world : World := {|
  Store := store;
  json_loads := λ doc, if String.eqb doc "{}" then Some [] else None;
  re_match := String.eqb;
  str_date := λ o, match o with Some z => pretty z | None => "None" end;
  iter_dagrun_infos_between := daily;
  get_dags := λ _ _ _, [];
  core_donot_pickle := false;
  clear_dags_effect := λ dags _ _ _ s, requeue dags <$> s;
  run_rejects := λ _ _, None;
  execute_run := λ dag info _ _ s,
    (s ++ [(dag_id dag, logical_date info, SUCCESS)], RunSucceeded);
|}.

Definition etl : DAG :=
  mkDAG "etl" [mkTask "t0" []; mkTask "t1" ["t0"]; mkTask "t2" ["t1"]].

Definition report : DAG :=
  mkDAG "report" [mkTask "load" []; mkTask "render" ["load"]].

(** A backfill of the days 1 and 2 with the given values of [dry_run],
    [run_backwards], [reset_dagruns] and [task_regex]; every other flag is
    off, and the caller leaves [ignore_first_depends_on_past] off too. *)
Definition with_flags (dr rb rs : bool) (re : option string) : Args :=
  {| subdir := None; arg_dag_id := "etl";
     treat_dag_id_as_regex := false; treat_dag_as_regex := false;
     start_date := Some 1%Z; end_date := Some 2%Z;
     conf := None; task_regex := re;
     ignore_dependencies := false; dry_run := dr;
     reset_dagruns := rs; yes := false;
     mark_success := false; local := false; donot_pickle := false;
     ignore_first_depends_on_past := false;
     pool := None; delay_on_limit := 1%Z;
     verbose := false; rerun_failed_tasks := false;
     run_backwards := rb; continue_on_failures := false;
     disable_retry := false |}.

(** A real run asked for with the given window and [conf] payload. *)
Definition with_window (sd ed : option Z) (payload : option string) : Args :=
  {| subdir := None; arg_dag_id := "etl";
     treat_dag_id_as_regex := false; treat_dag_as_regex := false;
     start_date := sd; end_date := ed;
     conf := payload; task_regex := None;
     ignore_dependencies := false; dry_run := false;
     reset_dagruns := false; yes := false;
     mark_success := false; local := false; donot_pickle := false;
     ignore_first_depends_on_past := true;
     pool := None; delay_on_limit := 1%Z;
     verbose := false; rerun_failed_tasks := false;
     run_backwards := false; continue_on_failures := false;
     disable_retry := false |}.

End Demo.


(** * The other commands of [dag_command.py]

    The commands that show, test, pause and list DAGs.  They print to the
    terminal, ask the user, read and change the metadata database and start
    helper programs; the decorators around them ([action_cli],
    [provide_session] and the like) are left out. *)

(** A graph in DOT form: [dot.source]. *)
Record Dot := mkDot { dot_source : string }.

(** The rows of [AirflowConsole().print_as]: a dictionary per row. *)
Inductive cell :=
| CStr (s : string)
| CBool (b : bool)
| CNone.

Definition row := list (string * cell).

(** A row of the [dag] table. *)
Record DagModel := mkDagModel { dm_dag_id : string }.

(** A row of the [dag_run] table. *)
Record DagRunRow := mkDagRunRow {
  dr_dag_id : string;
  dr_run_id : string;
  dr_state : option string;
  dr_conf : option json;
  dr_execution_date : Z;
  dr_start_date : option Z;
  dr_end_date : option Z;
}.

(** A task instance, as far as the graph rendering looks at it. *)
Record TaskInstanceRow := mkTaskInstanceRow {
  ti_task_id : string;
  ti_state : option string;
}.

(** The exceptions of these commands: those of the backfill, a
    [SystemExit] with a message, and two the helper programs can raise. *)
Inductive cli_exn :=
| Base (e : exn)
| SystemExitMessage (msg : string)
| OSError (errno : Z) (strerror : string)
| UnicodeDecodeError
| NoResultFound.

Inductive cli_event :=
| Out (line : string)
| ErrOut (line : string)
| AskYesNo (question : string)
| Render (dot : Dot) (filename format : string) (cleanup : bool)
| Imgcat (data : string)
| PrintAs (data : list row) (output : string)
| SetIsPaused (dag : string) (is_paused : bool)
| DagTest (dag : string) (execution_date : Z) (run_conf : option json).

Inductive outcome (A : Type) :=
| Done (a : A)
| Raised (e : cli_exn).
Arguments Done {A} a.
Arguments Raised {A} e.

(** What comes of starting [imgcat] and sending it the picture: its output
    and error output, or an [OSError]. *)
Inductive imgcat_result :=
| ImgcatDone (out err : string)
| ImgcatOSError (errno : Z) (strerror : string).

(** [errno.ENOENT] *)
Definition ENOENT : Z := 2.

(** Everything these commands call and that lives outside the file.  Each
    call is taken to return; the failures the commands themselves react to
    are part of the results: the [ValueError] of [json.loads], the
    [OSError] of [imgcat], a failed decode, a missing row. *)
Class Env := {
  (** the metadata database *)
  Db : Type;
  (** [get_dag(subdir, dag_id)] and [get_dags(subdir, dag_id, use_regex)] *)
  env_get_dag : option string → string → DAG;
  env_get_dags : option string → string → bool → list DAG;
  (** [render_dag(dag, tis=...)] *)
  render_dag : DAG → option (list TaskInstanceRow) → Dot;
  (** [render_dag_dependencies(SerializedDagModel.get_dag_dependencies())] *)
  dag_dependencies_dot : Db → Dot;
  (** [dot.pipe(format=...)] *)
  dot_pipe : Dot → string → string;
  (** [subprocess.Popen("imgcat", ...)] and [proc.communicate(data)] *)
  imgcat : string → imgcat_result;
  (** [bytes.decode("utf-8")]; [None] stands for a [UnicodeDecodeError] *)
  utf8_decode : string → option string;
  (** [json.loads]: the value, or the text of the [ValueError] *)
  env_json_loads : string → json + string;
  (** [json.dumps] and [repr] of a string *)
  json_dumps : json → string;
  py_repr : string → string;
  (** [str.lower] *)
  str_lower : string → string;
  (** [timezone.utcnow()] and [datetime.isoformat()] *)
  utcnow : Z;
  isoformat : Z → string;
  (** [dag.test(execution_date=..., run_conf=...)]: the new database and
      the state of the run it returns, if it returns one *)
  dag_test_run : DAG → Z → option json → Db → Db * option DagRunState;
  (** the task instances of a DAG identifier and a date *)
  select_task_instances : Db → string → Z → list TaskInstanceRow;
  (** [DagModel.get_dagmodel(dag_id)] *)
  get_dagmodel : Db → string → option DagModel;
  (** the run of a DAG identifier and a date *)
  select_dag_run : Db → string → Z → option DagRunRow;
  (** [DagRun.find(dag_id, state, no_backfills, execution_start_date,
      execution_end_date)] *)
  dag_run_find :
    Db → string → option string → bool → option Z → option Z → list DagRunRow;
  (** [dag.get_is_paused()] of a DAG and of a row of the [dag] table *)
  dag_get_is_paused : Db → DAG → option bool;
  model_get_is_paused : Db → DagModel → option bool;
  (** the effect of [dag_model.set_is_paused(is_paused=...)] *)
  set_is_paused_effect : DagModel → bool → Db → Db;
  (** [ask_yesno(question)] *)
  ask_yesno : string → bool;
  (** [dag.get_next_data_interval(dag_model)] and
      [dag.next_dagrun_info(interval, restricted=False)] *)
  get_next_data_interval : DAG → DagModel → option (Z * Z);
  next_dagrun_info : DAG → option (Z * Z) → option DagRunInfo;
  (** [DagBag(process_subdir(subdir)).import_errors.items()] *)
  import_errors : option string → list (string * string);
}.

Section Effects.
Context {E : Env}.

Definition Eff (A : Type) : Type := Db → outcome A * Db * list cli_event.

#[global] Instance eff_ret : MRet Eff := λ A a db, (Done a, db, []).

#[global] Instance eff_bind : MBind Eff := λ A B f m db,
  match m db with
  | (Done a, db1, t1) =>
      match f a db1 with
      | (r, db2, t2) => (r, db2, t1 ++ t2)
      end
  | (Raised e, db1, t1) => (Raised e, db1, t1)
  end.

Definition throw {A} (e : cli_exn) : Eff A := λ db, (Raised e, db, []).

Definition tell (e : cli_event) : Eff () := λ db, (Done (), db, [e]).

(** [print(line)] and [print(line, file=sys.stderr)] *)
Definition print (line : string) : Eff () := tell (Out line).
Definition eprint (line : string) : Eff () := tell (ErrOut line).

Definition query {A} (f : Db → A) : Eff A := λ db, (Done (f db), db, []).

Definition update (f : Db → Db) : Eff () := λ db, (Done (), f db, []).

Definition if_ (b : bool) (m : Eff ()) : Eff () := if b then m else mret ().

Fixpoint each {A} (l : list A) (body : A → Eff ()) : Eff () :=
  match l with
  | [] => mret ()
  | x :: l' => body x ;; each l' body
  end.

Definition outcome_of {A} (x : outcome A * Db * list cli_event) : outcome A
  := x.1.1.
Definition db_of {A} (x : outcome A * Db * list cli_event) : Db := x.1.2.
Definition events_of {A} (x : outcome A * Db * list cli_event) : list cli_event
  := x.2.

End Effects.

(** The status the process ends with: [SystemExit] with a message and any
    uncaught exception give 1. *)
Definition cli_exit_status {A} (r : outcome A) : Z :=
  match r with
  | Done _ => 0
  | Raised (Base e) => exit_status (A:=A) (Raise e)
  | Raised _ => 1
  end.

(** ** Saving and showing a graph *)

(** [s.rpartition(sep)] for a separator of one character: the part before
    the last [sep], the separator, the part after it; two empty strings and
    [s] when there is none. *)
Fixpoint rpartition (sep : Ascii.ascii) (s : string) : string * string * string :=
  match s with
  | EmptyString => ("", "", "")
  | String c s' =>
      match rpartition sep s' with
      | (before, String _ _ as found, after) => (String c before, found, after)
      | (_, EmptyString, _) =>
          if Ascii.eqb c sep
          then ("", String sep "", s')
          else ("", "", s)
      end
  end.

(** The character [.] (code 46). *)
Definition dot_char : Ascii.ascii := Eval cbv in Ascii.ascii_of_nat 46.

Definition exclusive_message : string :=
  "Option --save and --imgcat are mutually exclusive. "
  +:+ "Please remove one option to execute the command.".

Definition imgcat_missing_message : string :=
  "Failed to execute. Make sure the imgcat executables are on your systems 'PATH'".

(** Python truthiness of [bytes] and [str]. *)
Definition nonempty (s : string) : bool :=
  match s with
  | EmptyString => false
  | String _ _ => true
  end.

Section Graphs.
Context {E : Env}.

Definition _save_dot_to_file (dot : Dot) (filename : string) : Eff () :=
  let '(filename_without_ext, _, ext) := rpartition dot_char filename in
  tell (Render dot filename_without_ext ext true) ;;
  print ("File " +:+ filename +:+ " saved").

(** [print(data.decode("utf-8"))] *)
Definition print_decoded (data : string) : Eff () :=
  match utf8_decode data with
  | Some text => print text
  | None => throw UnicodeDecodeError
  end.

Definition _display_dot_via_imgcat (dot : Dot) : Eff () :=
  let data := dot_pipe dot "png" in
  match imgcat data with
  | ImgcatDone out err =>
      tell (Imgcat data) ;;
      if_ (nonempty out) (print_decoded out) ;;
      if_ (nonempty err) (print_decoded err)
  | ImgcatOSError errno strerror =>
      if bool_decide (errno = ENOENT)
      then throw (SystemExitMessage imgcat_missing_message)
      else throw (OSError errno strerror)
  end.

Record ShowArgs := mkShowArgs {
  show_subdir : option string;
  show_dag_id : string;
  show_save : option string;
  show_imgcat : bool;
}.

Definition dag_dependencies_show (args : ShowArgs) : Eff () :=
  dot ← query dag_dependencies_dot;
  let filename := show_save args in
  let imgcat := show_imgcat args in
  if truthy filename && imgcat then throw (SystemExitMessage exclusive_message)
  else if truthy filename then _save_dot_to_file dot (default "" filename)
  else if imgcat then _display_dot_via_imgcat dot
  else print (dot_source dot).

Definition dag_show (args : ShowArgs) : Eff () :=
  let dag := env_get_dag (show_subdir args) (show_dag_id args) in
  let dot := render_dag dag None in
  let filename := show_save args in
  let imgcat := show_imgcat args in
  if truthy filename && imgcat then throw (SystemExitMessage exclusive_message)
  else if truthy filename then _save_dot_to_file dot (default "" filename)
  else if imgcat then _display_dot_via_imgcat dot
  else print (dot_source dot).

(** ** [dag_test] *)

Record TestArgs := mkTestArgs {
  test_subdir : option string;
  test_dag_id : string;
  test_conf : option string;
  test_execution_date : option Z;
  test_show_dagrun : bool;
  test_imgcat_dagrun : bool;
  test_save_dagrun : option string;
}.

Definition invalid_conf_message (payload error : string) : string :=
  "Configuration " +:+ py_repr payload +:+ " is not valid JSON. Error: "
  +:+ error.

Definition call_dag_test (dag : DAG) (execution_date : Z)
    (run_conf : option json) : Eff (option DagRunState) := λ db,
  match dag_test_run dag execution_date run_conf db with
  | (db', dr) => (Done dr, db', [DagTest (dag_id dag) execution_date run_conf])
  end.

Definition dag_test (args : TestArgs) (dag : option DAG) : Eff () :=
  run_conf ←
    (if truthy (test_conf args) then
       match env_json_loads (default "" (test_conf args)) with
       | inl v => mret (Some v)
       | inr e =>
           throw (SystemExitMessage
                    (invalid_conf_message (default "" (test_conf args)) e))
       end
     else mret None);
  let execution_date := default utcnow (test_execution_date args) in
  let dag := default (env_get_dag (test_subdir args) (test_dag_id args)) dag in
  dr ← call_dag_test dag execution_date run_conf;
  let show_dagrun := test_show_dagrun args in
  let imgcat := test_imgcat_dagrun args in
  let filename := test_save_dagrun args in
  (if show_dagrun || imgcat || truthy filename then
     tis ← query (λ db, select_task_instances db (test_dag_id args)
                          execution_date);
     let dot_graph := render_dag dag (Some tis) in
     print "" ;;
     if_ (truthy filename) (_save_dot_to_file dot_graph (default "" filename)) ;;
     if_ imgcat (_display_dot_via_imgcat dot_graph) ;;
     if_ show_dagrun (print (dot_source dot_graph))
   else mret ()) ;;
  match dr with
  | Some FAILED => throw (SystemExitMessage "DagRun failed")
  | _ => mret ()
  end.

End Graphs.

(** ** [dag_state] and [dag_next_execution] *)

(** [str(out)] of an optional string. *)
Definition str_of_option (o : option string) : string := default "None" o.

(** Python truthiness of an optional dictionary. *)
Definition conf_truthy (c : option json) : bool :=
  match c with
  | Some (_ :: _) => true
  | _ => false
  end.

Definition no_such_dag_message (dag_id : string) : string :=
  "DAG: " +:+ dag_id +:+ " does not exist in 'dag' table".

Definition no_schedule_warning : string :=
  "[WARN] No following schedule can be found. "
  +:+ "This DAG may have schedule interval '@once' or `None`.".

Definition paused_reminder : string :=
  "[INFO] Please be reminded this DAG is PAUSED now.".

Section States.
Context {E : Env}.

Definition dag_state (args_dag_id : string) (args_execution_date : Z) : Eff () :=
  dag ← query (λ db, get_dagmodel db args_dag_id);
  match dag with
  | None => throw (SystemExitMessage (no_such_dag_message args_dag_id))
  | Some _ =>
      dr ← query (λ db, select_dag_run db args_dag_id args_execution_date);
      let out := dr ≫= dr_state in
      let conf_out :=
        match dr with
        | Some r =>
            if truthy out && conf_truthy (dr_conf r)
            then ", " +:+ json_dumps (default [] (dr_conf r))
            else ""
        | None => ""
        end in
      print (str_of_option out +:+ conf_out)
  end.

Record NextArgs := mkNextArgs {
  next_subdir : option string;
  next_dag_id : string;
  next_num_executions : Z;
}.

Definition print_execution_interval (interval : option (Z * Z)) : Eff () :=
  match interval with
  | None => eprint no_schedule_warning ;; print "None"
  | Some iv => print (isoformat iv.1)
  end.

(** The body of [for _ in range(1, args.num_executions):], [n] times. *)
Fixpoint more_executions (n : nat) (dag : DAG) (next_interval : option (Z * Z))
    : Eff () :=
  match n with
  | O => mret ()
  | S n' =>
      let next_info := next_dagrun_info dag next_interval in
      let next_interval := data_interval <$> next_info in
      print_execution_interval next_interval ;;
      more_executions n' dag next_interval
  end.

Definition dag_next_execution (args : NextArgs) : Eff () :=
  let dag := env_get_dag (next_subdir args) (next_dag_id args) in
  found ← query (λ db, get_dagmodel db (dag_id dag));
  match found with
  | None => throw NoResultFound
  | Some last_parsed_dag =>
      paused ← query (λ db, model_get_is_paused db last_parsed_dag);
      if_ (bool_decide (paused = Some true)) (eprint paused_reminder) ;;
      let next_interval := get_next_data_interval dag last_parsed_dag in
      print_execution_interval next_interval ;;
      more_executions (Z.to_nat (next_num_executions args - 1)) dag next_interval
  end.

End States.

(** ** Listing import errors and runs *)

Record RunsArgs := mkRunsArgs {
  runs_dag_id : string;
  runs_state : option string;
  runs_no_backfill : bool;
  runs_start_date : option Z;
  runs_end_date : option Z;
  runs_output : string;
}.

(** [dag_runs.sort(key=lambda x: x.execution_date, reverse=True)]: a stable
    sort, latest first; runs of the same date keep their order. *)
Fixpoint insert_by_date_desc (x : DagRunRow) (l : list DagRunRow)
    : list DagRunRow :=
  match l with
  | [] => [x]
  | y :: l' =>
      if (dr_execution_date y <=? dr_execution_date x)%Z
      then x :: l
      else y :: insert_by_date_desc x l'
  end.

Definition sort_by_date_desc (l : list DagRunRow) : list DagRunRow :=
  foldr insert_by_date_desc [] l.

Definition cell_of_option (o : option string) : cell :=
  match o with
  | Some s => CStr s
  | None => CNone
  end.

Section Lists.
Context {E : Env}.

Definition dag_list_import_errors (subdir : option string) (output : string)
    : Eff () :=
  let data :=
    (λ item : string * string,
       [("filepath", CStr item.1); ("error", CStr item.2)])
    <$> import_errors subdir in
  tell (PrintAs data output) ;;
  if bool_decide (data = []) then mret () else throw (Base (SystemExit 1)).

(** The [mapper] of [dag_list_dag_runs]. *)
Definition dag_run_row (dr : DagRunRow) : row :=
  [("dag_id", CStr (dr_dag_id dr));
   ("run_id", CStr (dr_run_id dr));
   ("state", cell_of_option (dr_state dr));
   ("execution_date", CStr (isoformat (dr_execution_date dr)));
   ("start_date", CStr (default "" (isoformat <$> dr_start_date dr)));
   ("end_date", CStr (default "" (isoformat <$> dr_end_date dr)))].

Definition dag_list_dag_runs (args : RunsArgs) (dag : option DAG) : Eff () :=
  args_dag_id ←
    match dag with
    | Some d => mret (dag_id d)
    | None =>
        found ← query (λ db, get_dagmodel db (runs_dag_id args));
        match found with
        | None =>
            throw (SystemExitMessage (no_such_dag_message (runs_dag_id args)))
        | Some _ => mret (runs_dag_id args)
        end
    end;
  let state :=
    if truthy (runs_state args)
    then Some (str_lower (default "" (runs_state args)))
    else None in
  dag_runs ← query (λ db, dag_run_find db args_dag_id state
                            (runs_no_backfill args) (runs_start_date args)
                            (runs_end_date args));
  let dag_runs := sort_by_date_desc dag_runs in
  tell (PrintAs (dag_run_row <$> dag_runs) (runs_output args)).

End Lists.

(** ** Pausing and unpausing *)

Record PauseArgs := mkPauseArgs {
  pause_subdir : option string;
  pause_dag_id : string;
  pause_treat_dag_id_as_regex : bool;
  pause_yes : bool;
  pause_output : string;
}.

(** A line feed (code 10). *)
Definition nl : string := Eval cbv in String (Ascii.ascii_of_nat 10) "".

Definition none_found_message (is_paused : bool) : string :=
  "No " +:+ (if is_paused then "un" else "") +:+ "paused DAGs were found".

Definition pause_question (is_paused : bool) (dags_ids : list string) : string :=
  "You are about to " +:+ (if negb is_paused then "un" else "") +:+ "pause "
  +:+ pretty (length dags_ids) +:+ " DAGs:" +:+ nl
  +:+ String.concat "," dags_ids
  +:+ nl +:+ nl +:+ "Are you sure? [y/n]".

Definition cell_of_bool (o : option bool) : cell :=
  match o with
  | Some b => CBool b
  | None => CNone
  end.

Section Pausing.
Context {E : Env}.

Definition call_ask_yesno (question : string) : Eff bool :=
  tell (AskYesNo question) ;; mret (ask_yesno question).

Definition call_set_is_paused (dag_model : DagModel) (is_paused : bool)
    : Eff () :=
  tell (SetIsPaused (dm_dag_id dag_model) is_paused) ;;
  update (set_is_paused_effect dag_model is_paused).

Definition set_is_paused (is_paused : bool) (args : PauseArgs) : Eff () :=
  dags ← query (λ db,
            filter (λ dag, Some is_paused ≠ dag_get_is_paused db dag)
              (env_get_dags (pause_subdir args) (pause_dag_id args)
                 (pause_treat_dag_id_as_regex args)));
  if bool_decide (dags = []) then print (none_found_message is_paused)
  else
    should_apply ←
      (if negb (pause_yes args) && pause_treat_dag_id_as_regex args
       then call_ask_yesno (pause_question is_paused (dag_id <$> dags))
       else mret true);
    if should_apply : bool then
      dags_models ← query (λ db, (λ dag, get_dagmodel db (dag_id dag)) <$> dags);
      each dags_models (λ dag_model,
        match dag_model with
        | Some m => call_set_is_paused m is_paused
        | None => mret ()
        end) ;;
      data ← query (λ db,
                omap (λ dag_model,
                        (λ m, [("dag_id", CStr (dm_dag_id m));
                               ("is_paused",
                                cell_of_bool (model_get_is_paused db m))])
                        <$> dag_model) dags_models);
      tell (PrintAs data (pause_output args))
    else print "Operation cancelled by user".

Definition dag_pause (args : PauseArgs) : Eff () := set_is_paused true args.

Definition dag_unpause (args : PauseArgs) : Eff () := set_is_paused false args.

End Pausing.

(** ** Reading what a command did *)

Definition stdout_line (e : cli_event) : option string :=
  match e with
  | Out l => Some l
  | _ => None
  end.

Definition stderr_line (e : cli_event) : option string :=
  match e with
  | ErrOut l => Some l
  | _ => None
  end.

Definition stdout (tr : list cli_event) : list string := omap stdout_line tr.
Definition stderr (tr : list cli_event) : list string := omap stderr_line tr.

Definition is_render (e : cli_event) : bool :=
  match e with
  | Render _ _ _ _ => true
  | _ => false
  end.

Definition is_imgcat (e : cli_event) : bool :=
  match e with
  | Imgcat _ => true
  | _ => false
  end.

Definition paused_call (e : cli_event) : option (string * bool) :=
  match e with
  | SetIsPaused d b => Some (d, b)
  | _ => None
  end.

Definition paused_calls (tr : list cli_event) : list (string * bool) :=
  omap paused_call tr.

Definition is_question (e : cli_event) : bool :=
  match e with
  | AskYesNo _ => true
  | _ => false
  end.

(** [c] occurs in [s]. *)
Fixpoint has_char (c : Ascii.ascii) (s : string) : bool :=
  match s with
  | EmptyString => false
  | String c' s' => Ascii.eqb c' c || has_char c s'
  end.

(** ** Small environments to run the commands in

    The database holds the paused flag of each DAG.  In [env], [imgcat] is
    not installed and the user answers no; [env_with] lets both vary. *)

Module DemoCli.

Definition paused_in (db : list (string * bool)) (dag_id : string)
    : option bool :=
  (λ found : nat * (string * bool), found.2.2)
  <$> list_find (λ p, p.1 = dag_id) db.

Definition set_paused (dag_id : string) (b : bool)
    (db : list (string * bool)) : list (string * bool) :=
  (λ p : string * bool, if bool_decide (p.1 = dag_id) then (p.1, b) else p)
  <$> db.

Definition env_with (picture : imgcat_result) (answer : bool) : Env := {|
  Db := list (string * bool);
  env_get_dag := λ _ dag_id, mkDAG dag_id [];
  env_get_dags := λ _ _ _, [Demo.etl; Demo.report];
  render_dag := λ dag _, mkDot ("digraph " +:+ dag_id dag);
  dag_dependencies_dot := λ _, mkDot "digraph dependencies";
  dot_pipe := λ dot _, dot_source dot;
  imgcat := λ _, picture;
  utf8_decode := Some;
  env_json_loads := λ doc, if String.eqb doc "{}" then inl [] else inr "bad";
  json_dumps := λ _, "{}";
  py_repr := λ s, "'" +:+ s +:+ "'";
  str_lower := λ s, s;
  utcnow := 0;
  isoformat := pretty;
  dag_test_run := λ _ _ _ db, (db, Some FAILED);
  select_task_instances := λ _ _ _, [];
  get_dagmodel := λ db dag_id,
    if bool_decide (dag_id ∈ db.*1) then Some (mkDagModel dag_id) else None;
  select_dag_run := λ _ dag_id date,
    if bool_decide (date = 1%Z)
    then Some (mkDagRunRow dag_id "r1" (Some "failed") (Some [("k", "v")])
                 1 None None)
    else if bool_decide (date = 2%Z)
    then Some (mkDagRunRow dag_id "r2" None (Some [("k", "v")]) 2 None None)
    else None;
  dag_run_find := λ _ dag_id _ _ _ _,
    [mkDagRunRow dag_id "r1" (Some "success") None 1 None None;
     mkDagRunRow dag_id "r3" (Some "failed") None 3 None None;
     mkDagRunRow dag_id "r2" (Some "running") None 2 None None];
  dag_get_is_paused := λ db dag, paused_in db (dag_id dag);
  model_get_is_paused := λ db m, paused_in db (dm_dag_id m);
  set_is_paused_effect := λ m b db, set_paused (dm_dag_id m) b db;
  ask_yesno := λ _, answer;
  get_next_data_interval := λ _ _, Some (1, 2)%Z;
  next_dagrun_info := λ _ iv,
    match iv with
    | Some (a, b) =>
        if (b <? 3)%Z then Some (mkDagRunInfo b (b, b + 1)%Z) else None
    | None => None
    end;
  import_errors := λ _, [("dags/broken.py", "SyntaxError")];
|}.

Definition env : Env :=
  env_with (ImgcatOSError ENOENT "No such file or directory") false.

(** [imgcat] is installed and writes one line. *)
Definition env_imgcat : Env := env_with (ImgcatDone "shown" "") false.

(** Both DAGs known, [etl] paused and [report] not. *)
Definition db : list (string * bool) := [("etl", true); ("report", false)].

Definition show_args (save : option string) (picture : bool) : ShowArgs :=
  {| show_subdir := None; show_dag_id := "etl"; show_save := save;
     show_imgcat := picture |}.

Definition test_args (payload : option string) (show picture : bool)
    (save : option string) : TestArgs :=
  {| test_subdir := None; test_dag_id := "etl"; test_conf := payload;
     test_execution_date := Some 1%Z; test_show_dagrun := show;
     test_imgcat_dagrun := picture; test_save_dagrun := save |}.

Definition next_args (n : Z) : NextArgs :=
  {| next_subdir := None; next_dag_id := "etl"; next_num_executions := n |}.

Definition pause_args (regex yes : bool) : PauseArgs :=
  {| pause_subdir := None; pause_dag_id := "etl";
     pause_treat_dag_id_as_regex := regex; pause_yes := yes;
     pause_output := "table" |}.

Definition runs_args : RunsArgs :=
  {| runs_dag_id := "etl"; runs_state := None; runs_no_backfill := false;
     runs_start_date := None; runs_end_date := None; runs_output := "table" |}.


(** The run of [dag] for the day [ld] is recorded as a success. *)
Definition succeeded (s : Demo.store) (dag : string) (ld : Z) : bool :=
  existsb (λ r : string * Z * DagRunState,
             String.eqb r.1.1 dag && Z.eqb r.1.2 ld
             && match r.2 with SUCCESS => true | _ => false end) s.

(** A real run of the days 1 and 2 with the pattern [t2] and the given
    value of [ignore_dependencies]. *)
Definition with_deps_flag (ign : bool) : Args :=
  {| subdir := None; arg_dag_id := "etl";
     treat_dag_id_as_regex := false; treat_dag_as_regex := false;
     start_date := Some 1%Z; end_date := Some 2%Z;
     conf := None; task_regex := Some "t2";
     ignore_dependencies := ign; dry_run := false;
     reset_dagruns := false; yes := false;
     mark_success := false; local := false; donot_pickle := false;
     ignore_first_depends_on_past := false;
     pool := None; delay_on_limit := 1%Z;
     verbose := false; rerun_failed_tasks := false;
     run_backwards := false; continue_on_failures := false;
     disable_retry := false |}.

(** A world of the backfill in which every task depends on the past: where
    the precondition is enforced, the run of a day fails unless the run of
    the day before is recorded as a success. *)
Definition past_world : World := {|
  Store := Demo.store;
  json_loads := λ doc, if String.eqb doc "{}" then Some [] else None;
  re_match := String.eqb;
  str_date := λ o, match o with Some z => pretty z | None => "None" end;
  iter_dagrun_infos_between := Demo.daily;
  get_dags := λ _ _ _, [];
  core_donot_pickle := false;
  clear_dags_effect := λ dags _ _ _ s, Demo.requeue dags <$> s;
  run_rejects := λ _ _, None;
  execute_run := λ dag info _ enforced s,
    if enforced && negb (succeeded s (dag_id dag) (logical_date info - 1))
    then (s, RunFailed)
    else (s ++ [(dag_id dag, logical_date info, SUCCESS)], RunSucceeded);
|}.

End DemoCli.

(** ** What [dag_test] is expected to do *)

Section TestExpected.
Context {E : Env}.

(** The payload [dag_test] hands to [dag.test], or the text of the error
    of [json.loads]. *)
Definition test_conf_parsed (args : TestArgs) : option json + string :=
  if truthy (test_conf args) then
    match env_json_loads (default "" (test_conf args)) with
    | inl v => inl (Some v)
    | inr e => inr e
    end
  else inl None.

Definition test_date (args : TestArgs) : Z :=
  default utcnow (test_execution_date args).

Definition test_dag (args : TestArgs) (dag : option DAG) : DAG :=
  default (env_get_dag (test_subdir args) (test_dag_id args)) dag.

(** The graph of the run, drawn from the task instances found after it. *)
Definition test_graph (args : TestArgs) (dag : option DAG) (db : Db) : Dot :=
  render_dag (test_dag args dag)
    (Some (select_task_instances db (test_dag_id args) (test_date args))).

(** [imgcat] runs and what it writes can be decoded. *)
Definition display_ok (dot : Dot) : Prop :=
  ∃ out err,
    imgcat (dot_pipe dot "png") = ImgcatDone out err
    ∧ (out = "" ∨ is_Some (utf8_decode out))
    ∧ (err = "" ∨ is_Some (utf8_decode err)).

Definition decoded_line (data : string) : list cli_event :=
  if nonempty data then Out (default "" (utf8_decode data)) :: [] else [].

(** The events of a successful [_display_dot_via_imgcat]. *)
Definition imgcat_events (dot : Dot) : list cli_event :=
  match imgcat (dot_pipe dot "png") with
  | ImgcatDone out err =>
      Imgcat (dot_pipe dot "png") :: decoded_line out ++ decoded_line err
  | ImgcatOSError _ _ => []
  end.

(** The events of [_save_dot_to_file]. *)
Definition save_events (dot : Dot) (filename : string) : list cli_event :=
  [Render dot (rpartition dot_char filename).1.1 (rpartition dot_char filename).2
     true;
   Out ("File " +:+ filename +:+ " saved")].

(** The graph output of [dag_test], in the order of the code. *)
Definition test_graph_events (args : TestArgs) (dot : Dot) : list cli_event :=
  if test_show_dagrun args || test_imgcat_dagrun args
     || truthy (test_save_dagrun args)
  then
    Out ""
    :: (if truthy (test_save_dagrun args)
        then save_events dot (default "" (test_save_dagrun args)) else [])
    ++ (if test_imgcat_dagrun args then imgcat_events dot else [])
    ++ (if test_show_dagrun args then [Out (dot_source dot)] else [])
  else [].

(** How [dag_test] ends once the graph has been put out. *)
Definition test_verdict (dr : option DagRunState) : outcome () :=
  match dr with
  | Some FAILED => Raised (SystemExitMessage "DagRun failed")
  | _ => Done ()
  end.

End TestExpected.

(** ** What [dag_next_execution] is expected to print *)

Section NextExpected.
Context {E : Env}.

(** The intervals met by [n] rounds of the loop, starting after [interval]. *)
Fixpoint next_intervals (n : nat) (dag : DAG) (interval : option (Z * Z))
    : list (option (Z * Z)) :=
  match n with
  | O => []
  | S n' =>
      let next := data_interval <$> next_dagrun_info dag interval in
      next :: next_intervals n' dag next
  end.

(** All the intervals the command reports for [num_executions]. *)
Definition shown_intervals (num_executions : Z) (dag : DAG) (m : DagModel)
    : list (option (Z * Z)) :=
  get_next_data_interval dag m
  :: next_intervals (Z.to_nat (num_executions - 1)) dag
       (get_next_data_interval dag m).

Definition interval_line (interval : option (Z * Z)) : string :=
  match interval with
  | Some iv => isoformat iv.1
  | None => "None"
  end.

Definition interval_warning (interval : option (Z * Z)) : list string :=
  match interval with
  | Some _ => []
  | None => [no_schedule_warning]
  end.

Definition interval_events (interval : option (Z * Z)) : list cli_event :=
  match interval with
  | Some iv => [Out (isoformat iv.1)]
  | None => [ErrOut no_schedule_warning; Out "None"]
  end.

End NextExpected.

(** ** What [set_is_paused] is expected to do *)

Section PauseExpected.
Context {E : Env}.

(** The DAGs whose paused flag differs from the requested one. *)
Definition pause_targets (is_paused : bool) (args : PauseArgs) (db : Db)
    : list DAG :=
  filter (λ dag, Some is_paused ≠ dag_get_is_paused db dag)
    (env_get_dags (pause_subdir args) (pause_dag_id args)
       (pause_treat_dag_id_as_regex args)).

(** The rows of the [dag] table of these DAGs, where there is one. *)
Definition pause_models (is_paused : bool) (args : PauseArgs) (db : Db)
    : list DagModel :=
  omap (λ dag, get_dagmodel db (dag_id dag)) (pause_targets is_paused args db).

Definition pause_asks (args : PauseArgs) : bool :=
  negb (pause_yes args) && pause_treat_dag_id_as_regex args.

Definition pause_confirmed (is_paused : bool) (args : PauseArgs) (db : Db)
    : bool :=
  if pause_asks args
  then ask_yesno
         (pause_question is_paused (dag_id <$> pause_targets is_paused args db))
  else true.

(** The database after the flag has been set on each row in turn. *)
Definition apply_pause (is_paused : bool) (ms : list DagModel) (db : Db) : Db :=
  foldl (λ db m, set_is_paused_effect m is_paused db) db ms.

Definition pause_table (db : Db) (ms : list DagModel) : list row :=
  (λ m, [("dag_id", CStr (dm_dag_id m));
         ("is_paused", cell_of_bool (model_get_is_paused db m))]) <$> ms.

End PauseExpected.

(** ** What [dag_list_dag_runs] is expected to look up *)

(** The id the runs are looked up under: that of the DAG passed in, if
    any, else the one of the command line. *)
Definition runs_dag_id_used (args : RunsArgs) (dag : option DAG) : string :=
  match dag with
  | Some d => dag_id d
  | None => runs_dag_id args
  end.

Section RunsExpected.
Context {E : Env}.

Definition runs_found (args : RunsArgs) (dag : option DAG) (db : Db)
    : list DagRunRow :=
  dag_run_find db (runs_dag_id_used args dag)
    (if truthy (runs_state args)
     then Some (str_lower (default "" (runs_state args))) else None)
    (runs_no_backfill args) (runs_start_date args) (runs_end_date args).

End RunsExpected.

(** [a] may stand before [b] in a list sorted latest first. *)
Definition not_earlier (a b : DagRunRow) : Prop :=
  (dr_execution_date b ≤ dr_execution_date a)%Z.

(** The runs of [l] with the execution date [d], in their order. *)
Definition runs_at (d : Z) (l : list DagRunRow) : list DagRunRow :=
  filter (λ r, dr_execution_date r = d) l.
(** * Facts *)

(** ** Running the monad *)

Section Running.
Context {W : World}.

Lemma bind_ok {A B} (m : M A) (f : A → M B) s a s1 t1 :
  m s = (Ok a, s1, t1) →
  bind m f s = ((f a s1).1.1, (f a s1).1.2, t1 ++ (f a s1).2).
Proof.
  intros Hm. unfold bind. rewrite Hm.
  by destruct (f a s1) as [[r s2] t2].
Qed.

Lemma bind_raise {A B} (m : M A) (f : A → M B) s e s1 t1 :
  m s = (Raise e, s1, t1) → bind m f s = (Raise e, s1, t1).
Proof. intros Hm. unfold bind. by rewrite Hm. Qed.

Lemma for_each_cons {A} (x : A) l (body : A → M unit) s :
  for_each (x :: l) body s = bind (body x) (λ _, for_each l body) s.
Proof. done. Qed.

(** A loop whose body only emits events runs to its end, leaves the store
    alone and emits the events of its iterations in order. *)
Lemma for_each_emits {A} (l : list A) (body : A → M unit) (f : A → list event) :
  (∀ x s, body x s = (Ok (), s, f x)) →
  ∀ s, for_each l body s = (Ok (), s, flat_map f l).
Proof.
  intros Hbody. induction l as [|x l IH]; intros s; [done|].
  rewrite for_each_cons, (bind_ok _ _ _ _ _ _ (Hbody x s)), IH. done.
Qed.

Lemma for_each_app {A} (l1 l2 : list A) (body : A → M unit) s :
  for_each (l1 ++ l2) body s
  = bind (for_each l1 body) (λ _, for_each l2 body) s.
Proof.
  revert s. induction l1 as [|x l1 IH]; intros s; simpl.
  - unfold bind, ret. by destruct (for_each l2 body s) as [[??]?].
  - unfold bind. destruct (body x s) as [[[[]|e] s1] t1]; [|done].
    rewrite IH. unfold bind.
    destruct (for_each l1 body s1) as [[[[]|e] s2] t2]; [|done].
    destruct (for_each l2 body s2) as [[r s3] t3]. by rewrite app_assoc.
Qed.

(** A property of traces that holds of the empty trace, is kept by
    appending and holds of every iteration holds of the loop. *)
Lemma for_each_trace {A} (P : list event → Prop) (l : list A) (body : A → M unit) :
  P [] →
  (∀ t1 t2, P t1 → P t2 → P (t1 ++ t2)) →
  (∀ x s, x ∈ l → P (trace_of (body x s))) →
  ∀ s, P (trace_of (for_each l body s)).
Proof.
  intros Hnil Happ. induction l as [|x l IH]; intros Hbody s; [done|].
  rewrite for_each_cons. unfold bind.
  pose proof (Hbody x s (list_elem_of_here _ _)) as Hx.
  destruct (body x s) as [[[[]|e] s1] t1]; [|done].
  assert (P (trace_of (for_each l body s1))) as Hl.
  { apply IH. intros y s' Hy. apply Hbody. by right. }
  destruct (for_each l body s1) as [[r s2] t2]. by apply Happ.
Qed.

End Running.

(** ** Reading traces *)

Lemma processed_intervals_cons e tr :
  processed_intervals (e :: tr)
  = match interval_of e with
    | Some p => p :: processed_intervals tr
    | None => processed_intervals tr
    end.
Proof. done. Qed.

Lemma processed_intervals_app t1 t2 :
  processed_intervals (t1 ++ t2)
  = processed_intervals t1 ++ processed_intervals t2.
Proof. apply omap_app. Qed.

Lemma printed_cons e tr :
  printed (e :: tr)
  = match printed_line e with
    | Some l => l :: printed tr
    | None => printed tr
    end.
Proof. done. Qed.

Lemma printed_app t1 t2 : printed (t1 ++ t2) = printed t1 ++ printed t2.
Proof. apply omap_app. Qed.

Lemma workflow_order_cons e tr :
  workflow_order (e :: tr)
  = match dag_of_event e with
    | Some d => d :: workflow_order tr
    | None => workflow_order tr
    end.
Proof. done. Qed.

Lemma workflow_order_app t1 t2 :
  workflow_order (t1 ++ t2) = workflow_order t1 ++ workflow_order t2.
Proof. apply omap_app. Qed.

(** ** The loop body *)

Section Body.
Context {W : World}.

Lemma select_tasks_run args dag s :
  select_tasks args dag s
  = (match selection args dag with
     | Some sub => Ok sub
     | None => Raise (AirflowException
                        (no_tasks_message (default "" (task_regex args))))
     end, s, selection_events args dag).
Proof.
  unfold select_tasks, selection, selection_events.
  destruct (truthy (task_regex args)); [|done].
  unfold call_partial_subset, bind, emit, ret, raise. simpl.
  by destruct (bool_decide _).
Qed.

Lemma dry_run_loop args sub s :
  for_each (iter_dagrun_infos_between sub (start_date args) (end_date args))
    (λ dagrun_info,
       run new_DagRun (dag_id sub) (logical_date dagrun_info)
             (data_interval dagrun_info);
       for_each (tasks sub) (λ task,
         run emit (Print (located_line sub task));
         ti_dry_run (task_id task) (dag_id sub) (logical_date dagrun_info))) s
  = (Ok (), s,
     flat_map
       (λ i, NewDagRun (dag_id sub) (logical_date i) (data_interval i)
             :: flat_map (λ t, [Print (located_line sub t);
                                TaskDryRun (task_id t) (dag_id sub) (logical_date i)])
                  (tasks sub))
       (iter_dagrun_infos_between sub (start_date args) (end_date args))).
Proof.
  apply for_each_emits. intros i s'.
  unfold bind at 1. unfold new_DagRun, emit at 1.
  rewrite (for_each_emits _ _
             (λ t, [Print (located_line sub t);
                    TaskDryRun (task_id t) (dag_id sub) (logical_date i)])); [done|].
  by intros t s''.
Qed.

(** How the interval loop of [DAG.run] can end: with its verdict, or with
    a [ValueError]; either way the intervals run so far are the first ones
    of the sequence, in order. *)
Lemma run_each_run dag kw steps s :
  ∃ r s' rt,
    run_each dag kw steps s = (r, s', rt)
    ∧ Forall (λ e, ∃ ld, e = RunInterval (dag_id dag) ld (task_ids dag)) rt
    ∧ processed_intervals rt
        `prefix_of` ((λ st, (dag_id dag, logical_date st.1)) <$> steps)
    ∧ (r = Ok true →
       processed_intervals rt
       = (λ st, (dag_id dag, logical_date st.1)) <$> steps)
    ∧ ((∃ b, r = Ok b) ∨ ∃ msg, r = Raise (ValueError msg)).
Proof.
  revert s. induction steps as [|step rest IH]; intros s.
  - exists (Ok true), s, []. repeat split; eauto.
  - cbn [run_each]. unfold bind at 1 2. unfold emit, execute.
    destruct (execute_run dag step.1 kw step.2 s) as [s1 outcome].
    destruct (IH s1) as (r & s2 & rt & Hrun & Hall & Hpre & Hfull & Hres).
    assert (∀ rt', Forall (λ e, ∃ ld, e = RunInterval (dag_id dag) ld (task_ids dag)) rt' →
              Forall (λ e, ∃ ld, e = RunInterval (dag_id dag) ld (task_ids dag))
                (RunInterval (dag_id dag) (logical_date step.1) (task_ids dag) :: rt'))
      as Hcons by (intros; constructor; eauto).
    rewrite fmap_cons.
    destruct outcome as [| |msg]; [|destruct (kw_continue_on_failures kw)|].
    + rewrite Hrun. eexists _, _, _. split; [reflexivity|].
      cbn [app]. split; [auto|]. rewrite processed_intervals_cons.
      cbn [interval_of]. split; [by apply prefix_cons|].
      split; [|done]. intros Hb. by rewrite Hfull.
    + unfold bind, ret. rewrite Hrun.
      destruct r as [b|e].
      * eexists _, _, _. split; [reflexivity|].
        cbn [app]. rewrite app_nil_r. split; [auto|].
        rewrite processed_intervals_cons.
        cbn [interval_of]. split; [by apply prefix_cons|].
        split; [done|]. eauto.
      * eexists _, _, _. split; [reflexivity|].
        cbn [app]. split; [auto|]. rewrite processed_intervals_cons.
        cbn [interval_of]. split; [by apply prefix_cons|].
        split; [done|]. right. by destruct Hres as [[b ?]|?].
    + unfold ret. eexists _, _, _. split; [reflexivity|].
      cbn [app]. split; [auto|]. rewrite processed_intervals_cons.
      cbn [interval_of]. split; [apply prefix_cons, prefix_nil|].
      split; [done|]. eauto.
    + unfold raise. eexists _, _, _. split; [reflexivity|].
      cbn [app]. split; [auto|]. rewrite processed_intervals_cons.
      cbn [interval_of]. split; [apply prefix_cons, prefix_nil|].
      split; [done|]. eauto.
Qed.

Lemma run_steps_intervals (dag : DAG) kw infos :
  (λ st : DagRunInfo * bool, (dag_id dag, logical_date st.1))
  <$> run_steps kw infos
  = (λ i, (dag_id dag, logical_date i)) <$> infos.
Proof.
  destruct infos as [|info rest]; [done|]. cbn [run_steps fmap list_fmap].
  f_equal. by rewrite <-list_fmap_compose.
Qed.

Lemma run_intervals_run dag kw infos s :
  ∃ r s' rt,
    run_intervals dag kw infos s = (r, s', rt)
    ∧ Forall (λ e, ∃ ld, e = RunInterval (dag_id dag) ld (task_ids dag)) rt
    ∧ processed_intervals rt
        `prefix_of` ((λ i, (dag_id dag, logical_date i)) <$> infos)
    ∧ (r = Ok true →
       processed_intervals rt = (λ i, (dag_id dag, logical_date i)) <$> infos)
    ∧ ((∃ b, r = Ok b) ∨ ∃ msg, r = Raise (ValueError msg)).
Proof.
  unfold run_intervals. rewrite <-(run_steps_intervals dag kw infos).
  apply run_each_run.
Qed.

(** The loop body, case by case. *)
Lemma backfill_dag_run args run_conf dag s :
  match selection args dag with
  | None =>
      backfill_dag args run_conf dag s
      = (Raise (AirflowException
                  (no_tasks_message (default "" (task_regex args)))),
         s, selection_events args dag)
  | Some sub =>
      if dry_run args then
        backfill_dag args run_conf dag s
        = (Ok (), s, selection_events args dag ++ dry_run_events args sub)
      else
        ∃ r s' rt,
          backfill_dag args run_conf dag s
          = (r, s',
             selection_events args dag ++ clear_events args sub
             ++ DagRunCall (dag_id sub) (task_ids sub) (run_kwargs args run_conf)
             :: rt)
          ∧ run_tail args sub r rt
  end.
Proof.
  pose proof (select_tasks_run args dag s) as Hsel.
  destruct (selection args dag) as [sub|]; cycle 1.
  { unfold backfill_dag, bind. by rewrite Hsel. }
  destruct (dry_run args) eqn:Hdry.
  - unfold backfill_dag. unfold bind at 1. rewrite Hsel, Hdry.
    unfold bind at 1. unfold emit at 1. rewrite dry_run_loop. done.
  - unfold backfill_dag. unfold bind at 1. rewrite Hsel, Hdry.
    set (kw := run_kwargs args run_conf).
    set (h := λ msg : string,
                bind (emit (Print msg)) (λ _ : (), raise (SystemExit 1))).
    assert (∀ s0, ∃ r s' rt,
      try_except_ValueError (call_dag_run sub kw) h s0
      = (r, s', DagRunCall (dag_id sub) (task_ids sub) kw :: rt)
      ∧ run_tail args sub r rt) as Hrun.
    { intros s0. unfold try_except_ValueError, call_dag_run, DAG_run.
      unfold bind at 1. unfold emit at 1.
      destruct (run_rejects sub kw) as [msg|].
      - exists (Raise (SystemExit 1)), s0, [Print msg].
        split; [done|]. repeat split.
        + constructor; [|done]. right. eauto.
        + apply prefix_nil.
        + done.
        + auto.
      - unfold bind at 1.
        destruct (run_intervals_run sub kw
                    (enumerate sub (kw_start_date kw) (kw_end_date kw)
                       (kw_run_backwards kw)) s0)
          as (r0 & s' & rt & Hrun & Hall & Hpre & Hfull & Hres).
        rewrite Hrun.
        assert (Forall (λ e, (∃ ld, e = RunInterval (dag_id sub) ld (task_ids sub))
                             ∨ ∃ m, e = Print m) rt) as Hall'.
        { eapply Forall_impl; [exact Hall|]. intros e [ld ->]. left. eauto. }
        destruct Hres as [[[|] ->]|[msg ->]]; unfold ret, raise, h, bind, emit.
        + exists (Ok ()), s', rt. rewrite !app_nil_r.
          split; [done|]. repeat split; auto.
        + exists (Raise BackfillUnfinished), s', rt. rewrite !app_nil_r.
          split; [done|]. repeat split; auto. done.
        + exists (Raise (SystemExit 1)), s', (rt ++ [Print msg]).
          split; [done|]. repeat split.
          * apply Forall_app. split; [done|]. constructor; [|done].
            right. eauto.
          * rewrite processed_intervals_app. simpl. by rewrite app_nil_r.
          * done.
          * auto. }
    unfold bind at 1. unfold when, clear_events.
    destruct (reset_dagruns args).
    + unfold call_clear_dags. unfold bind at 1. unfold emit, modify.
      destruct (Hrun (clear_dags_effect [sub] (start_date args) (end_date args)
                        (negb (yes args)) s)) as (r & s' & rt & -> & Htail).
      exists r, s', rt. split; [|done]. done.
    + unfold ret.
      destruct (Hrun s) as (r & s' & rt & -> & Htail).
      exists r, s', rt. split; [|done]. done.
Qed.

End Body.

(** ** The two functions as a whole *)

Section Whole.
Context {W : World}.

Lemma parse_conf_run args s :
  parse_conf args s
  = (if conf_malformed args
     then Raise (JSONDecodeError (default "" (conf args)))
     else Ok (parsed_conf args), s, []).
Proof.
  unfold parse_conf, conf_malformed, parsed_conf.
  destruct (truthy (conf args)); [|done]. simpl.
  by destruct (json_loads _).
Qed.

Lemma run_dag_backfill_run dags args s :
  _run_dag_backfill dags args s
  = if conf_malformed args
    then (Raise (JSONDecodeError (default "" (conf args))), s, [])
    else for_each dags (backfill_dag (default_dates args) (parsed_conf args)) s.
Proof.
  unfold _run_dag_backfill, bind. rewrite parse_conf_run.
  change (conf_malformed (default_dates args)) with (conf_malformed args).
  change (parsed_conf (default_dates args)) with (parsed_conf args).
  change (conf (default_dates args)) with (conf args).
  destruct (conf_malformed args); [done|].
  destruct (for_each _ _ s) as [[r s'] t]. done.
Qed.

Lemma dag_backfill_run args dag s :
  dag_backfill args dag s
  = if no_bounds args
    then (Raise (AirflowException no_dates_message), s,
          deprecation_warnings args)
    else match _run_dag_backfill (target_dags args dag) (cli_args args) s with
         | (Ok _, s', t) =>
             (Ok (), s',
              deprecation_warnings args ++ t
              ++ if (1 <? length (target_dags args dag))%nat
                 then [LogInfo all_done_message] else [])
         | (Raise e, s', t) => (Raise e, s', deprecation_warnings args ++ t)
         end.
Proof.
  unfold dag_backfill, deprecation_warnings, no_bounds, target_dags, cli_args.
  unfold bind at 1. unfold when at 1.
  set (a := set_ignore_first_depends_on_past args true).
  change (treat_dag_id_as_regex a) with (treat_dag_id_as_regex args).
  change (treat_dag_as_regex a) with (treat_dag_as_regex args).
  destruct (ignore_first_depends_on_past args);
    destruct (negb (treat_dag_id_as_regex args) && treat_dag_as_regex args);
    unfold bind, emit, ret, raise, when; simpl;
    destruct (bool_decide (start_date args = None) && bool_decide (end_date args = None));
    try done;
    match goal with
    | |- context [_run_dag_backfill ?ds ?x s] =>
        destruct (_run_dag_backfill ds x s) as [[[[]|e] s'] t]
    end; try done;
    match goal with
    | |- context [(1 <? ?n)%nat] => destruct (1 <? n)%nat
    end; simpl; rewrite ?app_nil_r; done.
Qed.

End Whole.

(** ** The arguments the loop works with *)

Section LoopArgs.

Ltac loop_args_field :=
  intros; unfold loop_args, cli_args;
  match goal with
  | |- context [if ?c then _ else _] => destruct c
  end; reflexivity.

Lemma loop_args_task_regex args : task_regex (loop_args args) = task_regex args.
Proof. loop_args_field. Qed.

Lemma loop_args_ignore_dependencies args :
  ignore_dependencies (loop_args args) = ignore_dependencies args.
Proof. loop_args_field. Qed.

Lemma loop_args_dry_run args : dry_run (loop_args args) = dry_run args.
Proof. loop_args_field. Qed.

Lemma loop_args_reset_dagruns args :
  reset_dagruns (loop_args args) = reset_dagruns args.
Proof. loop_args_field. Qed.

Lemma loop_args_yes args : yes (loop_args args) = yes args.
Proof. loop_args_field. Qed.

Lemma loop_args_conf args : conf (loop_args args) = conf args.
Proof. loop_args_field. Qed.

Lemma loop_args_run_backwards args :
  run_backwards (loop_args args) = run_backwards args.
Proof. loop_args_field. Qed.

Lemma loop_args_ignore_first args :
  ignore_first_depends_on_past (loop_args args) = true.
Proof. loop_args_field. Qed.

Lemma loop_args_start_date args :
  start_date (loop_args args)
  = or_else (start_date args) (or_else (end_date args) (start_date args)).
Proof. loop_args_field. Qed.

Lemma loop_args_end_date args :
  end_date (loop_args args) = or_else (end_date args) (start_date args).
Proof. loop_args_field. Qed.

Lemma cli_args_conf args : conf (cli_args args) = conf args.
Proof. loop_args_field. Qed.

Lemma cli_args_dates args :
  start_date (cli_args args) = start_date args
  ∧ end_date (cli_args args) = end_date args.
Proof. split; loop_args_field. Qed.

End LoopArgs.

(** ** Which events an invocation produces *)

Section Emitted.
Context {W : World}.

Lemma selection_events_emitted a rc dag :
  Forall (emitted a rc) (selection_events a dag).
Proof.
  unfold selection_events. destruct (truthy (task_regex a)) eqn:Hre; [|done].
  constructor; [|done]. by constructor.
Qed.

Lemma dry_run_events_emitted a rc sub :
  dry_run a = true → Forall (emitted a rc) (dry_run_events a sub).
Proof.
  intros Hdry. unfold dry_run_events. constructor; [constructor|].
  apply Forall_forall. intros e He.
  apply list_elem_of_In, in_flat_map in He as (i & _ & He).
  destruct He as [<-|He]; [by constructor|].
  apply in_flat_map in He as (t & _ & He).
  destruct He as [<-|[<-|[]]]; by constructor.
Qed.

Lemma backfill_dag_emitted a rc dag s :
  Forall (emitted a rc) (trace_of (backfill_dag a rc dag s)).
Proof.
  pose proof (backfill_dag_run a rc dag s) as Hrun.
  destruct (selection a dag) as [sub|]; cycle 1.
  { rewrite Hrun. apply selection_events_emitted. }
  destruct (dry_run a) eqn:Hdry.
  - rewrite Hrun. apply Forall_app. split.
    + apply selection_events_emitted.
    + by apply dry_run_events_emitted.
  - destruct Hrun as (r & s' & rt & -> & Hall & _).
    unfold trace_of. simpl. apply Forall_app. split.
    { apply selection_events_emitted. }
    apply Forall_app. split.
    { unfold clear_events. destruct (reset_dagruns a) eqn:Hreset; [|done].
      constructor; [|done]. by constructor. }
    constructor; [by constructor|].
    eapply Forall_impl; [exact Hall|].
    intros e [[ld ->]|[m ->]]; by constructor.
Qed.

Lemma loop_emitted a rc dags s :
  Forall (emitted a rc) (trace_of (for_each dags (backfill_dag a rc) s)).
Proof.
  revert s. apply for_each_trace.
  - done.
  - intros t1 t2 H1 H2. apply Forall_app. done.
  - intros dag s _. apply backfill_dag_emitted.
Qed.

Lemma dag_backfill_emitted args dag s :
  Forall (emitted (loop_args args) (parsed_conf args))
    (trace_of (dag_backfill args dag s)).
Proof.
  rewrite dag_backfill_run.
  assert (Forall (emitted (loop_args args) (parsed_conf args))
            (deprecation_warnings args)) as Hwarn.
  { unfold deprecation_warnings. apply Forall_app.
    split; [destruct (ignore_first_depends_on_past args)
           |destruct (negb _ && _)]; repeat constructor. }
  destruct (no_bounds args); [done|].
  rewrite run_dag_backfill_run.
  destruct (conf_malformed (cli_args args)) eqn:Hconf.
  { unfold trace_of. simpl. by rewrite app_nil_r. }
  pose proof (loop_emitted (loop_args args) (parsed_conf (cli_args args))
                (target_dags args dag) s) as Hloop.
  unfold loop_args in *.
  assert (parsed_conf (cli_args args) = parsed_conf args) as Hpc.
  { unfold parsed_conf. by rewrite cli_args_conf. }
  rewrite Hpc in *.
  destruct (for_each _ _ s) as [[[[]|e] s'] t]; unfold trace_of in *; simpl in *.
  - apply Forall_app. split; [done|]. apply Forall_app. split; [done|].
    destruct (1 <? _)%nat; repeat constructor.
  - apply Forall_app. done.
Qed.

End Emitted.

(** * The claims *)

Section Flags.
Context {W : World}.

Lemma run_calls_emitted a rc tr :
  Forall (emitted a rc) tr → Forall (λ kw, kw = run_kwargs a rc) (run_calls tr).
Proof.
  induction 1 as [|e tr He _ IH]; [done|].
  unfold run_calls in *. destruct He; simpl; auto.
Qed.

Lemma subset_calls_emitted a rc tr :
  Forall (emitted a rc) tr →
  Forall (λ c, c.2 = negb (ignore_dependencies a)
               ∧ c.1.2 = default "" (task_regex a)
               ∧ truthy (task_regex a) = true) (subset_calls tr).
Proof.
  induction 1 as [|e tr He _ IH]; [done|].
  unfold subset_calls in *. destruct He; simpl; auto.
Qed.

End Flags.

(** A real run over two days with a task pattern: the caller left
    [ignore_first_depends_on_past] and [ignore_dependencies] off. *)
Example flags_of_a_real_run :
  let tr := trace_of (@dag_backfill Demo.world
                        (Demo.with_flags false false false (Some "t2"))
                        (OneDag Demo.etl) []) in
  subset_calls tr = [("etl", "t2", true)]
  ∧ (kw_ignore_first_depends_on_past <$> run_calls tr) = [true]
  ∧ (kw_ignore_task_deps <$> run_calls tr) = [false].
Proof. vm_compute. done. Qed.

Section DryRun.
Context {W : World}.

Lemma loop_store_dry_run a rc dags s :
  dry_run a = true → store_of (for_each dags (backfill_dag a rc) s) = s.
Proof.
  intros Hdry. revert s. induction dags as [|dag dags IH]; intros s; [done|].
  rewrite for_each_cons. unfold bind.
  pose proof (backfill_dag_run a rc dag s) as Hrun. rewrite Hdry in Hrun.
  destruct (selection a dag) as [sub|]; rewrite Hrun; [|done].
  specialize (IH s). by destruct (for_each dags _ s) as [[r s'] t].
Qed.

Lemma dag_backfill_store_dry_run args dag s :
  dry_run args = true → store_of (dag_backfill args dag s) = s.
Proof.
  intros Hdry. rewrite dag_backfill_run.
  destruct (no_bounds args); [done|].
  rewrite run_dag_backfill_run.
  destruct (conf_malformed (cli_args args)); [done|].
  pose proof (loop_store_dry_run (loop_args args) (parsed_conf (cli_args args))
                (target_dags args dag) s) as Hloop.
  rewrite loop_args_dry_run in Hloop. specialize (Hloop Hdry).
  unfold loop_args in Hloop.
  by destruct (for_each _ _ s) as [[[[]|e] s'] t].
Qed.

(** C5: a dry-run invocation leaves the persisted run and task records as
    they were: the store it returns is the store it was given, its trace
    holds no reset, no [DAG.run] call and no interval run, and this stays so
    however often the invocation is repeated: the store is still the one
    given and every repetition does the same as the first. *)
Theorem dry_run_never_mutates args dag s :
  dry_run args = true →
  let again n := Nat.iter n (λ s', store_of (dag_backfill args dag s')) s in
  store_of (dag_backfill args dag s) = s
  ∧ Forall (λ e, is_mutation e = false) (trace_of (dag_backfill args dag s))
  ∧ ∀ n, again n = s
         ∧ dag_backfill args dag (again n) = dag_backfill args dag s.
Proof.
  intros Hdry. cbv zeta.
  split; [by apply dag_backfill_store_dry_run|]. split.
  - eapply Forall_impl; [apply dag_backfill_emitted|].
    intros e He. destruct He; try done;
      rewrite loop_args_dry_run in *; congruence.
  - assert (∀ n, Nat.iter n (λ s', store_of (dag_backfill args dag s')) s = s)
      as Hsame.
    { induction n as [|n IH]; [done|]. simpl. rewrite IH.
      by apply dag_backfill_store_dry_run. }
    intros n. by rewrite Hsame.
Qed.

End DryRun.

Lemma dry_run_never_mutates_witness :
  dry_run (Demo.with_flags true true true None) = true
  ∧ store_of (@dag_backfill Demo.world (Demo.with_flags true true true None)
                (OneDag Demo.etl) [("etl", 1%Z, SUCCESS)])
    = [("etl", 1%Z, SUCCESS)].
Proof.
  split; [reflexivity|].
  apply (@dry_run_never_mutates Demo.world (Demo.with_flags true true true None)
           (OneDag Demo.etl) [("etl", 1%Z, SUCCESS)]).
  reflexivity.
Defined.

Section FailFast.
Context {W : World}.

(** How the loop over the workflows can end. *)
Lemma loop_result a rc dags s :
  let r := result_of (for_each dags (backfill_dag a rc) s) in
  r = Ok ()
  ∨ r = Raise (AirflowException (no_tasks_message (default "" (task_regex a))))
  ∨ r = Raise (SystemExit 1)
  ∨ r = Raise BackfillUnfinished.
Proof.
  cbv zeta. revert s. induction dags as [|dag dags IH]; intros s; [by left|].
  rewrite for_each_cons. unfold bind.
  pose proof (backfill_dag_run a rc dag s) as Hrun.
  destruct (selection a dag) as [sub|]; cycle 1.
  { rewrite Hrun. auto. }
  destruct (dry_run a).
  - rewrite Hrun. specialize (IH s).
    by destruct (for_each dags _ s) as [[r s'] t].
  - destruct Hrun as (r & s' & rt & -> & _ & _ & _ & Hr).
    destruct Hr as [->|[->| ->]]; [|auto..].
    specialize (IH s').
    by destruct (for_each dags _ s') as [[r s''] t].
Qed.

Lemma conf_malformed_cli_args args :
  conf_malformed (cli_args args) = conf_malformed args.
Proof. unfold conf_malformed. by rewrite cli_args_conf. Qed.

(** C4: an invocation ends in a ConfigError exactly when both bounds of the
    window are absent or the [conf] payload given does not parse; it then
    ends with status 1, with the store untouched and nothing in its trace
    but the deprecation warnings: no interval processed, no run created. *)
Theorem config_error_exactly_when_and_fast args dag s :
  let out := dag_backfill args dag s in
  if no_bounds args || conf_malformed args
  then is_ConfigError (result_of out)
       ∧ exit_status (result_of out) = 1%Z
       ∧ store_of out = s
       ∧ trace_of out = deprecation_warnings args
       ∧ processed_intervals (trace_of out) = []
  else ¬ is_ConfigError (result_of out).
Proof.
  cbv zeta. rewrite dag_backfill_run.
  assert (processed_intervals (deprecation_warnings args) = []) as Hwarn.
  { unfold deprecation_warnings.
    by destruct (ignore_first_depends_on_past args), (negb _ && _). }
  destruct (no_bounds args); simpl.
  { repeat split; try done. by left. }
  rewrite run_dag_backfill_run, conf_malformed_cli_args.
  destruct (conf_malformed args); simpl.
  { rewrite app_nil_r. repeat split; try done. right. eauto. }
  pose proof (loop_result (default_dates (cli_args args))
                (parsed_conf (cli_args args)) (target_dags args dag) s) as Hr.
  cbv zeta in Hr.
  destruct (for_each _ _ s) as [[[[]|e] s'] t];
    unfold result_of in *; cbn [fst snd] in *.
  - intros [?|[? ?]]; discriminate.
  - intros [Hc|[doc Hc]];
      destruct Hr as [Hr|[Hr|[Hr|Hr]]]; rewrite Hr in Hc; discriminate Hc.
Qed.

End FailFast.

(** A window without bounds, a payload that does not parse, and a request
    with one bound and a payload that parses. *)
Example config_errors_of_three_requests :
  @dag_backfill Demo.world (Demo.with_window None None None)
    (OneDag Demo.etl) []
  = (Raise (AirflowException "Provide a start_date and/or end_date"), [],
     [Warn ignore_first_warning])
  ∧ @dag_backfill Demo.world (Demo.with_window (Some 1%Z) None (Some "{"))
      (OneDag Demo.etl) []
    = (Raise (JSONDecodeError "{"), [], [Warn ignore_first_warning])
  ∧ processed_intervals
      (trace_of (@dag_backfill Demo.world
                   (Demo.with_window None (Some 3%Z) (Some "{}"))
                   (OneDag Demo.etl) []))
    = [("etl", 3%Z)].
Proof. by vm_compute. Qed.

(** ** Sorting the workflows *)

Section Sorting.

Lemma insert_by_dag_id_perm d l : insert_by_dag_id d l ≡ₚ d :: l.
Proof.
  induction l as [|x l IH]; simpl; [done|].
  destruct (String.leb (dag_id d) (dag_id x)); [done|].
  rewrite IH. apply Permutation_swap.
Qed.

Lemma sort_by_dag_id_perm l : sort_by_dag_id l ≡ₚ l.
Proof.
  induction l as [|x l IH]; simpl; [done|].
  by rewrite insert_by_dag_id_perm, IH.
Qed.

#[local] Instance by_dag_id_trans : Transitive by_dag_id.
Proof. intros x y z. unfold by_dag_id. apply transitivity. Qed.

Lemma insert_by_dag_id_sorted d l :
  StronglySorted by_dag_id l → StronglySorted by_dag_id (insert_by_dag_id d l).
Proof.
  induction 1 as [|x l Hl IH Hx]; simpl.
  { repeat constructor. }
  destruct (String.leb (dag_id d) (dag_id x)) eqn:Hle.
  - constructor; [by constructor|]. constructor.
    + unfold by_dag_id, String.le. by rewrite Hle.
    + eapply Forall_impl; [exact Hx|]. intros y Hy.
      etrans; [|exact Hy]. unfold by_dag_id, String.le. by rewrite Hle.
  - constructor; [done|].
    rewrite insert_by_dag_id_perm. constructor; [|done].
    destruct (total String.le (dag_id x) (dag_id d)) as [?|Hdx]; [done|].
    unfold String.le in Hdx. by rewrite Hle in Hdx.
Qed.

Lemma sort_by_dag_id_sorted l : StronglySorted by_dag_id (sort_by_dag_id l).
Proof.
  induction l as [|x l IH]; simpl; [constructor|].
  by apply insert_by_dag_id_sorted.
Qed.

(** With distinct identifiers the order given does not matter. *)
Lemma sort_by_dag_id_order_free l l' :
  l ≡ₚ l' → NoDup (dag_id <$> l) → sort_by_dag_id l = sort_by_dag_id l'.
Proof.
  intros Hperm Hnd.
  apply (StronglySorted_unique_strong by_dag_id);
    [|apply sort_by_dag_id_sorted..|by rewrite !sort_by_dag_id_perm].
  intros x y Hx Hy Hxy Hyx.
  rewrite sort_by_dag_id_perm in Hx. rewrite sort_by_dag_id_perm, <-Hperm in Hy.
  assert (dag_id x = dag_id y) as Hid by (by apply (anti_symm String.le)).
  clear Hxy Hyx Hperm. induction l as [|z l IH]; [by inv Hx|].
  rewrite fmap_cons in Hnd. apply NoDup_cons in Hnd as [Hz Hnd].
  inv Hx; inv Hy; try done.
  - exfalso. apply Hz. rewrite Hid. by apply list_elem_of_fmap_2.
  - exfalso. apply Hz. rewrite <-Hid. by apply list_elem_of_fmap_2.
  - by apply IH.
Qed.

End Sorting.

(** ** From the loop to the invocation *)

Section Observed.
Context {W : World}.

Lemma parsed_conf_cli_args args : parsed_conf (cli_args args) = parsed_conf args.
Proof. unfold parsed_conf. by rewrite cli_args_conf. Qed.

(** What a reading of the trace that skips warnings and log lines sees of
    an invocation is what it sees of the loop over the workflows. *)
Lemma dag_backfill_omap {B} (f : event → option B) args dag s :
  (∀ m, f (Warn m) = None) → (∀ m, f (LogInfo m) = None) →
  omap f (trace_of (dag_backfill args dag s))
  = if no_bounds args || conf_malformed args then []
    else omap f (trace_of (for_each (target_dags args dag)
                             (backfill_dag (loop_args args) (parsed_conf args)) s)).
Proof.
  intros Hwarn Hlog. rewrite dag_backfill_run.
  assert (omap f (deprecation_warnings args) = []) as Hdep.
  { unfold deprecation_warnings.
    destruct (ignore_first_depends_on_past args), (negb _ && _); simpl;
      by rewrite ?Hwarn. }
  destruct (no_bounds args); [done|].
  rewrite run_dag_backfill_run, conf_malformed_cli_args, parsed_conf_cli_args.
  destruct (conf_malformed args); simpl.
  { unfold trace_of. simpl. by rewrite app_nil_r. }
  unfold loop_args.
  destruct (for_each _ _ s) as [[[[]|e] s'] t]; unfold trace_of; simpl.
  - rewrite !omap_app, Hdep. simpl.
    destruct (1 <? _)%nat; simpl; by rewrite ?Hlog, app_nil_r.
  - by rewrite omap_app, Hdep.
Qed.

End Observed.

(** ** The order of the workflows *)

Section Order.
Context {W : World}.

Lemma selection_dag_id a dag sub :
  selection a dag = Some sub → dag_id sub = dag_id dag.
Proof.
  unfold selection. destruct (truthy (task_regex a)); [|by intros [= ->]].
  simpl. destruct (bool_decide _); [done|]. by intros [= <-].
Qed.

Lemma workflow_order_forall (P : string → Prop) tr :
  Forall (λ e, ∀ d, dag_of_event e = Some d → P d) tr →
  Forall P (workflow_order tr).
Proof.
  induction 1 as [|e tr He _ IH]; [constructor|].
  rewrite workflow_order_cons. destruct (dag_of_event e) eqn:Hd; auto.
Qed.

(** Every event of one turn of the loop is about the workflow of that
    turn. *)
Lemma backfill_dag_about a rc dag s :
  Forall (λ e, ∀ d, dag_of_event e = Some d → d = dag_id dag)
    (trace_of (backfill_dag a rc dag s)).
Proof.
  assert (Forall (λ e, ∀ d, dag_of_event e = Some d → d = dag_id dag)
            (selection_events a dag)) as Hsel.
  { unfold selection_events. destruct (truthy _); [|done].
    constructor; [|done]. by intros d [= <-]. }
  pose proof (backfill_dag_run a rc dag s) as Hrun.
  destruct (selection a dag) as [sub|] eqn:Hsub; cycle 1.
  { by rewrite Hrun. }
  apply selection_dag_id in Hsub.
  destruct (dry_run a).
  - rewrite Hrun. unfold trace_of. simpl. apply Forall_app. split; [done|].
    unfold dry_run_events. constructor; [done|].
    apply Forall_forall. intros e He.
    apply list_elem_of_In, in_flat_map in He as (i & _ & He).
    destruct He as [<-|He]; [intros d [= <-]; done|].
    apply in_flat_map in He as (t & _ & He).
    destruct He as [<-|[<-|[]]]; [done|]. intros d [= <-]. done.
  - destruct Hrun as (r & s' & rt & -> & Hall & _).
    unfold trace_of. simpl. apply Forall_app. split; [done|].
    apply Forall_app. split.
    { unfold clear_events. destruct (reset_dagruns a); [|done].
      constructor; [|done]. intros d [= <-]. done. }
    constructor; [intros d [= <-]; done|].
    eapply Forall_impl; [exact Hall|].
    intros e [[ld ->]|[m ->]] d; [intros [= <-]; done|done].
Qed.

Lemma backfill_dag_workflow a rc dag s :
  Forall (λ d, d = dag_id dag)
    (workflow_order (trace_of (backfill_dag a rc dag s))).
Proof. apply workflow_order_forall, backfill_dag_about. Qed.

Lemma constant_sorted (d : string) l :
  Forall (λ x, x = d) l → StronglySorted String.le l.
Proof.
  induction 1 as [|x l -> Hl IH]; constructor; [done|].
  eapply Forall_impl; [exact Hl|]. by intros y ->.
Qed.

(** The loop handles the workflows one after the other, in the order of
    its list. *)
Lemma loop_workflow_order a rc dags s :
  StronglySorted by_dag_id dags →
  StronglySorted String.le
    (workflow_order (trace_of (for_each dags (backfill_dag a rc) s)))
  ∧ Forall (λ d, d ∈ dag_id <$> dags)
      (workflow_order (trace_of (for_each dags (backfill_dag a rc) s))).
Proof.
  intros Hsorted. revert s.
  induction Hsorted as [|dag dags Hdags IH Hdag]; intros s.
  { split; [constructor|done]. }
  rewrite for_each_cons. unfold bind.
  pose proof (backfill_dag_workflow a rc dag s) as Hhere.
  assert (Forall (λ d, d ∈ dag_id <$> dag :: dags)
            (workflow_order (trace_of (backfill_dag a rc dag s)))) as Hhere'.
  { eapply Forall_impl; [exact Hhere|]. intros d ->. rewrite fmap_cons. left. }
  destruct (backfill_dag a rc dag s) as [[[[]|e] s1] t1]; cycle 1.
  { split; [by eapply constant_sorted|done]. }
  destruct (IH s1) as [Hs Hin].
  destruct (for_each dags _ s1) as [[r s2] t2]. unfold trace_of in *. simpl in *.
  rewrite workflow_order_app. split.
  - apply StronglySorted_app_2; [|by eapply constant_sorted|done].
    intros x y Hx Hy.
    rewrite Forall_forall in Hhere. apply Hhere in Hx as ->.
    rewrite Forall_forall in Hin. apply Hin in Hy.
    apply list_elem_of_fmap in Hy as (dag' & -> & Hdag').
    rewrite Forall_forall in Hdag. by apply Hdag.
  - apply Forall_app. split; [done|].
    eapply Forall_impl; [exact Hin|]. intros d Hd. by right.
Qed.

End Order.

(** Two workflows given in descending order are taken in ascending order. *)
Example order_of_two_workflows :
  workflow_order
    (trace_of (@dag_backfill Demo.world (Demo.with_flags true false false None)
                 (DagList [Demo.report; Demo.etl]) []))
  = ["etl"; "etl"; "etl"; "etl"; "etl"; "etl"; "etl"; "etl";
     "report"; "report"; "report"; "report"; "report"; "report"].
Proof. by vm_compute. Qed.

(** ** The order of the intervals *)

Section Intervals.
Context {W : World}.

Lemma processed_selection_events a dag :
  processed_intervals (selection_events a dag) = [].
Proof. unfold selection_events. by destruct (truthy _). Qed.

Lemma processed_task_events sub ld ts :
  processed_intervals
    (flat_map (λ t, [Print (located_line sub t);
                     TaskDryRun (task_id t) (dag_id sub) ld]) ts) = [].
Proof.
  induction ts as [|t ts IH]; [done|]. cbn [flat_map app].
  by rewrite !processed_intervals_cons.
Qed.

Lemma processed_dry_run_events a sub :
  processed_intervals (dry_run_events a sub)
  = (λ i, (dag_id sub, logical_date i))
    <$> iter_dagrun_infos_between sub (start_date a) (end_date a).
Proof.
  unfold dry_run_events. rewrite processed_intervals_cons. cbn [interval_of].
  induction (iter_dagrun_infos_between sub (start_date a) (end_date a))
    as [|i l IH]; [done|].
  cbn [flat_map]. rewrite <-app_comm_cons, processed_intervals_cons.
  cbn [interval_of].
  by rewrite processed_intervals_app, IH, fmap_cons, processed_task_events.
Qed.

(** The direction in which an invocation takes the intervals: backwards
    only in a real run with [run_backwards]. *)
Lemma loop_processed a rc dags s :
  processed_intervals (trace_of (for_each dags (backfill_dag a rc) s))
  `prefix_of` delivered_order (negb (dry_run a) && run_backwards a) a dags
  ∧ (dry_run a = true →
     processed_intervals (trace_of (for_each dags (backfill_dag a rc) s))
     = delivered_order false a dags).
Proof.
  revert s. induction dags as [|dag dags IH]; intros s; [done|].
  rewrite for_each_cons. unfold bind, delivered_order. simpl reached.
  pose proof (backfill_dag_run a rc dag s) as Hrun.
  destruct (selection a dag) as [sub|]; cycle 1.
  { rewrite Hrun. unfold trace_of. simpl.
    by rewrite processed_selection_events. }
  simpl flat_map. fold (delivered_order (negb (dry_run a) && run_backwards a) a dags).
  fold (delivered_order false a dags).
  destruct (dry_run a) eqn:Hdry.
  - rewrite Hrun. destruct (IH s) as [Hpre Heq].
    destruct (for_each dags _ s) as [[r s'] t]. unfold trace_of in *. simpl in *.
    rewrite !processed_intervals_app, processed_selection_events,
      processed_dry_run_events. simpl.
    split; [by apply prefix_app|]. intros _. by rewrite Heq.
  - destruct Hrun as (r & s' & rt & -> & _ & Hpre & Hfull & _).
    split; [|done]. simpl negb. rewrite andb_true_l.
    fold (run_plan a sub).
    assert (∀ t, processed_intervals
                   (selection_events a dag ++ clear_events a sub
                    ++ DagRunCall (dag_id sub) (task_ids sub) (run_kwargs a rc)
                    :: t)
                 = processed_intervals t) as Hskip.
    { intros t. rewrite !processed_intervals_app, processed_selection_events.
      unfold clear_events. by destruct (reset_dagruns a). }
    destruct r as [[]|e].
    + destruct (IH s') as [Hpre' _]. simpl negb in Hpre'. rewrite andb_true_l in Hpre'.
      destruct (for_each dags _ s') as [[r s''] t]. unfold trace_of in *.
      simpl in *. rewrite app_assoc, processed_intervals_app.
      rewrite <-app_assoc, Hskip, Hfull by done. by apply prefix_app.
    + unfold trace_of. simpl. rewrite Hskip. by apply prefix_app_r.
Qed.

(** C1, as the code has it: the intervals are processed in the order the
    enumerator delivers them, workflow after workflow, none skipped.  A dry
    run asks the enumerator for the ascending sequence, whatever
    [run_backwards] says, and goes through all of it; a real run hands
    [run_backwards] to [DAG.run] unchanged, which takes the sequence in
    that direction. *)
Theorem intervals_processed_in_delivered_order args dag s :
  let tr := trace_of (dag_backfill args dag s) in
  let expected backwards :=
    delivered_order backwards (loop_args args) (target_dags args dag) in
  Forall (λ kw, kw_run_backwards kw = run_backwards args) (run_calls tr)
  ∧ if no_bounds args || conf_malformed args
    then processed_intervals tr = []
    else processed_intervals tr
         `prefix_of` expected (negb (dry_run args) && run_backwards args)
         ∧ (dry_run args = true → processed_intervals tr = expected false).
Proof.
  cbv zeta. split.
  { eapply Forall_impl; [eapply run_calls_emitted, dag_backfill_emitted|].
    intros kw ->. simpl. apply loop_args_run_backwards. }
  unfold processed_intervals at 1 2 3. rewrite dag_backfill_omap by done.
  destruct (_ || _); [done|].
  pose proof (loop_processed (loop_args args) (parsed_conf args)
                (target_dags args dag) s) as [Hpre Heq].
  rewrite loop_args_dry_run, loop_args_run_backwards in *. done.
Qed.

End Intervals.

Lemma intervals_processed_in_delivered_order_witness :
  processed_intervals
    (trace_of (@dag_backfill Demo.world (Demo.with_flags true false false None)
                 (OneDag Demo.etl) []))
  = @delivered_order Demo.world false
      (loop_args (Demo.with_flags true false false None)) [Demo.etl].
Proof.
  apply (proj2 (proj2 (@intervals_processed_in_delivered_order Demo.world
                         (Demo.with_flags true false false None)
                         (OneDag Demo.etl) []))).
  reflexivity.
Defined.

(** C1 as worded fails: a dry run with [run_backwards] set over the days 1
    and 2 takes day 1 first, where the wording asks for day 2 first. *)
Lemma dry_run_ignores_run_backwards :
  ¬ @processed_in_requested_direction Demo.world
      (Demo.with_flags true true false None) (OneDag Demo.etl) [].
Proof.
  unfold processed_in_requested_direction. vm_compute.
  intros [k Hk]. discriminate Hk.
Qed.

Example dry_run_backwards_intervals :
  processed_intervals
    (trace_of (@dag_backfill Demo.world (Demo.with_flags true true false None)
                 (OneDag Demo.etl) []))
  = [("etl", 1%Z); ("etl", 2%Z)].
Proof. by vm_compute. Qed.

Example real_run_backwards_intervals :
  processed_intervals
    (trace_of (@dag_backfill Demo.world (Demo.with_flags false true false None)
                 (OneDag Demo.etl) []))
  = [("etl", 2%Z); ("etl", 1%Z)].
Proof. by vm_compute. Qed.

(** ** Properties of every position of a trace *)

Section Positions.
Context {W : World}.

Lemma app_eq_cons_split {A} (t1 t2 pre : list A) e post :
  t1 ++ t2 = pre ++ e :: post →
  (∃ post1, t1 = pre ++ e :: post1 ∧ post = post1 ++ t2)
  ∨ (∃ pre2, pre = t1 ++ pre2 ∧ t2 = pre2 ++ e :: post).
Proof.
  revert pre. induction t1 as [|x t1 IH]; intros pre Heq.
  - right. by exists pre.
  - destruct pre as [|y pre]; simplify_eq/=.
    + left. by exists t1.
    + destruct (IH _ H0) as [(post1 & -> & ->)|(pre2 & -> & ->)].
      * left. by exists post1.
      * right. by exists pre2.
Qed.

Lemma at_each_event_app_strong R t1 t2 :
  at_each_event R t1 →
  (∀ pre2 e post2, t2 = pre2 ++ e :: post2 → R (t1 ++ pre2) e) →
  at_each_event R (t1 ++ t2).
Proof.
  intros H1 H2 pre e post Heq.
  apply app_eq_cons_split in Heq as [(post1 & Heq & _)|(pre2 & -> & Heq)].
  - by eapply H1.
  - by eapply H2.
Qed.

Lemma at_each_event_app R t1 t2 :
  (∀ t pre e, R pre e → R (t ++ pre) e) →
  at_each_event R t1 → at_each_event R t2 → at_each_event R (t1 ++ t2).
Proof.
  intros Hmono H1 H2. apply at_each_event_app_strong; [done|].
  intros pre2 e post2 Heq. eapply Hmono, H2, Heq.
Qed.

Lemma at_each_event_always R tr :
  Forall (λ e, ∀ pre, R pre e) tr → at_each_event R tr.
Proof.
  intros Hall pre e post ->. rewrite Forall_forall in Hall.
  apply Hall. set_solver.
Qed.

Lemma at_each_event_loop {A} R (l : list A) (body : A → M ()) :
  (∀ t pre e, R pre e → R (t ++ pre) e) →
  (∀ x s, at_each_event R (trace_of (body x s))) →
  ∀ s, at_each_event R (trace_of (for_each l body s)).
Proof.
  intros Hmono Hbody. apply for_each_trace.
  - by intros [|??] ???.
  - intros t1 t2. by apply at_each_event_app.
  - intros x s _. apply Hbody.
Qed.

(** The same for an invocation: the warnings before the loop and the log
    line after it only have to satisfy [R] on their own. *)
Lemma at_each_event_dag_backfill R args dag s :
  (∀ t pre e, R pre e → R (t ++ pre) e) →
  (∀ m pre, R pre (Warn m)) → (∀ m pre, R pre (LogInfo m)) →
  (∀ dag s, at_each_event R
     (trace_of (backfill_dag (loop_args args) (parsed_conf args) dag s))) →
  at_each_event R (trace_of (dag_backfill args dag s)).
Proof.
  intros Hmono Hwarn Hlog Hbody. rewrite dag_backfill_run.
  assert (at_each_event R (deprecation_warnings args)) as Hdep.
  { apply at_each_event_always. unfold deprecation_warnings.
    apply Forall_app.
    split; [destruct (ignore_first_depends_on_past args)
           |destruct (negb _ && _)]; repeat constructor; auto. }
  destruct (no_bounds args); [done|].
  rewrite run_dag_backfill_run, conf_malformed_cli_args, parsed_conf_cli_args.
  destruct (conf_malformed args).
  { unfold trace_of. simpl. by rewrite app_nil_r. }
  pose proof (at_each_event_loop R (target_dags args dag) _ Hmono Hbody s)
    as Hloop.
  unfold loop_args in *.
  destruct (for_each _ _ s) as [[[[]|e] s'] t]; unfold trace_of in *; simpl in *.
  - apply at_each_event_app; [done..|]. apply at_each_event_app; [done..|].
    apply at_each_event_always. destruct (1 <? _)%nat; repeat constructor; auto.
  - by apply at_each_event_app.
Qed.

End Positions.

(** ** The reset of the run state *)

Section Reset.
Context {W : World}.

Lemma directly_after_mono (Rel : event → event → Prop) (Q : event → Prop)
    (t pre : list event) e :
  (Q e → ∃ pre' e', pre = pre' ++ [e'] ∧ Rel e' e) →
  Q e → ∃ pre' e', t ++ pre = pre' ++ [e'] ∧ Rel e' e.
Proof.
  intros H HQ. destruct (H HQ) as (pre' & e' & -> & HR).
  exists (t ++ pre'), e'. by rewrite app_assoc.
Qed.

Lemma run_tail_elem a sub r rt e :
  run_tail a sub r rt → e ∈ rt →
  (∃ ld, e = RunInterval (dag_id sub) ld (task_ids sub)) ∨ ∃ m, e = Print m.
Proof. intros (Hall & _) He. rewrite Forall_forall in Hall. by apply Hall. Qed.

Lemma selection_events_no_run_call a dag :
  Forall (λ e, ¬ is_run_call e ∧ ¬ is_reset e ∧ interval_of e = None)
    (selection_events a dag).
Proof.
  unfold selection_events. destruct (truthy _); [|done].
  constructor; [|done]. simpl. tauto.
Qed.

(** In a real run with a reset requested, the call of [DAG.run] for a
    workflow comes directly after the reset of that workflow. *)
Lemma backfill_dag_run_after_reset a rc dag s :
  dry_run a = false → reset_dagruns a = true →
  directly_after (reset_of a) is_run_call (trace_of (backfill_dag a rc dag s)).
Proof.
  intros Hdry Hreset. pose proof (backfill_dag_run a rc dag s) as Hrun.
  assert (at_each_event
            (λ pre e, is_run_call e → ∃ pre' e', pre = pre' ++ [e'] ∧ reset_of a e' e)
            (selection_events a dag)) as Hsel.
  { apply at_each_event_always.
    eapply Forall_impl; [apply selection_events_no_run_call|].
    intros e (Hno & _) pre HQ. by destruct Hno. }
  destruct (selection a dag) as [sub|]; [|by rewrite Hrun].
  rewrite Hdry in Hrun. destruct Hrun as (r & s' & rt & -> & Htail).
  unfold trace_of, directly_after, clear_events. simpl. rewrite Hreset.
  apply at_each_event_app; [apply directly_after_mono|done|].
  apply (at_each_event_app_strong _ [_]).
  { apply at_each_event_always. by repeat constructor. }
  intros [|x pre2] e post2 Heq HQ; simplify_eq/=.
  - exists [], (ClearDags [dag_id sub] (start_date a) (end_date a)
                  (negb (yes a)) true QUEUED). done.
  - assert (e ∈ pre2 ++ e :: post2) as He by set_solver.
    destruct (run_tail_elem _ _ _ _ _ Htail He) as [[ld ->]|[m ->]]; done.
Qed.

(** With a task pattern, that reset comes directly after the selection of
    the tasks of the workflow. *)
Lemma backfill_dag_reset_after_selection a rc dag s :
  truthy (task_regex a) = true →
  directly_after selection_of is_reset (trace_of (backfill_dag a rc dag s)).
Proof.
  intros Hre. pose proof (backfill_dag_run a rc dag s) as Hrun.
  assert (selection_events a dag
          = [PartialSubset (dag_id dag) (default "" (task_regex a))
               (negb (ignore_dependencies a))]) as Hsel.
  { unfold selection_events. by rewrite Hre. }
  destruct (selection a dag) as [sub|] eqn:Hsub; cycle 1.
  { rewrite Hrun, Hsel. apply at_each_event_always. by repeat constructor. }
  apply selection_dag_id in Hsub.
  destruct (dry_run a) eqn:Hdry.
  - apply at_each_event_always.
    eapply Forall_impl; [apply (backfill_dag_emitted a rc dag s)|].
    intros e He pre HQ. destruct He; try done. congruence.
  - destruct Hrun as (r & s' & rt & -> & Htail).
    unfold trace_of, directly_after, clear_events. simpl. rewrite Hsel.
    assert (∀ pre2 e post2,
              DagRunCall (dag_id sub) (task_ids sub) (run_kwargs a rc) :: rt
              = pre2 ++ e :: post2 → ¬ is_reset e) as Hrest.
    { intros [|x pre2] e post2 Heq; simplify_eq/=; [tauto|].
      assert (e ∈ pre2 ++ e :: post2) as He by set_solver.
      destruct (run_tail_elem _ _ _ _ _ Htail He) as [[ld ->]|[m ->]]; tauto. }
    destruct (reset_dagruns a).
    + apply (at_each_event_app_strong _ [_; _]).
      * intros [|x [|y pre]] e post Heq HQ; simplify_eq/=;
          [done| |by destruct pre].
        exists [], (PartialSubset (dag_id dag) (default "" (task_regex a))
                      (negb (ignore_dependencies a))).
        split; [done|]. rewrite Hsub. eauto.
      * intros pre2 e post2 Heq HQ. by destruct (Hrest _ _ _ Heq).
    + apply (at_each_event_app_strong _ [_]).
      * apply at_each_event_always. by repeat constructor.
      * intros pre2 e post2 Heq HQ. by destruct (Hrest _ _ _ Heq).
Qed.

(** In a real run with a reset requested, every interval run comes after
    the reset of its workflow. *)
Lemma backfill_dag_reset_precedes a rc dag s :
  dry_run a = false → reset_dagruns a = true →
  reset_precedes_intervals (trace_of (backfill_dag a rc dag s)).
Proof.
  intros Hdry Hreset. pose proof (backfill_dag_run a rc dag s) as Hrun.
  assert (at_each_event
            (λ pre e, ∀ d ld, interval_of e = Some (d, ld) →
               ∃ sd ed cp, ClearDags [d] sd ed cp true QUEUED ∈ pre)
            (selection_events a dag)) as Hsel.
  { apply at_each_event_always.
    eapply Forall_impl; [apply selection_events_no_run_call|].
    intros e (_ & _ & Hno) pre d ld. by rewrite Hno. }
  destruct (selection a dag) as [sub|]; [|by rewrite Hrun].
  rewrite Hdry in Hrun. destruct Hrun as (r & s' & rt & -> & Htail).
  unfold trace_of, reset_precedes_intervals, clear_events. simpl.
  rewrite Hreset.
  apply at_each_event_app; [|done|].
  { intros t pre e H d ld Hi. destruct (H d ld Hi) as (sd & ed & cp & Hin).
    exists sd, ed, cp. set_solver. }
  apply (at_each_event_app_strong _ [_; _]).
  { intros [|x [|y pre]] e post Heq; simplify_eq/=; [done..|by destruct pre]. }
  intros pre2 e post2 Heq d ld Hi.
  assert (e ∈ pre2 ++ e :: post2) as He by set_solver. rewrite <-Heq in He.
  destruct (run_tail_elem _ _ _ _ _ Htail He) as [[ld' ->]|[m ->]]; [|done].
  simpl in Hi. simplify_eq. eexists _, _, _. simpl. apply list_elem_of_here.
Qed.

End Reset.
Section ResetClaim.
Context {W : World}.

(** C2, as the code has it: a dry run performs no reset, requested or not.
    A real run with a reset requested performs it for every workflow it
    runs: the call of [DAG.run] for a workflow comes directly after the
    reset of that workflow over the window, every interval run comes after
    it, and with a task pattern the reset comes directly after the
    selection of the tasks. *)
Theorem reset_in_real_runs_only args dag s :
  let tr := trace_of (dag_backfill args dag s) in
  if dry_run args
  then Forall (λ e, ¬ is_reset e) tr
  else reset_dagruns args = true →
       directly_after (reset_of (loop_args args)) is_run_call tr
       ∧ reset_precedes_intervals tr
       ∧ (truthy (task_regex args) = true →
          directly_after selection_of is_reset tr).
Proof.
  cbv zeta. destruct (dry_run args) eqn:Hdry.
  { eapply Forall_impl; [apply dag_backfill_emitted|].
    intros e He. destruct He; try tauto.
    rewrite loop_args_dry_run in *. congruence. }
  intros Hreset.
  rewrite <-loop_args_dry_run in Hdry.
  rewrite <-loop_args_reset_dagruns in Hreset.
  split; [|split].
  - apply at_each_event_dag_backfill; [apply directly_after_mono|done..|].
    intros d s'. by apply backfill_dag_run_after_reset.
  - apply at_each_event_dag_backfill; [|done..|].
    { intros t pre e H d ld Hi. destruct (H d ld Hi) as (sd & ed & cp & Hin).
      exists sd, ed, cp. set_solver. }
    intros d s'. by apply backfill_dag_reset_precedes.
  - intros Hre. rewrite <-loop_args_task_regex in Hre.
    apply at_each_event_dag_backfill; [apply directly_after_mono|done..|].
    intros d s'. by apply backfill_dag_reset_after_selection.
Qed.

End ResetClaim.

Lemma reset_in_real_runs_only_witness :
  let tr := trace_of (@dag_backfill Demo.world
                        (Demo.with_flags false false true (Some "t1"))
                        (OneDag Demo.etl) []) in
  reset_precedes_intervals tr ∧ directly_after selection_of is_reset tr.
Proof.
  destruct (@reset_in_real_runs_only Demo.world
              (Demo.with_flags false false true (Some "t1"))
              (OneDag Demo.etl) [] eq_refl) as (_ & Hbefore & Hafter).
  split; [exact Hbefore|exact (Hafter eq_refl)].
Defined.

(** C2 as worded fails: a dry run with a reset requested goes through its
    intervals without any reset. *)
Lemma dry_run_skips_requested_reset :
  ¬ @reset_whenever_requested Demo.world
      (Demo.with_flags true false true None) (OneDag Demo.etl) [].
Proof.
  intros H. specialize (H eq_refl).
  set (tr := trace_of _) in H. vm_compute in tr. subst tr.
  destruct (H [Print "Dry run of DAG etl on 1"]
              (NewDagRun "etl" 1 (1%Z, 2%Z)) _ eq_refl "etl" 1%Z eq_refl)
    as (sd & ed & cp & Hin).
  inv Hin as [|??? Hin']. inv Hin'.
Qed.

Example real_run_with_reset :
  take 3 (trace_of (@dag_backfill Demo.world
                      (Demo.with_flags false false true (Some "t1"))
                      (OneDag Demo.etl) []))
  = [PartialSubset "etl" "t1" true;
     ClearDags ["etl"] (Some 1%Z) (Some 2%Z) true true QUEUED;
     DagRunCall "etl" ["t0"; "t1"]
       (@run_kwargs Demo.world
          (loop_args (Demo.with_flags false false true (Some "t1"))) None)].
Proof. by vm_compute. Qed.

(** ** An empty task selection *)

Section EmptySelection.
Context {W : World}.

(** C3, as the code has it: the emptiness of the selection is checked
    workflow by workflow, at the head of the turn of the loop for that
    workflow.  When the pattern selects no task of workflow [d], the
    invocation does to the workflows before [d] what it would have done
    without [d], and then ends with the error, unless it had ended before:
    nothing of [d] and of the workflows after it is touched.  For the first
    workflow in order this is before any interval at all. *)
Theorem empty_selection_aborts_at_its_workflow args pre d post s :
  selection (default_dates args) d = None →
  let full := _run_dag_backfill (pre ++ d :: post) args s in
  let before := _run_dag_backfill pre args s in
  store_of full = store_of before
  ∧ processed_intervals (trace_of full) = processed_intervals (trace_of before)
  ∧ match result_of before with
    | Ok _ =>
        result_of full
        = Raise (AirflowException
                   (no_tasks_message (default "" (task_regex args))))
        ∧ trace_of full
          = trace_of before ++ selection_events (default_dates args) d
    | Raise e => result_of full = Raise e ∧ trace_of full = trace_of before
    end
  ∧ (pre = [] → processed_intervals (trace_of full) = [] ∧ store_of full = s).
Proof.
  intros Hsel. cbv zeta.
  assert (store_of (_run_dag_backfill (pre ++ d :: post) args s)
          = store_of (_run_dag_backfill pre args s)
          ∧ processed_intervals (trace_of (_run_dag_backfill (pre ++ d :: post) args s))
            = processed_intervals (trace_of (_run_dag_backfill pre args s))
          ∧ match result_of (_run_dag_backfill pre args s) with
            | Ok _ =>
                result_of (_run_dag_backfill (pre ++ d :: post) args s)
                = Raise (AirflowException
                           (no_tasks_message (default "" (task_regex args))))
                ∧ trace_of (_run_dag_backfill (pre ++ d :: post) args s)
                  = trace_of (_run_dag_backfill pre args s)
                    ++ selection_events (default_dates args) d
            | Raise e =>
                result_of (_run_dag_backfill (pre ++ d :: post) args s) = Raise e
                ∧ trace_of (_run_dag_backfill (pre ++ d :: post) args s)
                  = trace_of (_run_dag_backfill pre args s)
            end) as (Hstore & Hproc & Hres).
  { rewrite !run_dag_backfill_run.
    destruct (conf_malformed args); [done|].
    rewrite for_each_app. unfold bind.
    destruct (for_each pre _ s) as [[[[]|e] s0] t0]; [|done].
    rewrite for_each_cons. unfold bind.
    pose proof (backfill_dag_run (default_dates args) (parsed_conf args) d s0)
      as Hrun.
    rewrite Hsel in Hrun. rewrite Hrun.
    unfold store_of, trace_of, result_of. simpl.
    rewrite processed_intervals_app, processed_selection_events, app_nil_r.
    done. }
  split; [done|]. split; [done|]. split; [done|].
  intros ->. rewrite Hstore, Hproc, run_dag_backfill_run.
  by destruct (conf_malformed args).
Qed.

End EmptySelection.

Lemma empty_selection_aborts_at_its_workflow_witness :
  store_of (@_run_dag_backfill Demo.world [Demo.etl; Demo.report]
              (Demo.with_flags false false false (Some "t2")) [])
  = store_of (@_run_dag_backfill Demo.world [Demo.etl]
                (Demo.with_flags false false false (Some "t2")) [])
  ∧ processed_intervals
      (trace_of (@_run_dag_backfill Demo.world [Demo.report]
                   (Demo.with_flags false false false (Some "t2")) []))
    = [].
Proof.
  split.
  - apply (@empty_selection_aborts_at_its_workflow Demo.world
             (Demo.with_flags false false false (Some "t2"))
             [Demo.etl] Demo.report [] []).
    by vm_compute.
  - assert (@selection Demo.world
              (default_dates (Demo.with_flags false false false (Some "t2")))
              Demo.report = None) as Hnone by (by vm_compute).
    destruct (@empty_selection_aborts_at_its_workflow Demo.world
                (Demo.with_flags false false false (Some "t2"))
                [] Demo.report [] [] Hnone) as (_ & _ & _ & Hfirst).
    exact (proj1 (Hfirst eq_refl)).
Defined.

(** C3 as worded fails: with two workflows targeted and a pattern that
    matches a task of the first only, the first workflow is run over the
    whole window before the error for the second ends the invocation. *)
Lemma empty_selection_after_earlier_workflows_ran :
  ¬ @aborts_before_any_interval Demo.world
      (Demo.with_flags false false false (Some "t2"))
      (DagList [Demo.report; Demo.etl]) [].
Proof.
  intros H. destruct H as (_ & Hnone & _).
  - exists Demo.report. split; [|by vm_compute].
    vm_compute. apply list_elem_of_further, list_elem_of_here.
  - vm_compute in Hnone. discriminate Hnone.
Qed.

Example two_workflows_one_without_match :
  let out := @dag_backfill Demo.world
               (Demo.with_flags false false false (Some "t2"))
               (DagList [Demo.report; Demo.etl]) [] in
  result_of out
  = Raise (AirflowException
             "There are no tasks that match 't2' regex. Nothing to run, exiting...")
  ∧ processed_intervals (trace_of out) = [("etl", 1%Z); ("etl", 2%Z)]
  ∧ store_of out = [("etl", 1%Z, SUCCESS); ("etl", 2%Z, SUCCESS)].
Proof. by vm_compute. Qed.

(** ** The output of a dry run *)

Section Lines.
Context {W : World}.

Lemma printed_selection_events a dag : printed (selection_events a dag) = [].
Proof. unfold selection_events. by destruct (truthy _). Qed.

Lemma printed_task_events sub ld ts :
  printed (flat_map (λ t, [Print (located_line sub t);
                           TaskDryRun (task_id t) (dag_id sub) ld]) ts)
  = located_line sub <$> ts.
Proof.
  induction ts as [|t ts IH]; [done|]. cbn [flat_map app].
  by rewrite !printed_cons, IH.
Qed.

Lemma printed_dry_run_events a sub :
  printed (dry_run_events a sub) = dry_run_lines a sub.
Proof.
  unfold dry_run_events, dry_run_lines. rewrite printed_cons.
  cbn [printed_line]. f_equal.
  induction (iter_dagrun_infos_between sub (start_date a) (end_date a))
    as [|i l IH]; [done|].
  cbn [flat_map]. rewrite <-app_comm_cons, printed_cons. cbn [printed_line].
  by rewrite printed_app, IH, printed_task_events.
Qed.

Lemma loop_printed_dry_run a rc dags s :
  dry_run a = true →
  printed (trace_of (for_each dags (backfill_dag a rc) s))
  = flat_map (dry_run_lines a) (reached a dags).
Proof.
  intros Hdry. revert s. induction dags as [|dag dags IH]; intros s; [done|].
  rewrite for_each_cons. unfold bind. simpl reached.
  pose proof (backfill_dag_run a rc dag s) as Hrun. rewrite Hdry in Hrun.
  destruct (selection a dag) as [sub|]; rewrite Hrun; cycle 1.
  { unfold trace_of. simpl. apply printed_selection_events. }
  specialize (IH s). destruct (for_each dags _ s) as [[r s'] t].
  unfold trace_of in *. simpl in *.
  by rewrite !printed_app, printed_selection_events, printed_dry_run_events, IH.
Qed.

Lemma length_dry_run_lines a sub :
  length (dry_run_lines a sub)
  = S (length (iter_dagrun_infos_between sub (start_date a) (end_date a))
       * length (tasks sub)).
Proof.
  unfold dry_run_lines. simpl. f_equal.
  induction (iter_dagrun_infos_between sub (start_date a) (end_date a))
    as [|i l IH]; [done|].
  simpl. by rewrite length_app, length_fmap, IH.
Qed.

(** C6, as the code has it: a dry run prints, for every workflow it
    reaches, one header line and then, interval after interval, one line
    per selected task.  The line is [Task <task> located in DAG <workflow>]:
    it names the task and the workflow, not the interval or its run, so a
    workflow with [n] intervals and [m] selected tasks gets [1 + n * m]
    lines, the line of each task [n] times. *)
Theorem dry_run_prints_one_line_per_interval_and_task args dag s :
  dry_run args = true →
  let a := loop_args args in
  printed (trace_of (dag_backfill args dag s))
  = (if no_bounds args || conf_malformed args then []
     else flat_map (dry_run_lines a) (reached a (target_dags args dag)))
  ∧ ∀ sub,
      dry_run_lines a sub
      = dry_run_header a sub
        :: flat_map (λ _, (λ t, "Task " +:+ task_id t +:+ " located in DAG "
                                +:+ dag_id sub) <$> tasks sub)
             (iter_dagrun_infos_between sub (start_date a) (end_date a))
      ∧ length (dry_run_lines a sub)
        = S (length (iter_dagrun_infos_between sub (start_date a) (end_date a))
             * length (tasks sub)).
Proof.
  intros Hdry. cbv zeta. split.
  - unfold printed at 1. rewrite dag_backfill_omap by done.
    destruct (_ || _); [done|].
    apply loop_printed_dry_run. by rewrite loop_args_dry_run.
  - intros sub. split; [done|]. apply length_dry_run_lines.
Qed.

End Lines.

Lemma dry_run_prints_one_line_per_interval_and_task_witness :
  printed (trace_of (@dag_backfill Demo.world
                       (Demo.with_flags true false false (Some "t1"))
                       (OneDag Demo.etl) []))
  = ["Dry run of DAG etl on 1";
     "Task t0 located in DAG etl"; "Task t1 located in DAG etl";
     "Task t0 located in DAG etl"; "Task t1 located in DAG etl"].
Proof.
  rewrite (proj1 (@dry_run_prints_one_line_per_interval_and_task Demo.world
                    (Demo.with_flags true false false (Some "t1"))
                    (OneDag Demo.etl) [] eq_refl)).
  by vm_compute.
Defined.

(** C6 as worded fails: over the days 1 and 2 the lines for a task are the
    same for both days, so they do not tell the run of which interval the
    task is located in. *)
Lemma dry_run_lines_do_not_name_the_interval :
  ¬ @lines_name_their_run Demo.world
      (Demo.with_flags true false false (Some "t0")) (OneDag Demo.etl) [].
Proof.
  intros (header & line_of & Hinj & Heq).
  vm_compute in Heq. injection Heq as _ Hday1 Hday2.
  pose proof (Hinj _ _ _ _ _ (eq_trans (eq_sym Hday1) Hday2)) as Hsame.
  discriminate Hsame.
Qed.

(** ** The task subset *)

Section Subset.
Context {W : World}.

Lemma size_list_to_set_le (l : list string) :
  size (list_to_set l : gset string) ≤ length l.
Proof.
  induction l as [|x l IH]; [done|].
  simpl. rewrite size_union_alt, size_singleton.
  assert (size (list_to_set l ∖ {[x]} : gset string)
          ≤ size (list_to_set l : gset string)).
  { apply subseteq_size. intros y Hy. by apply elem_of_difference in Hy as [Hy _]. }
  lia.
Qed.

Lemma matched_within dag regex : matched dag regex ⊆ id_set dag.
Proof.
  intros x. unfold matched, id_set, task_ids.
  rewrite !elem_of_list_to_set, !list_elem_of_fmap.
  intros (t & -> & Ht). apply list_elem_of_filter in Ht as [_ Ht]. eauto.
Qed.

Lemma elem_of_upstream_step dag sel u :
  u ∈ upstream_step dag sel
  ↔ u ∈ sel
    ∨ ∃ t, t ∈ tasks dag ∧ task_id t ∈ sel
           ∧ u ∈ upstream_task_ids t ∧ u ∈ task_ids dag.
Proof.
  unfold upstream_step. rewrite elem_of_union, elem_of_union_list.
  split; (intros [?|H]; [by left|right]).
  - destruct H as (X & HX & Hu).
    apply list_elem_of_fmap in HX as (t & -> & Ht).
    destruct (decide (task_id t ∈ sel)); [|set_solver].
    exists t. unfold id_set in Hu.
    apply elem_of_intersection in Hu as [Hu Hid].
    by rewrite !elem_of_list_to_set in *.
  - destruct H as (t & Ht & Hsel & Hu & Hid).
    eexists. split; [apply list_elem_of_fmap; eauto|]. simpl.
    rewrite decide_True by done. unfold id_set.
    apply elem_of_intersection. by rewrite !elem_of_list_to_set.
Qed.

Lemma upstream_step_extends dag sel : sel ⊆ upstream_step dag sel.
Proof. intros u Hu. apply elem_of_upstream_step. by left. Qed.

Lemma upstream_step_within dag sel :
  sel ⊆ id_set dag → upstream_step dag sel ⊆ id_set dag.
Proof.
  intros Hsel u Hu. apply elem_of_upstream_step in Hu as [Hu|(t & _ & _ & _ & Hu)].
  - by apply Hsel.
  - unfold id_set. by apply elem_of_list_to_set.
Qed.

Lemma upstream_closure_within n dag sel :
  sel ⊆ id_set dag → upstream_closure n dag sel ⊆ id_set dag.
Proof.
  revert sel. induction n as [|n IH]; intros sel Hsel; [done|].
  simpl. by apply IH, upstream_step_within.
Qed.

Lemma upstream_closure_extends n dag sel : sel ⊆ upstream_closure n dag sel.
Proof.
  revert sel. induction n as [|n IH]; intros sel; [done|].
  simpl. etrans; [apply upstream_step_extends|apply IH].
Qed.

Lemma upstream_closure_fixed n dag sel :
  upstream_step dag sel = sel → upstream_closure n dag sel = sel.
Proof. intros Hfix. induction n as [|n IH]; [done|]. simpl. by rewrite Hfix. Qed.

(** Either the iteration has come to rest, or every step so far has added
    a task. *)
Lemma upstream_closure_saturates n dag sel :
  upstream_step dag (upstream_closure n dag sel) = upstream_closure n dag sel
  ∨ size sel + n ≤ size (upstream_closure n dag sel).
Proof.
  revert sel. induction n as [|n IH]; intros sel.
  { right. simpl. lia. }
  simpl. destruct (decide (size (upstream_step dag sel) ≤ size sel)) as [Hle|Hgt].
  - left.
    assert (upstream_step dag sel = sel) as Hfix.
    { symmetry. apply set_subseteq_size_eq; [apply upstream_step_extends|done]. }
    by rewrite Hfix, upstream_closure_fixed.
  - destruct (IH (upstream_step dag sel)) as [?|?]; [by left|right]. lia.
Qed.

(** With as many steps as the DAG has tasks the iteration has come to
    rest. *)
Lemma upstream_closure_closed dag sel :
  sel ⊆ id_set dag →
  upstream_step dag (upstream_closure (length (tasks dag)) dag sel)
  = upstream_closure (length (tasks dag)) dag sel.
Proof.
  intros Hsel.
  destruct (upstream_closure_saturates (length (tasks dag)) dag sel)
    as [?|Hbig]; [done|].
  assert (size (upstream_closure (length (tasks dag)) dag sel)
          ≤ length (tasks dag)) as Hsmall.
  { etrans; [apply subseteq_size, upstream_closure_within, Hsel|].
    unfold id_set, task_ids. etrans; [apply size_list_to_set_le|].
    by rewrite length_fmap. }
  assert (sel = ∅) as -> by (apply leibniz_equiv, size_empty_iff; lia).
  assert (upstream_step dag ∅ = ∅) as Hfix.
  { apply set_eq. intros u. rewrite elem_of_upstream_step. split; [|done].
    intros [Hu|(t & _ & Hu & _)]; [done|]. by apply not_elem_of_empty in Hu. }
  by rewrite upstream_closure_fixed.
Qed.

Lemma elem_of_task_ids_partial_subset dag regex up u :
  u ∈ task_ids (partial_subset dag regex up)
  ↔ u ∈ task_ids dag
    ∧ u ∈ (if up then upstream_closure (length (tasks dag)) dag (matched dag regex)
           else matched dag regex).
Proof.
  unfold task_ids, partial_subset. simpl. rewrite !list_elem_of_fmap. split.
  - intros (t & -> & Ht). apply list_elem_of_filter in Ht as [Hsel Ht]. eauto.
  - intros [(t & -> & Ht) Hsel]. exists t. split; [done|].
    by apply list_elem_of_filter.
Qed.

(** With upstream inclusion the selected tasks are closed under the
    upstream relation of the DAG. *)
Lemma partial_subset_upstream_closed dag regex :
  upstream_closed dag (partial_subset dag regex true).
Proof.
  intros t u Ht Hu Hid. apply elem_of_task_ids_partial_subset. split; [done|].
  simpl in Ht. apply list_elem_of_filter in Ht as [Hsel Ht].
  rewrite <-upstream_closure_closed by apply matched_within.
  apply elem_of_upstream_step. right. eauto.
Qed.

(** The selection holds every direct match. *)
Lemma partial_subset_matches dag regex up t :
  t ∈ tasks dag → re_match regex (task_id t) = true →
  t ∈ tasks (partial_subset dag regex up).
Proof.
  intros Ht Hre. simpl. apply list_elem_of_filter. split; [|done].
  assert (task_id t ∈ matched dag regex) as Hm.
  { unfold matched. apply elem_of_list_to_set, list_elem_of_fmap.
    exists t. split; [done|]. apply list_elem_of_filter. split; [|done].
    by rewrite Hre. }
  destruct up; [|done]. by apply upstream_closure_extends.
Qed.

(** And nothing but direct matches and what they reach upstream. *)
Lemma upstream_closure_reached n dag regex u :
  u ∈ upstream_closure n dag (matched dag regex) →
  ∃ m, m ∈ matched dag regex ∧ upstream_path dag m u.
Proof.
  assert (∀ sel,
    (∀ x, x ∈ sel → ∃ m, m ∈ matched dag regex ∧ upstream_path dag m x) →
    ∀ x, x ∈ upstream_closure n dag sel →
         ∃ m, m ∈ matched dag regex ∧ upstream_path dag m x) as Hgen.
  { induction n as [|n IH]; intros sel Hsel x Hx; [by apply Hsel|].
    simpl in Hx. eapply IH; [|exact Hx].
    intros y Hy. apply elem_of_upstream_step in Hy as [Hy|(t & Ht & Hts & Hy & Hid)].
    - by apply Hsel.
    - destruct (Hsel _ Hts) as (m & Hm & Hpath).
      exists m. split; [done|]. by eapply upstream_next. }
  apply Hgen. intros x Hx. exists x. split; [done|].
  constructor. by apply matched_within, elem_of_list_to_set in Hx.
Qed.

Lemma partial_subset_reached dag regex up t :
  t ∈ tasks (partial_subset dag regex up) →
  ∃ m, m ∈ matched dag regex ∧ upstream_path dag m (task_id t).
Proof.
  intros Ht. simpl in Ht. apply list_elem_of_filter in Ht as [Hsel Ht].
  destruct up; [by eapply upstream_closure_reached|].
  exists (task_id t). split; [done|]. constructor.
  by apply list_elem_of_fmap_2.
Qed.

Lemma selection_tasks a dag sub :
  selection a dag = Some sub →
  tasks sub ⊆ tasks dag
  ∧ (ignore_dependencies a = false → upstream_closed dag sub).
Proof.
  unfold selection. destruct (truthy (task_regex a)).
  - simpl. destruct (bool_decide _); [done|]. intros [= <-]. split.
    + intros t Ht. simpl in Ht. by apply list_elem_of_filter in Ht as [_ Ht].
    + intros ->. apply partial_subset_upstream_closed.
  - intros [= <-]. split; [done|]. intros _ t u _ _ Hu. done.
Qed.

End Subset.

(** The scenario of the specification: tasks [t0 → t1 → t2], pattern
    [t2]. *)
Example subset_with_and_without_upstream :
  task_ids (@partial_subset Demo.world Demo.etl "t2" true) = ["t0"; "t1"; "t2"]
  ∧ task_ids (@partial_subset Demo.world Demo.etl "t2" false) = ["t2"].
Proof. by vm_compute. Qed.

(** ** One subset for all intervals *)

Section SameSubset.
Context {W : World}.

Lemma leading_tasks_app t1 t2 :
  leading_tasks t2 = [] → leading_tasks (t1 ++ t2) = leading_tasks t1.
Proof.
  intros H. induction t1 as [|e t1 IH]; [done|].
  destruct e; simpl; by rewrite ?IH.
Qed.

Lemma interval_blocks_app t1 t2 :
  leading_tasks t2 = [] →
  interval_blocks (t1 ++ t2) = interval_blocks t1 ++ interval_blocks t2.
Proof.
  intros H. induction t1 as [|e t1 IH]; [done|].
  destruct e; simpl; by rewrite ?IH, ?leading_tasks_app.
Qed.

Lemma task_events_blocks sub ld ts rest :
  leading_tasks
    (flat_map (λ t, [Print (located_line sub t);
                     TaskDryRun (task_id t) (dag_id sub) ld]) ts ++ rest)
  = (task_id <$> ts) ++ leading_tasks rest
  ∧ interval_blocks
      (flat_map (λ t, [Print (located_line sub t);
                       TaskDryRun (task_id t) (dag_id sub) ld]) ts ++ rest)
    = interval_blocks rest.
Proof.
  induction ts as [|t ts [IH1 IH2]]; [done|].
  cbn [flat_map app]. simpl. by rewrite IH1, IH2.
Qed.

Lemma dry_run_intervals_blocks sub (l : list DagRunInfo) :
  let events :=
    flat_map
      (λ i, NewDagRun (dag_id sub) (logical_date i) (data_interval i)
            :: flat_map (λ t, [Print (located_line sub t);
                               TaskDryRun (task_id t) (dag_id sub) (logical_date i)])
                 (tasks sub)) l in
  leading_tasks events = []
  ∧ interval_blocks events
    = (λ i, (dag_id sub, logical_date i, task_ids sub)) <$> l.
Proof.
  cbv zeta. induction l as [|i l [IH1 IH2]]; [done|].
  cbn [flat_map]. rewrite <-app_comm_cons. split; [done|].
  cbn [interval_blocks].
  destruct (task_events_blocks sub (logical_date i) (tasks sub)
              (flat_map
                 (λ i, NewDagRun (dag_id sub) (logical_date i) (data_interval i)
                       :: flat_map (λ t, [Print (located_line sub t);
                                          TaskDryRun (task_id t) (dag_id sub)
                                            (logical_date i)])
                            (tasks sub)) l)) as [-> ->].
  by rewrite IH1, IH2, app_nil_r, fmap_cons.
Qed.

Lemma run_tail_blocks a sub r rt :
  run_tail a sub r rt →
  Forall (λ b, b.1.1 = dag_id sub ∧ b.2 = task_ids sub) (interval_blocks rt).
Proof.
  intros (Hall & _). induction Hall as [|e rt [[ld ->]|[m ->]] _ IH]; simpl; auto.
Qed.

(** In one turn of the loop every interval is handled with the tasks of
    the selection made at the head of the turn. *)
Lemma backfill_dag_blocks a rc dag s :
  leading_tasks (trace_of (backfill_dag a rc dag s)) = []
  ∧ Forall (λ b, ∃ sub, selection a dag = Some sub
                        ∧ b.1.1 = dag_id sub ∧ b.2 = task_ids sub)
      (interval_blocks (trace_of (backfill_dag a rc dag s))).
Proof.
  pose proof (backfill_dag_run a rc dag s) as Hrun.
  assert (∀ t, leading_tasks t = [] →
            leading_tasks (selection_events a dag ++ t) = []
            ∧ interval_blocks (selection_events a dag ++ t) = interval_blocks t)
    as Hsel.
  { intros t Ht. unfold selection_events. by destruct (truthy _). }
  destruct (selection a dag) as [sub|]; cycle 1.
  { rewrite Hrun. unfold trace_of. simpl.
    destruct (Hsel [] eq_refl) as [H1 H2]. rewrite app_nil_r in *.
    by rewrite H1, H2. }
  destruct (dry_run a).
  - rewrite Hrun. unfold trace_of. simpl.
    destruct (dry_run_intervals_blocks sub
                (iter_dagrun_infos_between sub (start_date a) (end_date a)))
      as [Hl Hb].
    destruct (Hsel (dry_run_events a sub)) as [-> ->]; [done|].
    split; [done|]. unfold dry_run_events. cbn [interval_blocks].
    rewrite Hb. apply Forall_fmap, Forall_true. intros i. simpl. eauto.
  - destruct Hrun as (r & s' & rt & -> & Htail).
    unfold trace_of. simpl.
    assert (leading_tasks
              (clear_events a sub
               ++ DagRunCall (dag_id sub) (task_ids sub) (run_kwargs a rc) :: rt)
            = []
            ∧ interval_blocks
                (clear_events a sub
                 ++ DagRunCall (dag_id sub) (task_ids sub) (run_kwargs a rc) :: rt)
              = interval_blocks rt) as [Hl Hb].
    { unfold clear_events. by destruct (reset_dagruns a). }
    destruct (Hsel _ Hl) as [-> ->]. split; [done|]. rewrite Hb.
    eapply Forall_impl; [by eapply run_tail_blocks|].
    intros b [? ?]. eauto.
Qed.

Lemma loop_blocks a rc dags s :
  leading_tasks (trace_of (for_each dags (backfill_dag a rc) s)) = []
  ∧ Forall (λ b, ∃ d sub, d ∈ dags ∧ selection a d = Some sub
                          ∧ b.1.1 = dag_id sub ∧ b.2 = task_ids sub)
      (interval_blocks (trace_of (for_each dags (backfill_dag a rc) s))).
Proof.
  revert s.
  apply (for_each_trace
           (λ t, leading_tasks t = []
                 ∧ Forall (λ b, ∃ d sub, d ∈ dags ∧ selection a d = Some sub
                                         ∧ b.1.1 = dag_id sub ∧ b.2 = task_ids sub)
                     (interval_blocks t))).
  - done.
  - intros t1 t2 [H1 H1'] [H2 H2'].
    rewrite leading_tasks_app, interval_blocks_app by done.
    split; [done|]. by apply Forall_app.
  - intros d s Hd. destruct (backfill_dag_blocks a rc d s) as [Hl Hb].
    split; [done|]. eapply Forall_impl; [exact Hb|].
    intros b (sub & ? & ? & ?). eauto 6.
Qed.

Lemma dag_backfill_blocks args dag s :
  interval_blocks (trace_of (dag_backfill args dag s))
  = if no_bounds args || conf_malformed args then []
    else interval_blocks
           (trace_of (for_each (target_dags args dag)
                        (backfill_dag (loop_args args) (parsed_conf args)) s)).
Proof.
  rewrite dag_backfill_run.
  assert (∀ t, interval_blocks (deprecation_warnings args ++ t)
               = interval_blocks t) as Hdep.
  { intros t. unfold deprecation_warnings.
    by destruct (ignore_first_depends_on_past args), (negb _ && _). }
  destruct (no_bounds args).
  { unfold trace_of. simpl. rewrite <-(app_nil_r (deprecation_warnings args)).
    by rewrite Hdep. }
  rewrite run_dag_backfill_run, conf_malformed_cli_args, parsed_conf_cli_args.
  destruct (conf_malformed args).
  { unfold trace_of. simpl. by rewrite Hdep. }
  pose proof (loop_blocks (loop_args args) (parsed_conf args)
                (target_dags args dag) s) as [Hl _].
  unfold loop_args in *.
  destruct (for_each _ _ s) as [[[[]|e] s'] t]; unfold trace_of in *; simpl in *.
  - rewrite Hdep, interval_blocks_app by (by destruct (1 <? _)%nat).
    destruct (1 <? _)%nat; simpl; by rewrite app_nil_r.
  - by rewrite Hdep.
Qed.

Lemma subset_calls_selection_events a dag :
  subset_calls (selection_events a dag)
  = if truthy (task_regex a)
    then [(dag_id dag, default "" (task_regex a), negb (ignore_dependencies a))]
    else [].
Proof. unfold selection_events. by destruct (truthy _). Qed.

Lemma omap_none {A B} (f : A → option B) (l : list A) :
  Forall (λ x, f x = None) l → omap f l = [].
Proof. induction 1 as [|x l Hx _ IH]; [done|]. simpl. by rewrite Hx. Qed.

Lemma subset_calls_backfill_dag a rc dag s :
  subset_calls (trace_of (backfill_dag a rc dag s))
  = subset_calls (selection_events a dag).
Proof.
  pose proof (backfill_dag_run a rc dag s) as Hrun.
  destruct (selection a dag) as [sub|]; [|by rewrite Hrun].
  destruct (dry_run a).
  - rewrite Hrun. unfold trace_of, subset_calls. simpl.
    rewrite omap_app, (omap_none _ (dry_run_events a sub)), app_nil_r; [done|].
    unfold dry_run_events. constructor; [done|].
    apply Forall_forall. intros e He.
    apply list_elem_of_In, in_flat_map in He as (i & _ & He).
    destruct He as [<-|He]; [done|].
    apply in_flat_map in He as (t & _ & He).
    by destruct He as [<-|[<-|[]]].
  - destruct Hrun as (r & s' & rt & -> & Hall & _).
    unfold trace_of, subset_calls. simpl. rewrite !omap_app.
    assert (omap subset_call_of (clear_events a sub) = []) as ->.
    { unfold clear_events. by destruct (reset_dagruns a). }
    simpl. rewrite (omap_none _ rt), app_nil_r; [done|].
    eapply Forall_impl; [exact Hall|]. by intros e [[ld ->]|[m ->]].
Qed.

(** The selection is made at most once per workflow, in the order of the
    workflows. *)
Lemma loop_subset_calls a rc dags s :
  subset_calls (trace_of (for_each dags (backfill_dag a rc) s))
  `prefix_of` flat_map (λ d, subset_calls (selection_events a d)) dags.
Proof.
  revert s. induction dags as [|d dags IH]; intros s; [done|].
  rewrite for_each_cons. unfold bind. simpl flat_map.
  pose proof (subset_calls_backfill_dag a rc d s) as Hd.
  destruct (backfill_dag a rc d s) as [[[[]|e] s1] t1];
    unfold trace_of in *; simpl in *.
  - specialize (IH s1). destruct (for_each dags _ s1) as [[r s2] t2].
    simpl in *. unfold subset_calls at 1. rewrite omap_app.
    fold (subset_calls t1). fold (subset_calls t2). rewrite Hd.
    by apply prefix_app.
  - rewrite Hd. by apply prefix_app_r.
Qed.

(** With a task pattern, one turn of the loop starts with the selection. *)
Lemma backfill_dag_selection_first a rc dag s :
  truthy (task_regex a) = true →
  ∃ rest, trace_of (backfill_dag a rc dag s)
          = PartialSubset (dag_id dag) (default "" (task_regex a))
              (negb (ignore_dependencies a)) :: rest.
Proof.
  intros Hre. pose proof (backfill_dag_run a rc dag s) as Hrun.
  unfold selection_events in Hrun. rewrite Hre in Hrun.
  destruct (selection a dag) as [sub|]; [|rewrite Hrun; by eexists].
  destruct (dry_run a); [rewrite Hrun; by eexists|].
  destruct Hrun as (r & s' & rt & -> & _). by eexists.
Qed.

Lemma backfill_dag_selection_precedes a rc dag s :
  truthy (task_regex a) = true →
  at_each_event
    (λ pre e, ∀ d ld, interval_of e = Some (d, ld) →
       ∃ regex up, PartialSubset d regex up ∈ pre)
    (trace_of (backfill_dag a rc dag s)).
Proof.
  intros Hre pre e post Heq d ld Hi.
  assert (d = dag_id dag) as ->.
  { pose proof (backfill_dag_about a rc dag s) as Habout.
    rewrite Forall_forall in Habout. apply (Habout e).
    - rewrite Heq. set_solver.
    - destruct e; simplify_eq/=; done. }
  destruct (backfill_dag_selection_first a rc dag s Hre) as [rest Hfirst].
  rewrite Hfirst in Heq. destruct pre as [|x pre]; simplify_eq/=.
  eexists _, _. apply list_elem_of_here.
Qed.

End SameSubset.

Section SubsetClaim.
Context {W : World}.

Lemma selection_calls_of_dags args (ds : list DAG) :
  flat_map (λ d, subset_calls (selection_events (loop_args args) d)) ds
  = if truthy (task_regex args)
    then (λ d, (dag_id d, default "" (task_regex args),
                negb (ignore_dependencies args))) <$> ds
    else [].
Proof.
  induction ds as [|d ds IH]; simpl.
  { by destruct (truthy _). }
  rewrite IH, subset_calls_selection_events, loop_args_task_regex,
    loop_args_ignore_dependencies.
  by destruct (truthy _).
Qed.

End SubsetClaim.

(** A real run and a dry run over two days with the pattern [t1]: both
    intervals get the tasks [t0] and [t1]. *)
Example blocks_of_a_real_and_a_dry_run :
  interval_blocks
    (trace_of (@dag_backfill Demo.world
                 (Demo.with_flags false false false (Some "t1"))
                 (OneDag Demo.etl) []))
  = [("etl", 1%Z, ["t0"; "t1"]); ("etl", 2%Z, ["t0"; "t1"])]
  ∧ interval_blocks
      (trace_of (@dag_backfill Demo.world
                   (Demo.with_flags true false false (Some "t1"))
                   (OneDag Demo.etl) []))
    = [("etl", 1%Z, ["t0"; "t1"]); ("etl", 2%Z, ["t0"; "t1"])].
Proof. by vm_compute. Qed.

(** ** The calls an invocation makes, workflow by workflow *)

Section Calls.
Context {W : World}.

Lemma run_targets_app t1 t2 :
  run_targets (t1 ++ t2) = run_targets t1 ++ run_targets t2.
Proof. apply omap_app. Qed.

Lemma subset_calls_app t1 t2 :
  subset_calls (t1 ++ t2) = subset_calls t1 ++ subset_calls t2.
Proof. apply omap_app. Qed.

Lemma run_targets_selection_events a dag :
  run_targets (selection_events a dag) = [].
Proof. unfold selection_events. by destruct (truthy _). Qed.

Lemma run_targets_dry_run_events a sub : run_targets (dry_run_events a sub) = [].
Proof.
  apply omap_none. unfold dry_run_events. constructor; [done|].
  apply Forall_forall. intros e He.
  apply list_elem_of_In, in_flat_map in He as (i & _ & He).
  destruct He as [<-|He]; [done|].
  apply in_flat_map in He as (t & _ & He).
  by destruct He as [<-|[<-|[]]].
Qed.

Lemma blocks_dry_run_events a sub :
  interval_blocks (dry_run_events a sub) = dry_run_blocks a sub.
Proof.
  unfold dry_run_events, dry_run_blocks. cbn [interval_blocks].
  apply (dry_run_intervals_blocks sub).
Qed.

(** One turn of the loop, as the readings of its trace see it. *)
Lemma backfill_dag_calls a rc dag s :
  let out := backfill_dag a rc dag s in
  subset_calls (trace_of out) = subset_calls (selection_events a dag)
  ∧ run_targets (trace_of out)
    = (if dry_run a then []
       else run_target a rc <$> option_list (selection a dag))
  ∧ leading_tasks (trace_of out) = []
  ∧ (dry_run a = true →
     interval_blocks (trace_of out)
     = from_option (dry_run_blocks a) [] (selection a dag))
  ∧ (result_of out = Ok () → is_Some (selection a dag))
  ∧ (dry_run a = true → is_Some (selection a dag) → result_of out = Ok ()).
Proof.
  cbv zeta. split; [apply subset_calls_backfill_dag|].
  split; [|split; [apply backfill_dag_blocks|]].
  - pose proof (backfill_dag_run a rc dag s) as Hrun.
    destruct (selection a dag) as [sub|].
    + destruct (dry_run a).
      * rewrite Hrun. unfold trace_of. cbn [snd].
        by rewrite run_targets_app, run_targets_selection_events,
          run_targets_dry_run_events.
      * destruct Hrun as (r & s' & rt & -> & Hall & _).
        unfold trace_of. cbn [snd].
        rewrite !run_targets_app, run_targets_selection_events.
        assert (run_targets (clear_events a sub) = []) as ->.
        { unfold clear_events. by destruct (reset_dagruns a). }
        cbn. unfold run_targets. rewrite (omap_none _ rt); [done|].
        eapply Forall_impl; [exact Hall|]. by intros e [[ld ->]|[m ->]].
    + rewrite Hrun. unfold trace_of. cbn [snd].
      rewrite run_targets_selection_events. by destruct (dry_run a).
  - pose proof (backfill_dag_run a rc dag s) as Hrun.
    assert (∀ t, leading_tasks t = [] →
              interval_blocks (selection_events a dag ++ t) = interval_blocks t)
      as Hsel.
    { intros t Ht. unfold selection_events. by destruct (truthy _). }
    destruct (selection a dag) as [sub|].
    + destruct (dry_run a).
      * rewrite Hrun. unfold trace_of, result_of. cbn [fst snd].
        split; [|split; [by eauto|done]].
        intros _. rewrite Hsel; [apply blocks_dry_run_events|].
        unfold dry_run_events. cbn [leading_tasks].
        apply (dry_run_intervals_blocks sub).
      * destruct Hrun as (r & s' & rt & -> & _).
        split; [done|]. split; [by eauto|done].
    + rewrite Hrun. unfold trace_of, result_of. cbn [fst snd].
      split; [|split; [done|by intros _ [? ?]]].
      intros _. rewrite <-(app_nil_r (selection_events a dag)).
      by rewrite Hsel.
Qed.

Lemma reached_cons a d ds :
  reached a (d :: ds)
  = match selection a d with
    | Some sub => sub :: reached a ds
    | None => []
    end.
Proof. done. Qed.

(** The workflows reached are the first ones of the list, each replaced by
    its selection. *)
Lemma reached_dag_ids a dags k :
  (k ≤ length (reached a dags))%nat →
  dag_id <$> take k (reached a dags) = dag_id <$> take k dags.
Proof.
  revert k. induction dags as [|d ds IH]; intros k Hk.
  { by destruct k. }
  rewrite reached_cons in *.
  destruct k as [|k]; [done|].
  destruct (selection a d) as [sub|] eqn:Hsel; [|simpl in Hk; lia].
  cbn [take fmap list_fmap]. cbn [length] in Hk.
  rewrite (selection_dag_id a d sub Hsel). f_equal. apply IH. lia.
Qed.

Lemma reached_length a dags : (length (reached a dags) ≤ length dags)%nat.
Proof.
  induction dags as [|d ds IH]; [done|]. rewrite reached_cons.
  destruct (selection a d); cbn [length]; lia.
Qed.

Lemma reached_selection a dags :
  Forall (λ sub, ∃ d, d ∈ dags ∧ selection a d = Some sub) (reached a dags).
Proof.
  induction dags as [|d ds IH]; [constructor|]. rewrite reached_cons.
  destruct (selection a d) as [sub|] eqn:Hsel; [|constructor].
  constructor.
  - exists d. split; [left|done].
  - eapply Forall_impl; [exact IH|]. intros x (d' & ? & ?).
    exists d'. split; [by right|done].
Qed.

(** The loop over the workflows, as the readings of its trace see it: it
    begins [n] turns and gets past the selection in [k] of them. *)
Lemma loop_calls a rc dags s :
  let out := for_each dags (backfill_dag a rc) s in
  ∃ n k : nat,
    (k ≤ n)%nat ∧ (n ≤ length dags)%nat ∧ (dags ≠ [] → 0 < n)%nat
    ∧ (k ≤ length (reached a dags))%nat
    ∧ (reached a dags ≠ [] → 0 < k)%nat
    ∧ (result_of out = Ok () → k = length dags)
    ∧ subset_calls (trace_of out)
      = flat_map (λ d, subset_calls (selection_events a d)) (take n dags)
    ∧ run_targets (trace_of out)
      = (if dry_run a then []
         else run_target a rc <$> take k (reached a dags))
    ∧ leading_tasks (trace_of out) = []
    ∧ (dry_run a = true →
       k = length (reached a dags)
       ∧ interval_blocks (trace_of out)
         = flat_map (dry_run_blocks a) (reached a dags)).
Proof.
  cbv zeta. revert s. induction dags as [|d ds IH]; intros s.
  { exists 0%nat, 0%nat. unfold result_of, trace_of. cbn.
    repeat split; try done. by destruct (dry_run a). }
  rewrite for_each_cons, reached_cons. unfold bind.
  destruct (backfill_dag_calls a rc d s)
    as (Hsub & Hrun & Hlead & Hblocks & Hok & Hdry).
  destruct (backfill_dag a rc d s) as [[r s1] t1].
  unfold result_of, trace_of in *. cbn [fst snd] in *.
  destruct r as [[]|e].
  - destruct (Hok eq_refl) as [sub Hsel]. rewrite Hsel in *.
    destruct (IH s1) as (n & k & Hkn & Hn & Hpos & Hk & Hkpos & Hres & Hsubs
                         & Hruns & Hleads & Hdrys).
    destruct (for_each ds (backfill_dag a rc) s1) as [[r2 s2] t2].
    cbn [fst snd] in *.
    exists (S n), (S k). cbn [length take flat_map].
    split; [lia|]. split; [lia|]. split; [lia|]. split; [lia|].
    split; [lia|]. split; [intros Hr; f_equal; by apply Hres|].
    split; [by rewrite subset_calls_app, Hsub, Hsubs|].
    split.
    { rewrite run_targets_app, Hrun, Hruns. by destruct (dry_run a). }
    split; [by rewrite leading_tasks_app|].
    intros Hd. destruct (Hdrys Hd) as [-> Hb]. split; [done|].
    by rewrite interval_blocks_app, (Hblocks Hd), Hb.
  - cbn [fst snd]. destruct (selection a d) as [sub|] eqn:Hsel.
    + assert (dry_run a = false) as Hreal.
      { destruct (dry_run a) eqn:Hd; [|done].
        by specialize (Hdry eq_refl (mk_is_Some _ _ eq_refl)). }
      exists 1%nat, 1%nat. cbn [length take flat_map].
      split; [lia|]. split; [lia|]. split; [lia|]. split; [lia|].
      split; [lia|]. split; [done|].
      split; [by rewrite app_nil_r|].
      split; [by rewrite Hrun, Hreal|].
      split; [done|]. by rewrite Hreal.
    + exists 1%nat, 0%nat. cbn [length take flat_map].
      split; [lia|]. split; [lia|]. split; [lia|]. split; [lia|].
      split; [done|]. split; [done|].
      split; [by rewrite app_nil_r|].
      split; [rewrite Hrun; by destruct (dry_run a)|].
      split; [done|]. intros Hd. split; [done|]. by apply Hblocks.
Qed.

Lemma target_dags_requested args dag :
  target_dags args dag = sort_by_dag_id (requested_dags args dag).
Proof. done. Qed.

Lemma dag_backfill_result args dag s :
  no_bounds args = false → conf_malformed args = false →
  result_of (dag_backfill args dag s) = Ok ()
  ↔ result_of (for_each (target_dags args dag)
                 (backfill_dag (loop_args args) (parsed_conf args)) s) = Ok ().
Proof.
  intros Hbounds Hconf.
  rewrite dag_backfill_run, Hbounds, run_dag_backfill_run,
    conf_malformed_cli_args, Hconf, parsed_conf_cli_args.
  unfold loop_args.
  by destruct (for_each _ _ s) as [[[[]|e] s'] t].
Qed.

(** An invocation that passes its two checks, as the readings of its trace
    see it. *)
Lemma dag_backfill_calls args dag s :
  let a := loop_args args in
  let rc := parsed_conf args in
  let dags := target_dags args dag in
  let out := dag_backfill args dag s in
  no_bounds args = false → conf_malformed args = false →
  ∃ n k : nat,
    (k ≤ n)%nat ∧ (n ≤ length dags)%nat ∧ (dags ≠ [] → 0 < n)%nat
    ∧ (k ≤ length (reached a dags))%nat
    ∧ (reached a dags ≠ [] → 0 < k)%nat
    ∧ (result_of out = Ok () → k = length dags)
    ∧ subset_calls (trace_of out)
      = flat_map (λ d, subset_calls (selection_events a d)) (take n dags)
    ∧ run_targets (trace_of out)
      = (if dry_run a then []
         else run_target a rc <$> take k (reached a dags))
    ∧ (dry_run a = true →
       k = length (reached a dags)
       ∧ interval_blocks (trace_of out)
         = flat_map (dry_run_blocks a) (reached a dags)).
Proof.
  intros a rc dags out Hbounds Hconf. subst out.
  destruct (loop_calls a rc dags s)
    as (n & k & Hkn & Hn & Hpos & Hk & Hkpos & Hres & Hsubs & Hruns & _ & Hdry).
  exists n, k. split; [done|]. split; [done|]. split; [done|].
  split; [done|]. split; [done|].
  split; [intros Hr; by apply Hres, dag_backfill_result|].
  unfold subset_calls at 1, run_targets at 1.
  rewrite !dag_backfill_omap, dag_backfill_blocks by done.
  rewrite Hbounds, Hconf. cbn [orb].
  split; [done|]. split; [done|]. done.
Qed.

(** An invocation that fails one of its two checks calls nothing. *)
Lemma dag_backfill_no_calls args dag s :
  no_bounds args || conf_malformed args = true →
  subset_calls (trace_of (dag_backfill args dag s)) = []
  ∧ run_targets (trace_of (dag_backfill args dag s)) = [].
Proof.
  intros Hfail. unfold subset_calls, run_targets.
  by rewrite !dag_backfill_omap, Hfail by done.
Qed.

End Calls.

Section CallClaims.
Context {W : World}.

Lemma dag_backfill_ok_checks args dag s :
  result_of (dag_backfill args dag s) = Ok () →
  no_bounds args = false ∧ conf_malformed args = false.
Proof.
  rewrite dag_backfill_run. destruct (no_bounds args); [done|].
  rewrite run_dag_backfill_run, conf_malformed_cli_args.
  by destruct (conf_malformed args).
Qed.

(** The calls of [DAG.run] of any invocation: none when a check fails or
    in a dry run, else one for each workflow whose turn got past the
    selection. *)
Lemma dag_backfill_run_targets args dag s :
  let a := loop_args args in
  let dags := target_dags args dag in
  let out := dag_backfill args dag s in
  ∃ k : nat,
    run_targets (trace_of out)
    = run_target a (parsed_conf args) <$> take k (reached a dags)
    ∧ (k ≤ length (reached a dags))%nat
    ∧ (no_bounds args = false → conf_malformed args = false →
       dry_run args = false → reached a dags ≠ [] → 0 < k)%nat
    ∧ (dry_run args = false → result_of out = Ok () → k = length dags).
Proof.
  cbv zeta.
  destruct (no_bounds args || conf_malformed args) eqn:Hfail.
  { exists 0%nat. destruct (dag_backfill_no_calls args dag s Hfail) as [_ ->].
    split; [done|]. split; [lia|]. split.
    - intros Hb Hc. by rewrite Hb, Hc in Hfail.
    - intros _ Hok. apply dag_backfill_ok_checks in Hok as [Hb Hc].
      by rewrite Hb, Hc in Hfail. }
  apply orb_false_iff in Hfail as [Hb Hc].
  destruct (dag_backfill_calls args dag s Hb Hc)
    as (n & k & Hkn & Hn & Hpos & Hk & Hkpos & Hres & _ & Hruns & _).
  rewrite (loop_args_dry_run args) in Hruns.
  destruct (dry_run args).
  - exists 0%nat. rewrite Hruns. split; [done|]. split; [lia|]. done.
  - exists k. split; [done|]. split; [done|]. split; [auto|]. auto.
Qed.

(** C8: whatever value the caller gave the flag, the keyword arguments of
    [DAG.run] carry [ignore_first_depends_on_past = True]; a real run does
    call [DAG.run] with them, once for each workflow it gets to, at least
    for the first one and for all of them when it completes; and the
    executor, given these arguments, runs the first interval of its
    sequence with the depends-on-past precondition off and the later ones
    with it on. *)
Theorem ignore_first_depends_on_past_forced args dag s :
  let a := loop_args args in
  let kw := run_kwargs a (parsed_conf args) in
  let dags := target_dags args dag in
  let out := dag_backfill args dag s in
  kw_ignore_first_depends_on_past kw = true
  ∧ (∀ info rest,
       run_steps kw (info :: rest)
       = (info, false) :: ((λ i, (i, true)) <$> rest))
  ∧ ∃ k : nat,
      run_targets (trace_of out)
      = (λ sub, (dag_id sub, task_ids sub, kw)) <$> take k (reached a dags)
      ∧ (k ≤ length (reached a dags))%nat
      ∧ (no_bounds args = false → conf_malformed args = false →
         dry_run args = false → reached a dags ≠ [] → 0 < k)%nat
      ∧ (dry_run args = false → result_of out = Ok () → k = length dags).
Proof.
  cbv zeta.
  assert (kw_ignore_first_depends_on_past
            (run_kwargs (loop_args args) (parsed_conf args)) = true)
    as Hforced.
  { apply loop_args_ignore_first. }
  split; [done|]. split.
  - intros info rest. unfold run_steps, depends_on_past_enforced.
    by rewrite Hforced.
  - apply dag_backfill_run_targets.
Qed.

(** C9: with a task pattern, the one flag [ignore_dependencies] decides
    both.  Every workflow the invocation gets to has its tasks selected
    once, with [include_upstream = not ignore_dependencies]; every call of
    [DAG.run] of a real run is made on that selection with
    [ignore_task_deps = ignore_dependencies].  With the flag set the
    selection is the direct matches and nothing else; with the flag off it
    holds the direct matches and is closed under the upstream relation. *)
Theorem include_upstream_is_not_ignore_dependencies args dag s :
  let a := loop_args args in
  let kw := run_kwargs a (parsed_conf args) in
  let regex := default "" (task_regex args) in
  let dags := target_dags args dag in
  let out := dag_backfill args dag s in
  truthy (task_regex args) = true →
  no_bounds args = false → conf_malformed args = false →
  kw_ignore_task_deps kw = ignore_dependencies args
  ∧ (∃ n k : nat,
       subset_calls (trace_of out)
       = (λ d, (dag_id d, regex, negb (ignore_dependencies args)))
         <$> take n dags
       ∧ run_targets (trace_of out)
         = (if dry_run args then []
            else (λ sub, (dag_id sub, task_ids sub, kw))
                 <$> take k (reached a dags))
       ∧ (k ≤ n)%nat ∧ (dags ≠ [] → 0 < n)%nat
       ∧ (reached a dags ≠ [] → 0 < k)%nat
       ∧ (result_of out = Ok () → n = length dags ∧ k = length dags))
  ∧ ∀ d sub, selection a d = Some sub →
      sub = partial_subset d regex (negb (ignore_dependencies args))
      ∧ (ignore_dependencies args = true →
         ∀ u, u ∈ task_ids sub ↔ u ∈ matched d regex)
      ∧ (ignore_dependencies args = false →
         upstream_closed d sub ∧ ∀ u, u ∈ matched d regex → u ∈ task_ids sub).
Proof.
  cbv zeta. intros Hre Hb Hc. split; [|split].
  - apply loop_args_ignore_dependencies.
  - destruct (dag_backfill_calls args dag s Hb Hc)
      as (n & k & Hkn & Hn & Hpos & Hk & Hkpos & Hres & Hsubs & Hruns & _).
    exists n, k.
    rewrite selection_calls_of_dags, Hre in Hsubs.
    rewrite (loop_args_dry_run args) in Hruns.
    split; [done|]. split; [done|]. split; [done|]. split; [done|].
    split; [done|]. intros Hok. specialize (Hres Hok). lia.
  - intros d sub Hsel. unfold selection in Hsel.
    rewrite loop_args_task_regex, Hre, loop_args_ignore_dependencies in Hsel.
    cbv zeta in Hsel.
    destruct (bool_decide _); [done|]. injection Hsel as <-.
    split; [done|]. split.
    + intros Hign u. rewrite Hign. cbn [negb].
      rewrite elem_of_task_ids_partial_subset. split; [by intros [_ ?]|].
      intros Hu. split; [|done].
      apply matched_within in Hu. unfold id_set in Hu.
      by apply elem_of_list_to_set in Hu.
    + intros Hign. rewrite Hign. cbn [negb].
      split; [apply partial_subset_upstream_closed|].
      intros u Hu. rewrite elem_of_task_ids_partial_subset. split.
      * apply matched_within in Hu. unfold id_set in Hu.
        by apply elem_of_list_to_set in Hu.
      * by apply upstream_closure_extends.
Qed.

(** C10: the workflows an invocation takes are the ones requested, each as
    often as it was requested, in ascending order of the identifier.  They
    are taken one after the other: the events come workflow after workflow
    in that order; a real run calls [DAG.run] for the first workflows of
    the sorted list, a dry run walks the intervals of the first workflows
    of the sorted list, and an invocation that completes has taken every
    one.  When the identifiers are distinct, the order in which the caller
    lists the workflows changes nothing at all. *)
Theorem workflows_in_ascending_id_order args dag s :
  let a := loop_args args in
  let dags := target_dags args dag in
  let out := dag_backfill args dag s in
  dags ≡ₚ requested_dags args dag
  ∧ StronglySorted by_dag_id dags
  ∧ StronglySorted String.le (workflow_order (trace_of out))
  ∧ (no_bounds args = false → conf_malformed args = false →
     ∃ k : nat,
       (k ≤ length dags)%nat
       ∧ (reached a dags ≠ [] → 0 < k)%nat
       ∧ (result_of out = Ok () → k = length dags)
       ∧ dag_id <$> take k (reached a dags) = dag_id <$> take k dags
       ∧ (dry_run args = false →
          (λ c, c.1.1) <$> run_targets (trace_of out)
          = dag_id <$> take k dags)
       ∧ (dry_run args = true →
          interval_blocks (trace_of out)
          = flat_map (dry_run_blocks a) (take k (reached a dags))))
  ∧ ∀ ds ds', ds ≡ₚ ds' → NoDup (dag_id <$> ds) →
      dag_backfill args (DagList ds) s = dag_backfill args (DagList ds') s.
Proof.
  cbv zeta.
  split; [apply sort_by_dag_id_perm|].
  split; [apply sort_by_dag_id_sorted|].
  split; [|split].
  - unfold workflow_order. rewrite dag_backfill_omap by done.
    destruct (_ || _); [constructor|].
    apply loop_workflow_order, sort_by_dag_id_sorted.
  - intros Hb Hc.
    destruct (dag_backfill_calls args dag s Hb Hc)
      as (n & k & Hkn & Hn & Hpos & Hk & Hkpos & Hres & _ & Hruns & Hdry).
    rewrite (loop_args_dry_run args) in Hruns, Hdry.
    exists k. split; [lia|]. split; [done|]. split; [done|].
    split; [by apply reached_dag_ids|]. split.
    + intros Hreal. rewrite Hreal in Hruns. rewrite Hruns.
      rewrite <-list_fmap_compose, <-(reached_dag_ids _ _ k Hk).
      done.
    + intros Hd. destruct (Hdry Hd) as [-> ->]. by rewrite firstn_all.
  - intros ds ds' Hperm Hnd.
    rewrite !dag_backfill_run.
    assert (target_dags args (DagList ds) = target_dags args (DagList ds')) as ->;
      [|done].
    unfold target_dags.
    destruct ds as [|d ds].
    { apply Permutation_nil in Hperm. by subst. }
    destruct ds' as [|d' ds'].
    { by apply Permutation_nil_r in Hperm. }
    simpl not_dag. cbv iota. by apply sort_by_dag_id_order_free.
Qed.

(** C7: the task subset of a workflow is selected once, at the head of
    the turn of the loop for that workflow and so before any of its
    intervals: with a pattern there is one selection for each workflow the
    invocation gets to, in their order.  A real run makes one call of
    [DAG.run] on that selection for the whole window; a dry run walks, for
    every interval, exactly the tasks of that selection; so every interval
    of a workflow is handled with the same tasks.  The selected tasks are
    tasks of the workflow, and with upstream inclusion enabled
    ([ignore_dependencies] off) they are closed under the upstream
    relation: no selected task has an unselected upstream task. *)
Theorem one_task_subset_for_all_intervals args dag s :
  let a := loop_args args in
  let rc := parsed_conf args in
  let dags := target_dags args dag in
  let out := dag_backfill args dag s in
  let tr := trace_of out in
  no_bounds args = false → conf_malformed args = false →
  (∃ n k : nat,
     (k ≤ n)%nat ∧ (dags ≠ [] → 0 < n)%nat ∧ (reached a dags ≠ [] → 0 < k)%nat
     ∧ (result_of out = Ok () → n = length dags ∧ k = length dags)
     ∧ subset_calls tr
       = (if truthy (task_regex args)
          then (λ d, (dag_id d, default "" (task_regex args),
                      negb (ignore_dependencies args))) <$> take n dags
          else [])
     ∧ (dry_run args = false →
        run_targets tr = run_target a rc <$> take k (reached a dags))
     ∧ (dry_run args = true →
        interval_blocks tr = flat_map (dry_run_blocks a) (reached a dags)))
  ∧ (truthy (task_regex args) = true →
     at_each_event
       (λ pre e, ∀ d ld, interval_of e = Some (d, ld) →
          ∃ regex up, PartialSubset d regex up ∈ pre) tr)
  ∧ Forall (λ b, ∃ d sub, d ∈ dags ∧ selection a d = Some sub
                          ∧ b.1.1 = dag_id sub ∧ b.2 = task_ids sub)
      (interval_blocks tr)
  ∧ ∀ sub, sub ∈ reached a dags →
      ∃ d, d ∈ dags ∧ selection a d = Some sub
           ∧ tasks sub ⊆ tasks d
           ∧ (ignore_dependencies args = false → upstream_closed d sub).
Proof.
  cbv zeta. intros Hb Hc. split; [|split; [|split]].
  - destruct (dag_backfill_calls args dag s Hb Hc)
      as (n & k & Hkn & Hn & Hpos & Hk & Hkpos & Hres & Hsubs & Hruns & Hdry).
    exists n, k.
    rewrite selection_calls_of_dags in Hsubs.
    rewrite (loop_args_dry_run args) in Hruns, Hdry.
    split; [done|]. split; [done|]. split; [done|].
    split; [intros Hok; specialize (Hres Hok); lia|].
    split; [by destruct (truthy _)|]. split.
    + intros Hreal. by rewrite Hreal in Hruns.
    + intros Hd. by destruct (Hdry Hd).
  - intros Hre. apply at_each_event_dag_backfill; [|done..|].
    { intros t pre e H d ld Hi. destruct (H d ld Hi) as (regex & up & Hin).
      exists regex, up. set_solver. }
    intros d s'. apply backfill_dag_selection_precedes.
    by rewrite loop_args_task_regex.
  - rewrite dag_backfill_blocks. destruct (_ || _); [done|].
    apply loop_blocks.
  - intros sub Hsub.
    pose proof (reached_selection (loop_args args) (target_dags args dag))
      as Hall.
    rewrite Forall_forall in Hall. destruct (Hall sub Hsub) as (d & Hd & Hsel).
    exists d. split; [done|]. split; [done|].
    apply selection_tasks in Hsel as [Hin Hclosed].
    split; [done|]. intros Hdeps. apply Hclosed.
    by rewrite loop_args_ignore_dependencies.
Qed.

End CallClaims.

Lemma ignore_first_depends_on_past_forced_witness :
  ∃ k : nat,
    run_targets
      (trace_of (@dag_backfill DemoCli.past_world
                   (Demo.with_flags false false false None)
                   (OneDag Demo.etl) []))
    = (λ sub, (dag_id sub, task_ids sub,
               @run_kwargs DemoCli.past_world
                 (loop_args (Demo.with_flags false false false None))
                 (@parsed_conf DemoCli.past_world
                    (Demo.with_flags false false false None))))
      <$> take k (@reached DemoCli.past_world
                    (loop_args (Demo.with_flags false false false None))
                    (@target_dags DemoCli.past_world
                       (Demo.with_flags false false false None)
                       (OneDag Demo.etl)))
    ∧ (0 < k)%nat.
Proof.
  destruct (@ignore_first_depends_on_past_forced DemoCli.past_world
              (Demo.with_flags false false false None) (OneDag Demo.etl) [])
    as (_ & _ & k & Hcalls & _ & Hpos & _).
  exists k. split; [exact Hcalls|].
  apply Hpos; [reflexivity..|]. vm_compute. discriminate.
Defined.

(** Where every task depends on the past, a backfill over the days 1 and 2
    from an empty store goes through although the caller left the flag
    off: day 1 is exempt, day 2 finds the success of day 1. *)
Example backfill_starts_where_tasks_depend_on_past :
  let out := @dag_backfill DemoCli.past_world
               (Demo.with_flags false false false None) (OneDag Demo.etl) [] in
  result_of out = Ok ()
  ∧ store_of out = [("etl", 1%Z, SUCCESS); ("etl", 2%Z, SUCCESS)]
  ∧ (kw_ignore_first_depends_on_past <$> run_calls (trace_of out)) = [true].
Proof. by vm_compute. Qed.

Lemma include_upstream_is_not_ignore_dependencies_witness :
  upstream_closed Demo.etl (@partial_subset Demo.world Demo.etl "t2" true)
  ∧ ∀ u, u ∈ @matched Demo.world Demo.etl "t2" →
         u ∈ task_ids (@partial_subset Demo.world Demo.etl "t2" true).
Proof.
  destruct (@include_upstream_is_not_ignore_dependencies Demo.world
              (Demo.with_flags false false false (Some "t2"))
              (OneDag Demo.etl) [] eq_refl eq_refl eq_refl)
    as (_ & _ & Hsel).
  destruct (Hsel Demo.etl (@partial_subset Demo.world Demo.etl "t2" true))
    as (_ & _ & Hclosed).
  - by vm_compute.
  - exact (Hclosed eq_refl).
Defined.

(** The same request with and without [ignore_dependencies]: the calls of
    [partial_subset] and of [DAG.run] carry the flag, and the tasks handed
    to [DAG.run] are the upstream closure or the direct match. *)
Example one_flag_two_effects :
  let calls ign :=
    let tr := trace_of (@dag_backfill Demo.world (DemoCli.with_deps_flag ign)
                          (OneDag Demo.etl) []) in
    (subset_calls tr,
     (λ c, (c.1.2, kw_ignore_task_deps c.2)) <$> run_targets tr) in
  calls false = ([("etl", "t2", true)], [(["t0"; "t1"; "t2"], false)])
  ∧ calls true = ([("etl", "t2", false)], [(["t2"], true)]).
Proof. by vm_compute. Qed.

Lemma workflows_in_ascending_id_order_witness :
  @dag_backfill Demo.world (Demo.with_flags false false false None)
    (DagList [Demo.report; Demo.etl]) []
  = @dag_backfill Demo.world (Demo.with_flags false false false None)
      (DagList [Demo.etl; Demo.report]) [].
Proof.
  apply (proj2 (proj2 (proj2 (proj2
           (@workflows_in_ascending_id_order Demo.world
              (Demo.with_flags false false false None) NoDag []))))).
  - apply Permutation_swap.
  - apply (bool_decide_unpack (NoDup _)). vm_compute. exact I.
Defined.

(** Two workflows given in descending order: [DAG.run] is called for [etl]
    first and for [report] second. *)
Example run_calls_of_two_workflows :
  (λ c, c.1.1)
  <$> run_targets
        (trace_of (@dag_backfill Demo.world
                     (Demo.with_flags false false false None)
                     (DagList [Demo.report; Demo.etl]) []))
  = ["etl"; "report"].
Proof. by vm_compute. Qed.

Lemma one_task_subset_for_all_intervals_witness :
  at_each_event
    (λ pre e, ∀ d ld, interval_of e = Some (d, ld) →
       ∃ regex up, PartialSubset d regex up ∈ pre)
    (trace_of (@dag_backfill Demo.world
                 (Demo.with_flags false false false (Some "t2"))
                 (OneDag Demo.etl) []))
  ∧ Forall (λ b, ∃ d sub,
              d ∈ @target_dags Demo.world
                    (Demo.with_flags false false false (Some "t2"))
                    (OneDag Demo.etl)
              ∧ @selection Demo.world
                  (loop_args (Demo.with_flags false false false (Some "t2"))) d
                = Some sub
              ∧ b.1.1 = dag_id sub ∧ b.2 = task_ids sub)
      (interval_blocks
         (trace_of (@dag_backfill Demo.world
                      (Demo.with_flags false false false (Some "t2"))
                      (OneDag Demo.etl) []))).
Proof.
  destruct (@one_task_subset_for_all_intervals Demo.world
              (Demo.with_flags false false false (Some "t2"))
              (OneDag Demo.etl) [] eq_refl eq_refl)
    as (_ & Hfirst & Hblocks & _).
  split; [exact (Hfirst eq_refl)|exact Hblocks].
Defined.

(** One selection and one call of [DAG.run] for the workflow, on the three
    tasks the pattern [t2] selects with its upstream tasks. *)
Example one_selection_one_call :
  let tr := trace_of (@dag_backfill Demo.world
                        (Demo.with_flags false false false (Some "t2"))
                        (OneDag Demo.etl) []) in
  subset_calls tr = [("etl", "t2", true)]
  ∧ (λ c, c.1) <$> run_targets tr = [("etl", ["t0"; "t1"; "t2"])].
Proof. by vm_compute. Qed.

(** * Further properties of the backfill *)

Section BackfillMore.
Context {W : World}.

(** The loop over the workflows writes no warning and no log line. *)
Lemma loop_no_warning_or_log a rc dags s :
  Forall (λ e, ∀ m, e ≠ Warn m ∧ e ≠ LogInfo m)
    (trace_of (for_each dags (backfill_dag a rc) s)).
Proof.
  revert s. apply for_each_trace.
  - done.
  - intros t1 t2 H1 H2. by apply Forall_app.
  - intros dag s _.
    assert (Forall (λ e, ∀ m, e ≠ Warn m ∧ e ≠ LogInfo m)
              (selection_events a dag)) as Hsel.
    { unfold selection_events. destruct (truthy _); by repeat constructor. }
    pose proof (backfill_dag_run a rc dag s) as Hrun.
    destruct (selection a dag) as [sub|]; [|by rewrite Hrun].
    destruct (dry_run a).
    + rewrite Hrun. unfold trace_of. simpl. apply Forall_app. split; [done|].
      unfold dry_run_events. constructor; [done|].
      apply Forall_forall. intros e He.
      apply list_elem_of_In, in_flat_map in He as (i & _ & He).
      destruct He as [<-|He]; [done|].
      apply in_flat_map in He as (t & _ & He).
      by destruct He as [<-|[<-|[]]].
    + destruct Hrun as (r & s' & rt & -> & Hall & _).
      unfold trace_of. simpl. apply Forall_app. split; [done|].
      apply Forall_app. split.
      { unfold clear_events. destruct (reset_dagruns a); by repeat constructor. }
      constructor; [done|].
      eapply Forall_impl; [exact Hall|]. by intros e [[ld ->]|[m ->]].
Qed.

(** X1: when only one bound of the window is given, it is used as start and
    as end: every reset and every call of [DAG.run] of the invocation gets
    that date for both. *)
Theorem single_date_is_start_and_end args dag s d :
  (start_date args = Some d ∧ end_date args = None)
  ∨ (start_date args = None ∧ end_date args = Some d) →
  Forall (λ e, match e with
               | ClearDags _ sd ed _ _ _ => sd = Some d ∧ ed = Some d
               | DagRunCall _ _ kw =>
                   kw_start_date kw = Some d ∧ kw_end_date kw = Some d
               | _ => True
               end)
    (trace_of (dag_backfill args dag s)).
Proof.
  intros Hone.
  assert (start_date (loop_args args) = Some d
          ∧ end_date (loop_args args) = Some d) as [Hs He].
  { rewrite loop_args_start_date, loop_args_end_date.
    by destruct Hone as [[-> ->]|[-> ->]]. }
  eapply Forall_impl; [apply dag_backfill_emitted|].
  intros e Hem. destruct Hem; try done; simpl; by rewrite Hs, He.
Qed.


(** X3: the closing log line [All of the backfills are done.] is written
    exactly when the invocation targeted more than one workflow and went
    through all of them without an error. *)
Theorem all_done_logged_iff args dag s :
  LogInfo all_done_message ∈ trace_of (dag_backfill args dag s)
  ↔ result_of (dag_backfill args dag s) = Ok ()
    ∧ (1 < length (target_dags args dag))%nat.
Proof.
  rewrite dag_backfill_run.
  assert (LogInfo all_done_message ∉ deprecation_warnings args) as Hdep.
  { unfold deprecation_warnings.
    destruct (ignore_first_depends_on_past args), (negb _ && _); simpl;
      rewrite ?elem_of_cons, ?elem_of_nil; intros H;
      repeat destruct H as [H|H]; done. }
  destruct (no_bounds args).
  { unfold trace_of, result_of. simpl. split; [done|]. by intros [? _]. }
  rewrite run_dag_backfill_run.
  destruct (conf_malformed (cli_args args)).
  { unfold trace_of, result_of. simpl. rewrite app_nil_r.
    split; [done|]. by intros [? _]. }
  pose proof (loop_no_warning_or_log (default_dates (cli_args args))
                (parsed_conf (cli_args args)) (target_dags args dag) s) as Hloop.
  destruct (for_each _ _ s) as [[[[]|e] s'] t];
    unfold trace_of, result_of in *; simpl in *.
  - rewrite !elem_of_app. split.
    + intros [Hin|[Hin|Hin]]; [done| |].
      * rewrite Forall_forall in Hloop. by destruct (Hloop _ Hin all_done_message).
      * split; [done|]. destruct (1 <? _)%nat eqn:Hlen.
        { by apply Nat.ltb_lt. }
        by apply elem_of_nil in Hin.
    + intros [_ Hlen]. right. right. apply Nat.ltb_lt in Hlen. rewrite Hlen.
      apply list_elem_of_here.
  - rewrite elem_of_app. split; [|by intros [? _]].
    intros [Hin|Hin]; [done|].
    rewrite Forall_forall in Hloop. by destruct (Hloop _ Hin all_done_message).
Qed.

(** X4: the deprecation warning for [--ignore-first-depends-on-past] is
    given exactly when the caller passed the flag, whatever else the
    invocation does. *)
Theorem ignore_first_warning_iff_flag_passed args dag s :
  Warn ignore_first_warning ∈ trace_of (dag_backfill args dag s)
  ↔ ignore_first_depends_on_past args = true.
Proof.
  assert (Warn ignore_first_warning ∈ deprecation_warnings args
          ↔ ignore_first_depends_on_past args = true) as Hdep.
  { unfold deprecation_warnings.
    destruct (ignore_first_depends_on_past args), (negb _ && _); simpl;
      rewrite ?elem_of_cons, ?elem_of_nil; split; intros H; auto;
      repeat destruct H as [H|H]; done. }
  rewrite dag_backfill_run.
  destruct (no_bounds args); [done|].
  rewrite run_dag_backfill_run.
  destruct (conf_malformed (cli_args args)).
  { unfold trace_of. simpl. by rewrite app_nil_r. }
  pose proof (loop_no_warning_or_log (default_dates (cli_args args))
                (parsed_conf (cli_args args)) (target_dags args dag) s) as Hloop.
  rewrite Forall_forall in Hloop.
  destruct (for_each _ _ s) as [[[[]|e] s'] t]; unfold trace_of in *; simpl in *.
  - rewrite !elem_of_app, Hdep. split; [|by left].
    intros [?|[Hin|Hin]]; [done| |].
    + by destruct (Hloop _ Hin ignore_first_warning).
    + destruct (1 <? _)%nat; rewrite ?elem_of_cons, ?elem_of_nil in Hin;
        repeat destruct Hin as [Hin|Hin]; done.
  - rewrite elem_of_app, Hdep. split; [|by left].
    intros [?|Hin]; [done|]. by destruct (Hloop _ Hin ignore_first_warning).
Qed.

(** X5: an invocation that targets no workflow at all, with a window and a
    usable payload, ends normally and does nothing but give its deprecation
    warnings. *)
Theorem no_workflow_nothing_done args dag s :
  target_dags args dag = [] →
  no_bounds args = false → conf_malformed args = false →
  dag_backfill args dag s = (Ok (), s, deprecation_warnings args).
Proof.
  intros Hnone Hbounds Hconf.
  rewrite dag_backfill_run, Hbounds, run_dag_backfill_run,
    conf_malformed_cli_args, Hconf, Hnone.
  simpl. by rewrite app_nil_r.
Qed.

End BackfillMore.

Lemma single_date_is_start_and_end_witness :
  Forall (λ e, match e with
               | ClearDags _ sd ed _ _ _ => sd = Some 1%Z ∧ ed = Some 1%Z
               | DagRunCall _ _ kw =>
                   kw_start_date kw = Some 1%Z ∧ kw_end_date kw = Some 1%Z
               | _ => True
               end)
    (trace_of (@dag_backfill Demo.world (Demo.with_window (Some 1%Z) None None)
                 (OneDag Demo.etl) [])).
Proof.
  apply (@single_date_is_start_and_end Demo.world). left. split; reflexivity.
Defined.


Lemma no_workflow_nothing_done_witness :
  @dag_backfill Demo.world (Demo.with_window (Some 1%Z) (Some 2%Z) None)
    NoDag []
  = (Ok (), [],
     deprecation_warnings (Demo.with_window (Some 1%Z) (Some 2%Z) None)).
Proof. apply (@no_workflow_nothing_done Demo.world); reflexivity. Defined.

(** * Properties of the other commands *)

(** ** Saving and showing a graph *)

Section RPartition.

(** [rpartition] puts the string together again, and either found the
    separator, with none after it, or found none at all. *)
Lemma rpartition_spec sep s :
  (rpartition sep s).1.1 +:+ (rpartition sep s).1.2 +:+ (rpartition sep s).2 = s
  ∧ ((rpartition sep s).1.2 = String sep ""
     ∧ has_char sep (rpartition sep s).2 = false
     ∨ (rpartition sep s).1.2 = "" ∧ (rpartition sep s).1.1 = ""
       ∧ (rpartition sep s).2 = s ∧ has_char sep s = false).
Proof.
  induction s as [|c s IH]; [by split; [|right]|].
  cbn [rpartition].
  destruct (rpartition sep s) as [[before found] after]. cbn [fst snd] in *.
  destruct IH as [Hjoin Hcases].
  destruct found as [|f found].
  - destruct Hcases as [[? _]|(_ & -> & -> & Hfree)]; [done|].
    destruct (Ascii.eqb c sep) eqn:Hc; cbn [fst snd].
    + apply Ascii.eqb_eq in Hc as ->. split; [done|]. by left.
    + split; [done|]. right. repeat split; try done.
      cbn [has_char]. by rewrite Hc, Hfree.
  - cbn [fst snd].
    destruct Hcases as [[Hf Hfree]|[? _]]; [|done].
    split; [|by left].
    change (String c before +:+ String f found +:+ after)
      with (String c (before +:+ String f found +:+ after)).
    by rewrite Hjoin.
Qed.

End RPartition.

Section Graphs.
Context {E : Env}.

(** X6: [_save_dot_to_file] splits the file name at its last dot: the name
    handed to the renderer, the separator found and the format put the file
    name together again, the format never contains a dot, and the
    separator is missing only when the file name has no dot, in which case
    the name handed over is empty.  The line printed names the file in
    full. *)
Theorem save_dot_splits_at_last_dot dot filename db :
  ∃ base found ext,
    _save_dot_to_file dot filename db
    = (Done (), db,
       [Render dot base ext true; Out ("File " +:+ filename +:+ " saved")])
    ∧ base +:+ found +:+ ext = filename
    ∧ has_char dot_char ext = false
    ∧ (found = "." ∨ found = "" ∧ base = "" ∧ has_char dot_char filename = false).
Proof.
  unfold _save_dot_to_file.
  pose proof (rpartition_spec dot_char filename) as [Hjoin Hcases].
  destruct (rpartition dot_char filename) as [[base found] ext].
  cbn [fst snd] in *. exists base, found, ext.
  split; [done|]. split; [done|].
  destruct Hcases as [[-> Hfree]|(-> & -> & -> & Hfree)]; auto.
Qed.

(** X7: a file name without a dot is taken as a format, not as a name:
    the renderer gets the empty file name and the whole file name as the
    format. *)
Theorem save_dot_without_extension dot filename db :
  has_char dot_char filename = false →
  _save_dot_to_file dot filename db
  = (Done (), db,
     [Render dot "" filename true; Out ("File " +:+ filename +:+ " saved")]).
Proof.
  intros Hfree. unfold _save_dot_to_file.
  assert (∀ a b, has_char dot_char (a +:+ String dot_char "" +:+ b) = true)
    as Hdot.
  { intros a b. induction a as [|c a IH]; [done|].
    change (String c a +:+ String dot_char "" +:+ b)
      with (String c (a +:+ String dot_char "" +:+ b)).
    cbn [has_char]. by rewrite IH, orb_true_r. }
  pose proof (rpartition_spec dot_char filename) as [Hjoin Hcases].
  destruct (rpartition dot_char filename) as [[base found] ext].
  cbn [fst snd] in *.
  destruct Hcases as [[-> _]|(-> & -> & -> & _)]; [|done].
  rewrite <-Hjoin, Hdot in Hfree. done.
Qed.

End Graphs.

Section Showing.
Context {E : Env}.

Ltac eff :=
  unfold if_, mbind, eff_bind, mret, eff_ret, tell, print, eprint, query,
    update, throw in *.

Lemma query_bind {A B} (f : Db → A) (k : A → Eff B) db :
  (query f ≫= k) db = k (f db) db.
Proof.
  unfold mbind, eff_bind, query. by destruct (k (f db) db) as [[r db'] t].
Qed.

Lemma tell_bind {B} e (k : () → Eff B) db :
  (tell e ≫= k) db
  = (outcome_of (k () db), db_of (k () db), e :: events_of (k () db)).
Proof.
  unfold mbind, eff_bind, tell. by destruct (k () db) as [[r db'] t].
Qed.

Lemma bind_done {A B} (m : Eff A) (k : A → Eff B) db a db' t r db2 t2 tr :
  m db = (Done a, db', t) → k a db' = (r, db2, t2) → tr = t ++ t2 →
  (m ≫= k) db = (r, db2, tr).
Proof. intros Hm Hk ->. unfold mbind, eff_bind. by rewrite Hm, Hk. Qed.

Lemma raised_bind {A B} (m : Eff A) (k : A → Eff B) db e db' t :
  m db = (Raised e, db', t) → (m ≫= k) db = (Raised e, db', t).
Proof. intros Hm. unfold mbind, eff_bind. by rewrite Hm. Qed.

Lemma save_dot_run dot filename db :
  _save_dot_to_file dot filename db = (Done (), db, save_events dot filename).
Proof.
  unfold _save_dot_to_file, save_events.
  by destruct (rpartition dot_char filename) as [[base found] ext].
Qed.

Lemma print_decoded_run data db :
  is_Some (utf8_decode data) →
  print_decoded data db = (Done (), db, [Out (default "" (utf8_decode data))]).
Proof. intros [text Htext]. unfold print_decoded. by rewrite Htext. Qed.

Lemma display_run dot db :
  display_ok dot →
  _display_dot_via_imgcat dot db = (Done (), db, imgcat_events dot).
Proof.
  intros (out & err & Hrun & Hout & Herr).
  unfold _display_dot_via_imgcat, imgcat_events, decoded_line. rewrite Hrun.
  assert (∀ data, data = "" ∨ is_Some (utf8_decode data) →
            if_ (nonempty data) (print_decoded data) db
            = (Done (), db,
               if nonempty data then [Out (default "" (utf8_decode data))]
               else [])) as Hline.
  { intros data [->|Hdec]; [done|]. unfold if_.
    destruct (nonempty data); [|done]. by apply print_decoded_run. }
  unfold mbind, eff_bind, tell.
  by rewrite (Hline out Hout), (Hline err Herr).
Qed.

(** What [_display_dot_via_imgcat] does in any case: no file is written,
    the database is left alone, and the picture is sent at most once. *)
Lemma display_events dot db :
  filter is_render (events_of (_display_dot_via_imgcat dot db)) = []
  ∧ (length (filter is_imgcat (events_of (_display_dot_via_imgcat dot db)))
     ≤ 1)%nat
  ∧ db_of (_display_dot_via_imgcat dot db) = db.
Proof.
  unfold _display_dot_via_imgcat.
  destruct (imgcat _) as [out err|errno msg]; cycle 1.
  { destruct (bool_decide _); unfold throw, events_of, db_of; simpl;
      (split; [done|split; [lia|done]]). }
  eff. unfold print_decoded. eff.
  destruct (nonempty out), (utf8_decode out);
    destruct (nonempty err), (utf8_decode err);
    unfold events_of, db_of; simpl; (split; [done|split; [lia|done]]).
Qed.

(** X8: [--save] and [--imgcat] together are refused by [dag_show] and by
    [dag_dependencies_show]: the command exits with the message and
    neither writes a file nor starts [imgcat] nor prints the graph. *)
Theorem show_refuses_save_with_imgcat args db :
  truthy (show_save args) = true → show_imgcat args = true →
  dag_show args db = (Raised (SystemExitMessage exclusive_message), db, [])
  ∧ dag_dependencies_show args db
    = (Raised (SystemExitMessage exclusive_message), db, []).
Proof.
  intros Hsave Himg. unfold dag_show, dag_dependencies_show. eff.
  by rewrite Hsave, Himg.
Qed.

(** X9: whatever its options, a run of [dag_show] or of
    [dag_dependencies_show] writes at most one file or sends the picture to
    [imgcat] at most once, never both, and leaves the database alone. *)
Theorem show_saves_or_displays_never_both args db :
  let shown := dag_show args db in
  let deps := dag_dependencies_show args db in
  (length (filter is_render (events_of shown))
   + length (filter is_imgcat (events_of shown)) ≤ 1)%nat
  ∧ (length (filter is_render (events_of deps))
     + length (filter is_imgcat (events_of deps)) ≤ 1)%nat
  ∧ db_of shown = db ∧ db_of deps = db.
Proof.
  cbv zeta.
  assert (∀ dot,
    let out :=
      (if truthy (show_save args) && show_imgcat args
       then throw (SystemExitMessage exclusive_message)
       else if truthy (show_save args)
            then _save_dot_to_file dot (default "" (show_save args))
            else if show_imgcat args then _display_dot_via_imgcat dot
                 else print (dot_source dot)) db in
    (length (filter is_render (events_of out))
     + length (filter is_imgcat (events_of out)) ≤ 1)%nat
    ∧ db_of out = db) as Hany.
  { intros dot. cbv zeta.
    destruct (truthy (show_save args)), (show_imgcat args); cbn [andb].
    - unfold throw, events_of, db_of. simpl. split; [lia|done].
    - rewrite save_dot_run. unfold save_events, events_of, db_of. simpl.
      split; [lia|done].
    - destruct (display_events dot db) as (-> & Hle & ->). simpl.
      split; [lia|done].
    - unfold print, tell, events_of, db_of. simpl. split; [lia|done]. }
  split; [apply Hany|]. split; [|split; [apply Hany|]].
  - unfold dag_dependencies_show. rewrite query_bind. apply Hany.
  - unfold dag_dependencies_show. rewrite query_bind. apply Hany.
Qed.

End Showing.

Lemma save_dot_without_extension_witness :
  @_save_dot_to_file DemoCli.env (mkDot "digraph etl") "png" DemoCli.db
  = (Done (), DemoCli.db,
     [Render (mkDot "digraph etl") "" "png" true; Out "File png saved"]).
Proof. apply (@save_dot_without_extension DemoCli.env). reflexivity. Defined.

Lemma show_refuses_save_with_imgcat_witness :
  @dag_show DemoCli.env (DemoCli.show_args (Some "etl.png") true) DemoCli.db
  = (Raised (SystemExitMessage exclusive_message), DemoCli.db, [])
  ∧ @dag_dependencies_show DemoCli.env
      (DemoCli.show_args (Some "etl.png") true) DemoCli.db
    = (Raised (SystemExitMessage exclusive_message), DemoCli.db, []).
Proof. apply (@show_refuses_save_with_imgcat DemoCli.env); reflexivity. Defined.

Section Testing.
Context {E : Env}.

(** The graph output of [dag_test] when [imgcat], if asked for, works. *)
Lemma test_graph_block_run args dot db :
  (test_imgcat_dagrun args = true → display_ok dot) →
  (print "" ;;
   if_ (truthy (test_save_dagrun args))
     (_save_dot_to_file dot (default "" (test_save_dagrun args))) ;;
   if_ (test_imgcat_dagrun args) (_display_dot_via_imgcat dot) ;;
   if_ (test_show_dagrun args) (print (dot_source dot))) db
  = (Done (), db,
     Out ""
     :: (if truthy (test_save_dagrun args)
         then save_events dot (default "" (test_save_dagrun args)) else [])
     ++ (if test_imgcat_dagrun args then imgcat_events dot else [])
     ++ (if test_show_dagrun args then [Out (dot_source dot)] else [])).
Proof.
  intros Hshow.
  assert (if_ (truthy (test_save_dagrun args))
            (_save_dot_to_file dot (default "" (test_save_dagrun args))) db
          = (Done (), db,
             if truthy (test_save_dagrun args)
             then save_events dot (default "" (test_save_dagrun args))
             else [])) as Hsave.
  { destruct (truthy _); [apply save_dot_run|done]. }
  assert (if_ (test_imgcat_dagrun args) (_display_dot_via_imgcat dot) db
          = (Done (), db,
             if test_imgcat_dagrun args then imgcat_events dot else []))
    as Himg.
  { destruct (test_imgcat_dagrun args); [by apply display_run, Hshow|done]. }
  assert (if_ (test_show_dagrun args) (print (dot_source dot)) db
          = (Done (), db,
             if test_show_dagrun args then [Out (dot_source dot)] else []))
    as Hsrc.
  { by destruct (test_show_dagrun args). }
  eapply bind_done; [done| |reflexivity].
  eapply bind_done; [exact Hsave| |reflexivity].
  eapply bind_done; [exact Himg|exact Hsrc|reflexivity].
Qed.

(** X10: a [--conf] that is not JSON ends [dag_test] with the message
    naming the payload and the parser's error, before the DAG is run:
    nothing is printed and the database is as it was. *)
Theorem dag_test_rejects_invalid_conf args dag db e :
  test_conf_parsed args = inr e →
  dag_test args dag db
  = (Raised (SystemExitMessage
               (invalid_conf_message (default "" (test_conf args)) e)),
     db, []).
Proof.
  unfold test_conf_parsed, dag_test. intros Hconf.
  destruct (truthy (test_conf args)); [|done].
  destruct (env_json_loads _) as [v|e']; [done|].
  injection Hconf as ->. by apply raised_bind.
Qed.

(** The payload is parsed without effect. *)
Lemma test_conf_run args db run_conf :
  test_conf_parsed args = inl run_conf →
  (if truthy (test_conf args) then
     match env_json_loads (default "" (test_conf args)) with
     | inl v => mret (Some v)
     | inr e =>
         throw (SystemExitMessage
                  (invalid_conf_message (default "" (test_conf args)) e))
     end
   else mret None) db = (Done run_conf, db, []).
Proof.
  unfold test_conf_parsed. intros Hconf. destruct (truthy (test_conf args)).
  - destruct (env_json_loads _); [|done]. by injection Hconf as <-.
  - by injection Hconf as <-.
Qed.

Lemma call_dag_test_run dag date run_conf db :
  call_dag_test dag date run_conf db
  = (Done (dag_test_run dag date run_conf db).2,
     (dag_test_run dag date run_conf db).1,
     [DagTest (dag_id dag) date run_conf]).
Proof. unfold call_dag_test. by destruct (dag_test_run _ _ _ _). Qed.

Lemma test_verdict_run (dr : option DagRunState) db :
  match dr with
  | Some FAILED => throw (SystemExitMessage "DagRun failed")
  | _ => mret ()
  end db = (test_verdict dr, db, []).
Proof. by destruct dr as [[]|]. Qed.

(** X11: with a valid payload and a working [imgcat], [dag_test] runs the
    DAG once, then puts out the graph in every form asked for (the three
    options are not exclusive here), in the order blank line, file,
    [imgcat], source, and only then reports a failed run. *)
Theorem dag_test_outputs_then_verdict args dag db run_conf :
  test_conf_parsed args = inl run_conf →
  let ran := dag_test_run (test_dag args dag) (test_date args) run_conf db in
  let dot := test_graph args dag ran.1 in
  (test_imgcat_dagrun args = true → display_ok dot) →
  dag_test args dag db
  = (test_verdict ran.2, ran.1,
     DagTest (dag_id (test_dag args dag)) (test_date args) run_conf
     :: test_graph_events args dot).
Proof.
  intros Hconf ran dot Hshow. unfold dag_test.
  eapply bind_done; [by apply test_conf_run| |reflexivity].
  eapply bind_done; [apply call_dag_test_run| |reflexivity].
  fold (test_date args) (test_dag args dag). fold ran.
  eapply bind_done; [|apply test_verdict_run|by rewrite app_nil_r].
  unfold test_graph_events.
  destruct (test_show_dagrun args || test_imgcat_dagrun args
            || truthy (test_save_dagrun args)); [|done].
  rewrite query_bind. by apply test_graph_block_run.
Qed.

(** X12: when [--imgcat-dagrun] is given and the [imgcat] program is
    missing, [dag_test] ends with the hint to install it after the run and
    after a requested file was saved; the graph source is not printed,
    even if [--show-dagrun] was given, and a failed run is not reported. *)
Theorem dag_test_missing_imgcat_hides_verdict args dag db run_conf msg :
  test_conf_parsed args = inl run_conf →
  let ran := dag_test_run (test_dag args dag) (test_date args) run_conf db in
  let dot := test_graph args dag ran.1 in
  test_imgcat_dagrun args = true →
  imgcat (dot_pipe dot "png") = ImgcatOSError ENOENT msg →
  dag_test args dag db
  = (Raised (SystemExitMessage imgcat_missing_message), ran.1,
     DagTest (dag_id (test_dag args dag)) (test_date args) run_conf
     :: Out ""
     :: (if truthy (test_save_dagrun args)
         then save_events dot (default "" (test_save_dagrun args)) else [])).
Proof.
  intros Hconf ran dot Himg Hmissing. unfold dag_test.
  eapply bind_done; [by apply test_conf_run| |reflexivity].
  eapply bind_done; [apply call_dag_test_run| |reflexivity].
  fold (test_date args) (test_dag args dag). fold ran.
  apply raised_bind.
  rewrite Himg, orb_true_r. cbn [orb].
  rewrite query_bind. fold dot.
  eapply bind_done; [done| |reflexivity].
  assert (if_ (truthy (test_save_dagrun args))
            (_save_dot_to_file dot (default "" (test_save_dagrun args))) ran.1
          = (Done (), ran.1,
             if truthy (test_save_dagrun args)
             then save_events dot (default "" (test_save_dagrun args))
             else [])) as Hsave.
  { destruct (truthy _); [apply save_dot_run|done]. }
  eapply bind_done; [exact Hsave|apply raised_bind|by rewrite app_nil_r].
  change (_display_dot_via_imgcat dot ran.1
          = (Raised (SystemExitMessage imgcat_missing_message), ran.1, [])).
  unfold _display_dot_via_imgcat. rewrite Hmissing.
  by rewrite bool_decide_eq_true_2.
Qed.

End Testing.

Lemma dag_test_rejects_invalid_conf_witness :
  @dag_test DemoCli.env (DemoCli.test_args (Some "{oops") true false None)
    None DemoCli.db
  = (Raised (SystemExitMessage
               (@invalid_conf_message DemoCli.env "{oops" "bad")),
     DemoCli.db, []).
Proof. apply (@dag_test_rejects_invalid_conf DemoCli.env). reflexivity. Defined.

Lemma dag_test_outputs_then_verdict_witness :
  @dag_test DemoCli.env_imgcat
    (DemoCli.test_args (Some "{}") true true (Some "run.png")) None DemoCli.db
  = (Raised (SystemExitMessage "DagRun failed"), DemoCli.db,
     [DagTest "etl" 1 (Some []); Out "";
      Render (mkDot "digraph etl") "run" "png" true; Out "File run.png saved";
      Imgcat "digraph etl"; Out "shown"; Out "digraph etl"]).
Proof.
  refine (@dag_test_outputs_then_verdict DemoCli.env_imgcat
            (DemoCli.test_args (Some "{}") true true (Some "run.png"))
            None DemoCli.db (Some []) _ _).
  - reflexivity.
  - intros _. exists "shown", "". split; [reflexivity|].
    split; [right; eexists; reflexivity|left; reflexivity].
Defined.

Lemma dag_test_missing_imgcat_hides_verdict_witness :
  @dag_test DemoCli.env
    (DemoCli.test_args None true true (Some "run.png")) None DemoCli.db
  = (Raised (SystemExitMessage imgcat_missing_message), DemoCli.db,
     [DagTest "etl" 1 None; Out "";
      Render (mkDot "digraph etl") "run" "png" true;
      Out "File run.png saved"]).
Proof.
  refine (@dag_test_missing_imgcat_hides_verdict DemoCli.env
            (DemoCli.test_args None true true (Some "run.png"))
            None DemoCli.db None "No such file or directory" _ _ _);
    reflexivity.
Defined.

Section StateFacts.
Context {E : Env}.

(** X13: [dag_state] on a DAG that is not in the [dag] table exits with the
    message naming it and prints nothing, whatever runs the database
    holds. *)
Theorem dag_state_unknown_dag_exits dag_id date db :
  get_dagmodel db dag_id = None →
  dag_state dag_id date db
  = (Raised (SystemExitMessage (no_such_dag_message dag_id)), db, []).
Proof.
  intros Hnone. unfold dag_state. rewrite query_bind. by rewrite Hnone.
Qed.

(** X14: for a known DAG, [dag_state] prints the one line [None] when
    there is no run at that date or the run has no state; the conf of such
    a run is never shown. *)
Theorem dag_state_prints_None_without_state dag_id date db :
  is_Some (get_dagmodel db dag_id) →
  select_dag_run db dag_id date ≫= dr_state = None →
  dag_state dag_id date db = (Done (), db, [Out "None"]).
Proof.
  intros [m Hm] Hstate. unfold dag_state. rewrite query_bind, Hm.
  rewrite query_bind.
  destruct (select_dag_run db dag_id date) as [r|]; [|done].
  cbn [mbind option_bind] in *. by rewrite Hstate.
Qed.

(** X15: for a known DAG and a run with a state, the line of [dag_state]
    is the state, followed by a comma and the conf if and only if the
    state and the conf are both non-empty. *)
Theorem dag_state_appends_conf_iff dag_id date db r state :
  is_Some (get_dagmodel db dag_id) →
  select_dag_run db dag_id date = Some r → dr_state r = Some state →
  ∃ line,
    dag_state dag_id date db = (Done (), db, [Out line])
    ∧ (line = state +:+ ", " +:+ json_dumps (default [] (dr_conf r))
       ∨ line = state)
    ∧ (line = state +:+ ", " +:+ json_dumps (default [] (dr_conf r))
       ↔ nonempty state = true ∧ conf_truthy (dr_conf r) = true).
Proof.
  intros [m Hm] Hrun Hstate. unfold dag_state. rewrite query_bind, Hm.
  rewrite query_bind, Hrun. cbn [mbind option_bind]. rewrite Hstate.
  assert (truthy (Some state) = nonempty state) as -> by by destruct state.
  assert (∀ a b : string, a +:+ b = a → b = "") as Hcancel.
  { intros a b. induction a as [|c a IH]; [done|].
    intros Heq. apply IH. by injection Heq. }
  destruct (nonempty state && conf_truthy (dr_conf r)) eqn:Hboth; eexists;
    (split; [reflexivity|]); cbn [str_of_option default].
  - change (id state) with state. apply andb_true_iff in Hboth.
    split; [by left|done].
  - assert (∀ a : string, a +:+ "" = a) as Hnil.
    { intros a. induction a as [|c a IH]; [done|]. exact (f_equal (String c) IH). }
    change (id state) with state. rewrite Hnil.
    split; [by right|]. split.
    + intros Heq. symmetry in Heq. by apply Hcancel in Heq.
    + intros [H1 H2]. by rewrite H1, H2 in Hboth.
Qed.

Lemma print_execution_interval_run interval db :
  print_execution_interval interval db
  = (Done (), db, interval_events interval).
Proof. by destruct interval. Qed.

Lemma more_executions_run n dag interval db :
  more_executions n dag interval db
  = (Done (), db, flat_map interval_events (next_intervals n dag interval)).
Proof.
  revert interval. induction n as [|n IH]; intros interval; [done|].
  cbn [more_executions next_intervals flat_map].
  eapply bind_done; [apply print_execution_interval_run|apply IH|done].
Qed.

Lemma stdout_interval_events l :
  stdout (flat_map interval_events l) = interval_line <$> l.
Proof.
  induction l as [|[iv|] l IH]; [done|..]; cbn [flat_map fmap list_fmap];
    unfold stdout in *; cbn; by rewrite IH.
Qed.

Lemma stderr_interval_events l :
  stderr (flat_map interval_events l) = flat_map interval_warning l.
Proof.
  induction l as [|[iv|] l IH]; [done|..]; cbn [flat_map];
    unfold stderr in *; cbn; by rewrite IH.
Qed.

Lemma next_intervals_length n dag interval :
  length (next_intervals n dag interval) = n.
Proof.
  revert interval. induction n as [|n IH]; intros interval; [done|].
  cbn [next_intervals length]. by rewrite IH.
Qed.

Lemma dag_next_execution_run args db m :
  let dag := env_get_dag (next_subdir args) (next_dag_id args) in
  get_dagmodel db (dag_id dag) = Some m →
  dag_next_execution args db
  = (Done (), db,
     (if bool_decide (model_get_is_paused db m = Some true)
      then [ErrOut paused_reminder] else [])
     ++ flat_map interval_events
          (shown_intervals (next_num_executions args) dag m)).
Proof.
  intros dag Hm. unfold dag_next_execution. fold dag.
  rewrite query_bind, Hm, query_bind.
  assert (if_ (bool_decide (model_get_is_paused db m = Some true))
            (eprint paused_reminder) db
          = (Done (), db,
             if bool_decide (model_get_is_paused db m = Some true)
             then [ErrOut paused_reminder] else [])) as Hreminder.
  { unfold if_. by destruct (bool_decide _). }
  eapply bind_done; [exact Hreminder| |reflexivity].
  eapply bind_done;
    [apply print_execution_interval_run|apply more_executions_run|done].
Qed.

(** X16: [dag_next_execution] completes exactly when the DAG has a row in
    the [dag] table, and then prints [max 1 num_executions] lines on
    standard output: a count of zero or less still gives one line. *)
Theorem next_execution_prints_at_least_one_line args db :
  let dag := env_get_dag (next_subdir args) (next_dag_id args) in
  let out := dag_next_execution args db in
  (outcome_of out = Done () ↔ is_Some (get_dagmodel db (dag_id dag)))
  ∧ (outcome_of out = Done () →
     length (stdout (events_of out))
     = Z.to_nat (Z.max 1 (next_num_executions args)))
  ∧ db_of out = db.
Proof.
  intros dag out. subst out.
  destruct (get_dagmodel db (dag_id dag)) as [m|] eqn:Hm.
  - rewrite (dag_next_execution_run args db m Hm). fold dag.
    unfold outcome_of, db_of, events_of; cbn [fst snd]. split; [done|]. split; [|done].
    intros _. unfold stdout. rewrite omap_app.
    change (omap stdout_line) with stdout.
    rewrite stdout_interval_events, length_app, length_fmap.
    unfold shown_intervals. cbn [length]. rewrite next_intervals_length.
    assert (length (stdout (if bool_decide (model_get_is_paused db m = Some true)
                            then [ErrOut paused_reminder] else [])) = 0%nat)
      as -> by by destruct (bool_decide _).
    lia.
  - unfold dag_next_execution. fold dag. rewrite query_bind, Hm.
    unfold throw, outcome_of, db_of. cbn.
    split; [|done]. split; [done|]. by intros [? ?].
Qed.

(** X17: the two streams of [dag_next_execution]: standard output has one
    line per interval, its start or [None]; standard error has the
    reminder first if the DAG is paused, then one warning for each
    interval that could not be found. *)
Theorem next_execution_streams args db m :
  let dag := env_get_dag (next_subdir args) (next_dag_id args) in
  let shown := shown_intervals (next_num_executions args) dag m in
  get_dagmodel db (dag_id dag) = Some m →
  stdout (events_of (dag_next_execution args db)) = interval_line <$> shown
  ∧ stderr (events_of (dag_next_execution args db))
    = (if bool_decide (model_get_is_paused db m = Some true)
       then [paused_reminder] else [])
      ++ flat_map interval_warning shown.
Proof.
  intros dag shown Hm. rewrite (dag_next_execution_run args db m Hm).
  fold dag. fold shown. unfold events_of; cbn [fst snd]. unfold stdout, stderr.
  rewrite !omap_app.
  change (omap stdout_line) with stdout. change (omap stderr_line) with stderr.
  rewrite stdout_interval_events, stderr_interval_events.
  by destruct (bool_decide _).
Qed.

End StateFacts.

Lemma dag_state_unknown_dag_exits_witness :
  @dag_state DemoCli.env "etl" 1 []
  = (Raised (SystemExitMessage (no_such_dag_message "etl")), [], []).
Proof. apply (@dag_state_unknown_dag_exits DemoCli.env). reflexivity. Defined.

Lemma dag_state_prints_None_without_state_witness :
  @dag_state DemoCli.env "etl" 2 DemoCli.db
  = (Done (), DemoCli.db, [Out "None"]).
Proof.
  apply (@dag_state_prints_None_without_state DemoCli.env).
  - eexists. reflexivity.
  - reflexivity.
Defined.

Lemma dag_state_appends_conf_iff_witness :
  ∃ line,
    @dag_state DemoCli.env "etl" 1 DemoCli.db
    = (Done (), DemoCli.db, [Out line])
    ∧ (line = "failed, {}" ∨ line = "failed")
    ∧ (line = "failed, {}"
       ↔ nonempty "failed" = true ∧ conf_truthy (Some [("k", "v")]) = true).
Proof.
  refine (@dag_state_appends_conf_iff DemoCli.env "etl" 1 DemoCli.db
            (mkDagRunRow "etl" "r1" (Some "failed") (Some [("k", "v")])
               1 None None)
            "failed" _ _ _).
  - eexists. reflexivity.
  - reflexivity.
  - reflexivity.
Defined.

Lemma next_execution_streams_witness :
  stdout (events_of (@dag_next_execution DemoCli.env (DemoCli.next_args 4)
                       DemoCli.db))
  = ["1"; "2"; "None"; "None"]
  ∧ stderr (events_of (@dag_next_execution DemoCli.env (DemoCli.next_args 4)
                         DemoCli.db))
    = [paused_reminder; no_schedule_warning; no_schedule_warning].
Proof.
  refine (@next_execution_streams DemoCli.env (DemoCli.next_args 4) DemoCli.db
            (mkDagModel "etl") _).
  reflexivity.
Defined.

Section PauseFacts.
Context {E : Env}.

Lemma each_models_run is_paused (ms : list (option DagModel)) db :
  each ms (λ dag_model,
    match dag_model with
    | Some m => call_set_is_paused m is_paused
    | None => mret ()
    end) db
  = (Done (), apply_pause is_paused (omap id ms) db,
     (λ m, SetIsPaused (dm_dag_id m) is_paused) <$> omap id ms).
Proof.
  revert db. induction ms as [|[m|] ms IH]; intros db; [done|..].
  - cbn [each]. eapply bind_done; [|apply IH|].
    + unfold call_set_is_paused. rewrite tell_bind. reflexivity.
    + done.
  - cbn [each]. eapply bind_done; [done|apply IH|done].
Qed.

Lemma omap_id_fmap {A B} (f : A → option B) (l : list A) :
  omap id (f <$> l) = omap f l.
Proof.
  induction l as [|x l IH]; [done|]. cbn. destruct (f x); cbn; by rewrite IH.
Qed.

Lemma omap_fmap_table {A} (f : A → row) (l : list (option A)) :
  omap (λ x, f <$> x) l = f <$> omap id l.
Proof.
  induction l as [|[x|] l IH]; [done|..]; cbn; by rewrite IH.
Qed.

(** The run of [set_is_paused], case by case. *)
Lemma set_is_paused_run is_paused args db :
  let dags := pause_targets is_paused args db in
  let ms := pause_models is_paused args db in
  let db' := apply_pause is_paused ms db in
  set_is_paused is_paused args db
  = if bool_decide (dags = []) then
      (Done (), db, [Out (none_found_message is_paused)])
    else
      (Done (),
       (if pause_confirmed is_paused args db then db' else db),
       (if pause_asks args
        then [AskYesNo (pause_question is_paused (dag_id <$> dags))] else [])
       ++ (if pause_confirmed is_paused args db
           then ((λ m, SetIsPaused (dm_dag_id m) is_paused) <$> ms)
                ++ [PrintAs (pause_table db' ms) (pause_output args)]
           else [Out "Operation cancelled by user"])).
Proof.
  intros dags ms db'. unfold set_is_paused. rewrite query_bind.
  fold (pause_targets is_paused args db). fold dags.
  destruct (bool_decide (dags = [])); [done|].
  unfold pause_confirmed. fold dags. fold (pause_asks args).
  assert (∀ ok : bool,
    (if ok then
       dags_models ← query (λ db0, (λ dag, get_dagmodel db0 (dag_id dag)) <$> dags);
       each dags_models (λ dag_model,
         match dag_model with
         | Some m => call_set_is_paused m is_paused
         | None => mret ()
         end) ;;
       data ← query (λ db0,
                 omap (λ dag_model,
                         (λ m, [("dag_id", CStr (dm_dag_id m));
                                ("is_paused",
                                 cell_of_bool (model_get_is_paused db0 m))])
                         <$> dag_model) dags_models);
       tell (PrintAs data (pause_output args))
     else print "Operation cancelled by user") db
    = (Done (), (if ok then db' else db),
       if ok
       then ((λ m, SetIsPaused (dm_dag_id m) is_paused) <$> ms)
            ++ [PrintAs (pause_table db' ms) (pause_output args)]
       else [Out "Operation cancelled by user"])) as Hrest.
  { intros [|]; [|done]. rewrite query_bind.
    eapply bind_done; [|rewrite query_bind; reflexivity|].
    - rewrite each_models_run, omap_id_fmap. reflexivity.
    - by rewrite omap_fmap_table, omap_id_fmap. }
  destruct (pause_asks args).
  - eapply bind_done; [|apply Hrest|reflexivity].
    unfold call_ask_yesno. by rewrite tell_bind.
  - eapply bind_done; [done|apply (Hrest true)|reflexivity].
Qed.

Lemma paused_calls_set ms is_paused :
  paused_calls ((λ m, SetIsPaused (dm_dag_id m) is_paused) <$> ms)
  = (λ m, (dm_dag_id m, is_paused)) <$> ms.
Proof.
  induction ms as [|m ms IH]; [done|]. unfold paused_calls in *. cbn.
  by rewrite IH.
Qed.

(** X18: when every selected DAG already has the requested flag,
    [set_is_paused] only says that none was found: it asks nothing, sets
    nothing and prints no table. *)
Theorem pause_nothing_to_change is_paused args db :
  (∀ dag,
     dag ∈ env_get_dags (pause_subdir args) (pause_dag_id args)
             (pause_treat_dag_id_as_regex args) →
     dag_get_is_paused db dag = Some is_paused) →
  set_is_paused is_paused args db
  = (Done (), db, [Out (none_found_message is_paused)]).
Proof.
  intros Hall. rewrite set_is_paused_run.
  rewrite bool_decide_eq_true_2; [done|].
  unfold pause_targets.
  induction (env_get_dags _ _ _) as [|dag dags IH]; [done|].
  rewrite filter_cons_False.
  - apply IH. intros d Hd. apply Hall. by right.
  - intros Hne. apply Hne. symmetry. apply Hall. by left.
Qed.

(** X19: [set_is_paused] asks for confirmation at most once, and only
    for a regex selection without [--yes] that has something to change. *)
Theorem pause_asks_only_for_regex_without_yes is_paused args db :
  let tr := events_of (set_is_paused is_paused args db) in
  (length (filter is_question tr) ≤ 1)%nat
  ∧ (filter is_question tr ≠ [] ↔
     pause_yes args = false ∧ pause_treat_dag_id_as_regex args = true
     ∧ pause_targets is_paused args db ≠ []).
Proof.
  cbv zeta. rewrite set_is_paused_run.
  assert (∀ ms, filter is_question
                  ((λ m, SetIsPaused (dm_dag_id m) is_paused) <$> ms) = [])
    as Hcalls.
  { intros ms. induction ms as [|m ms IH]; [done|].
    rewrite fmap_cons, filter_cons_False; [done|]. by intros []. }
  destruct (bool_decide_reflect (pause_targets is_paused args db = []))
    as [Hnone|Hsome]; unfold events_of; cbn [fst snd].
  { simpl. split; [lia|]. split; [done|]. by intros (_ & _ & ?). }
  assert (filter is_question
            (if pause_confirmed is_paused args db
             then ((λ m, SetIsPaused (dm_dag_id m) is_paused)
                   <$> pause_models is_paused args db)
                  ++ [PrintAs
                        (pause_table
                           (apply_pause is_paused
                              (pause_models is_paused args db) db)
                           (pause_models is_paused args db))
                        (pause_output args)]
             else [Out "Operation cancelled by user"]) = []) as Hrest.
  { destruct (pause_confirmed _ _ _); [|done].
    by rewrite filter_app, Hcalls. }
  rewrite filter_app, Hrest, app_nil_r. unfold pause_asks.
  destruct (pause_yes args), (pause_treat_dag_id_as_regex args); simpl;
    (split; [lia|]); split; try done; try by intros (? & ? & ?).
Qed.

(** X20: a declined confirmation leaves the database as it was: after the
    question only the cancellation is printed; no flag is set and no table
    is shown. *)
Theorem pause_declined_changes_nothing is_paused args db :
  pause_targets is_paused args db ≠ [] →
  pause_confirmed is_paused args db = false →
  set_is_paused is_paused args db
  = (Done (), db,
     [AskYesNo (pause_question is_paused
                  (dag_id <$> pause_targets is_paused args db));
      Out "Operation cancelled by user"]).
Proof.
  intros Hsome Hno. rewrite set_is_paused_run.
  rewrite bool_decide_eq_false_2 by done. rewrite Hno.
  unfold pause_confirmed in Hno. by destruct (pause_asks args).
Qed.

(** X21: when [set_is_paused] goes ahead, it sets the requested flag on
    the rows of the DAGs whose flag differs, in the order of the
    selection, skipping DAGs without a row; the table printed at the end
    shows the flags read after all of them were set. *)
Theorem pause_applies_to_differing_dags_in_order is_paused args db :
  let ms := pause_models is_paused args db in
  let out := set_is_paused is_paused args db in
  pause_targets is_paused args db ≠ [] →
  pause_confirmed is_paused args db = true →
  outcome_of out = Done ()
  ∧ db_of out = apply_pause is_paused ms db
  ∧ paused_calls (events_of out) = (λ m, (dm_dag_id m, is_paused)) <$> ms
  ∧ last (events_of out)
    = Some (PrintAs (pause_table (db_of out) ms) (pause_output args)).
Proof.
  intros ms out Hsome Hyes. subst out. rewrite set_is_paused_run.
  rewrite bool_decide_eq_false_2 by done. rewrite Hyes.
  unfold outcome_of, db_of, events_of; cbn [fst snd].
  split; [done|]. split; [done|]. split.
  - unfold paused_calls. rewrite !omap_app.
    change (omap paused_call) with paused_calls. rewrite paused_calls_set.
    fold ms. destruct (pause_asks args); cbn; by rewrite app_nil_r.
  - by rewrite !last_snoc || rewrite app_assoc, last_snoc.
Qed.

(** X22: whatever the options and the answer, every flag [dag_pause] sets
    is [True] and every flag [dag_unpause] sets is [False], and each is set
    on the row of a selected DAG whose flag was different before. *)
Theorem pause_and_unpause_set_only_their_flag args db d b :
  let selected := env_get_dags (pause_subdir args) (pause_dag_id args)
                    (pause_treat_dag_id_as_regex args) in
  let changed is_paused :=
    ∃ dag m, dag ∈ selected
             ∧ dag_get_is_paused db dag ≠ Some is_paused
             ∧ get_dagmodel db (dag_id dag) = Some m ∧ dm_dag_id m = d in
  ((d, b) ∈ paused_calls (events_of (dag_pause args db)) →
   b = true ∧ changed true)
  ∧ ((d, b) ∈ paused_calls (events_of (dag_unpause args db)) →
     b = false ∧ changed false).
Proof.
  cbv zeta.
  assert (∀ is_paused,
    (d, b) ∈ paused_calls (events_of (set_is_paused is_paused args db)) →
    b = is_paused
    ∧ ∃ dag m,
        dag ∈ env_get_dags (pause_subdir args) (pause_dag_id args)
                (pause_treat_dag_id_as_regex args)
        ∧ dag_get_is_paused db dag ≠ Some is_paused
        ∧ get_dagmodel db (dag_id dag) = Some m ∧ dm_dag_id m = d) as Hany.
  { intros is_paused. rewrite set_is_paused_run.
    destruct (bool_decide _); unfold events_of; cbn [fst snd].
    { cbn. by intros ?%elem_of_nil. }
    unfold paused_calls. rewrite omap_app.
    assert (omap paused_call
              (if pause_asks args
               then [AskYesNo
                       (pause_question is_paused
                          (dag_id <$> pause_targets is_paused args db))]
               else []) = []) as -> by by destruct (pause_asks args).
    rewrite app_nil_l.
    destruct (pause_confirmed _ _ _); [|cbn; by intros ?%elem_of_nil].
    rewrite omap_app. change (omap paused_call) with paused_calls.
    rewrite paused_calls_set. cbn. rewrite app_nil_r.
    intros (m & [= -> ->] & Hm)%list_elem_of_fmap. split; [done|].
    unfold pause_models in Hm.
    apply list_elem_of_omap in Hm as (dag & Hdag & Hrow).
    apply list_elem_of_filter in Hdag as [Hdiff Hsel].
    exists dag, m. split; [done|]. split; [|done].
    intros Heq. apply Hdiff. by rewrite Heq. }
  split; apply Hany.
Qed.

End PauseFacts.

Lemma pause_nothing_to_change_witness :
  @set_is_paused DemoCli.env true (DemoCli.pause_args false false)
    [("etl", true); ("report", true)]
  = (Done (), [("etl", true); ("report", true)],
     [Out "No unpaused DAGs were found"]).
Proof.
  apply (@pause_nothing_to_change DemoCli.env).
  intros dag Hdag. apply elem_of_cons in Hdag as [->|Hdag]; [reflexivity|].
  apply elem_of_cons in Hdag as [->|Hdag]; [reflexivity|].
  by apply elem_of_nil in Hdag.
Defined.

Lemma pause_declined_changes_nothing_witness :
  @set_is_paused DemoCli.env true (DemoCli.pause_args true false) DemoCli.db
  = (Done (), DemoCli.db,
     [AskYesNo (pause_question true ["report"]);
      Out "Operation cancelled by user"]).
Proof.
  apply (@pause_declined_changes_nothing DemoCli.env).
  - vm_compute. discriminate.
  - reflexivity.
Defined.

Lemma pause_applies_to_differing_dags_in_order_witness :
  paused_calls
    (events_of (@set_is_paused DemoCli.env true (DemoCli.pause_args false true)
                  DemoCli.db))
  = [("report", true)].
Proof.
  refine (proj1 (proj2 (proj2
            (@pause_applies_to_differing_dags_in_order DemoCli.env true
               (DemoCli.pause_args false true) DemoCli.db _ _)))).
  - vm_compute. discriminate.
  - reflexivity.
Defined.

Section SortFacts.

Lemma insert_by_date_desc_perm x l : insert_by_date_desc x l ≡ₚ x :: l.
Proof.
  induction l as [|y l IH]; [done|]. cbn [insert_by_date_desc].
  destruct (_ <=? _)%Z; [done|]. rewrite IH. apply Permutation_swap.
Qed.

Lemma sort_by_date_desc_perm l : sort_by_date_desc l ≡ₚ l.
Proof.
  induction l as [|x l IH]; [done|]. unfold sort_by_date_desc in *.
  cbn [foldr]. by rewrite insert_by_date_desc_perm, IH.
Qed.

Lemma insert_by_date_desc_sorted x l :
  StronglySorted not_earlier l →
  StronglySorted not_earlier (insert_by_date_desc x l).
Proof.
  induction 1 as [|y l Hsorted IH Hall]; cbn [insert_by_date_desc].
  { repeat constructor. }
  destruct (dr_execution_date y <=? dr_execution_date x)%Z eqn:Hle.
  - apply Z.leb_le in Hle. constructor; [by constructor|].
    constructor; [done|].
    eapply Forall_impl; [exact Hall|]. unfold not_earlier. intros z Hz. lia.
  - apply Z.leb_gt in Hle. constructor; [done|].
    rewrite insert_by_date_desc_perm. constructor; [|done].
    unfold not_earlier. lia.
Qed.

Lemma sort_by_date_desc_sorted l :
  StronglySorted not_earlier (sort_by_date_desc l).
Proof.
  induction l as [|x l IH]; [constructor|]. unfold sort_by_date_desc in *.
  cbn [foldr]. by apply insert_by_date_desc_sorted.
Qed.

Lemma insert_by_date_desc_stable d x l :
  runs_at d (insert_by_date_desc x l) = runs_at d (x :: l).
Proof.
  unfold runs_at. induction l as [|y l IH]; [done|].
  cbn [insert_by_date_desc].
  destruct (dr_execution_date y <=? dr_execution_date x)%Z eqn:Hle; [done|].
  apply Z.leb_gt in Hle. rewrite (filter_cons _ y), IH, !filter_cons.
  destruct (decide (dr_execution_date y = d)) as [Hy|Hy];
    destruct (decide (dr_execution_date x = d)) as [Hx|Hx]; try done. lia.
Qed.

Lemma sort_by_date_desc_stable d l :
  runs_at d (sort_by_date_desc l) = runs_at d l.
Proof.
  induction l as [|x l IH]; [done|]. unfold sort_by_date_desc in *.
  cbn [foldr]. rewrite insert_by_date_desc_stable. unfold runs_at in *.
  by rewrite !filter_cons, IH.
Qed.

End SortFacts.

Section ListFacts.
Context {E : Env}.

(** X23: [dag_list_import_errors] always prints the table, one row per
    import error, and ends with status 1 exactly when there is an error;
    with none it ends normally after printing the empty table. *)
Theorem import_errors_exit_status subdir output db :
  let out := dag_list_import_errors subdir output db in
  (∃ rows, events_of out = [PrintAs rows output]
           ∧ length rows = length (import_errors subdir))
  ∧ (cli_exit_status (outcome_of out) = 1%Z ↔ import_errors subdir ≠ [])
  ∧ (cli_exit_status (outcome_of out) = 0%Z ↔ import_errors subdir = [])
  ∧ db_of out = db.
Proof.
  cbv zeta. unfold dag_list_import_errors. rewrite tell_bind.
  unfold outcome_of, db_of, events_of; cbn [fst snd].
  destruct (import_errors subdir) as [|e l] eqn:Herrors.
  - cbn. split; [by eexists|]. by repeat split.
  - rewrite bool_decide_eq_false_2 by done. cbn.
    split; [eexists; split; [reflexivity|]; cbn; by rewrite length_fmap|].
    by repeat split.
Qed.

(** X24: [dag_list_dag_runs] prints one table with a row for each run
    found, latest execution date first; runs of the same date keep the
    order in which they were found.  The DAG is looked up in the [dag]
    table only when none is passed in. *)
Theorem list_dag_runs_latest_first args dag db :
  (dag = None → is_Some (get_dagmodel db (runs_dag_id args))) →
  ∃ sorted,
    dag_list_dag_runs args dag db
    = (Done (), db, [PrintAs (dag_run_row <$> sorted) (runs_output args)])
    ∧ sorted ≡ₚ runs_found args dag db
    ∧ StronglySorted not_earlier sorted
    ∧ ∀ d, runs_at d sorted = runs_at d (runs_found args dag db).
Proof.
  intros Hknown. exists (sort_by_date_desc (runs_found args dag db)).
  split; [|split; [apply sort_by_date_desc_perm|
                   split; [apply sort_by_date_desc_sorted|
                           intros d; apply sort_by_date_desc_stable]]].
  unfold dag_list_dag_runs.
  assert (match dag with
          | Some d => mret (dag_id d)
          | None =>
              found ← query (λ db0, get_dagmodel db0 (runs_dag_id args));
              match found with
              | None =>
                  throw (SystemExitMessage
                           (no_such_dag_message (runs_dag_id args)))
              | Some _ => mret (runs_dag_id args)
              end
          end db = (Done (runs_dag_id_used args dag), db, [])) as Hid.
  { destruct dag as [d|]; [done|].
    destruct (Hknown eq_refl) as [m Hm]. rewrite query_bind. by rewrite Hm. }
  eapply bind_done; [exact Hid|by rewrite query_bind|done].
Qed.

(** X25: without a DAG passed in, [dag_list_dag_runs] on an id that is not
    in the [dag] table exits with the message before any run is looked up
    or printed. *)
Theorem list_dag_runs_unknown_dag_exits args db :
  get_dagmodel db (runs_dag_id args) = None →
  dag_list_dag_runs args None db
  = (Raised (SystemExitMessage (no_such_dag_message (runs_dag_id args))),
     db, []).
Proof.
  intros Hnone. unfold dag_list_dag_runs. apply raised_bind.
  rewrite query_bind. by rewrite Hnone.
Qed.

End ListFacts.

Lemma list_dag_runs_latest_first_witness :
  ∃ sorted,
    @dag_list_dag_runs DemoCli.env DemoCli.runs_args None DemoCli.db
    = (Done (), DemoCli.db,
       [PrintAs (@dag_run_row DemoCli.env <$> sorted) "table"])
    ∧ sorted ≡ₚ @runs_found DemoCli.env DemoCli.runs_args None DemoCli.db
    ∧ StronglySorted not_earlier sorted
    ∧ ∀ d, runs_at d sorted
           = runs_at d (@runs_found DemoCli.env DemoCli.runs_args None
                          DemoCli.db).
Proof.
  apply (@list_dag_runs_latest_first DemoCli.env).
  intros _. eexists. reflexivity.
Defined.

Lemma list_dag_runs_unknown_dag_exits_witness :
  @dag_list_dag_runs DemoCli.env DemoCli.runs_args None []
  = (Raised (SystemExitMessage (no_such_dag_message "etl")), [], []).
Proof.
  apply (@list_dag_runs_unknown_dag_exits DemoCli.env). reflexivity.
Defined.
